(** * Goal-conditioned manipulation environments: transforms, rewards, resets

    A shallow embedding of the control and evaluation core of the
    environments in [gym/utils/transformations.py],
    [gym/envs/robotics/hand/move.py],
    [gym/envs/robotics/hand/pick_and_place.py], [gym/envs/yumi/yumi_env.py]
    and [gym/envs/yumi/yumi_constrained.py].

    Conventions of the embedding:
    - a one-dimensional numpy array of floats is a [list R]; float64
      arithmetic is idealised as arithmetic on real numbers, so that
      "equal within floating tolerance" reads as equality;
    - slicing [a[:n]] is [firstn n a], [a[n:]] is [skipn n a], [np.r_] and
      [np.concatenate] are [++], [a.size] is [length a];
    - a Python exception (failed [assert], [IndexError], [ValueError],
      [NotImplementedError]) is [None] in the [option] monad, or [inl] of an
      error value where the kind of the exception matters. *)

From Stdlib Require Import String.
From Stdlib Require Import Reals Lra Lia Bool ZArith List.
Import ListNotations.
Open Scope R_scope.

(** ** Numeric helpers *)

Definition Rltb (x y : R) : bool := if Rlt_dec x y then true else false.
Definition Rleb (x y : R) : bool := if Rle_dec x y then true else false.

(** The 0/1 score [(cond).astype(np.float32)]. *)
Definition astype_float (b : bool) : R := if b then 1 else 0.

(** [np.clip] on a scalar. *)
Definition clip (x lo hi : R) : R := Rmax lo (Rmin x hi).

(** [np.linalg.norm(v, axis=-1)]: the Euclidean norm. *)
Definition sum_sq (v : list R) : R := fold_right (fun x acc => x * x + acc) 0 v.
Definition norm (v : list R) : R := sqrt (sum_sq v).

(** Elementwise [a + b] and [a - b] on arrays of one shape; a shape mismatch
    is a numpy broadcasting error. *)
Fixpoint map2 (f : R -> R -> R) (a b : list R) : option (list R) :=
  match a, b with
  | [], [] => Some []
  | x :: a', y :: b' =>
      match map2 f a' b' with
      | Some r => Some (f x y :: r)
      | None => None
      end
  | _, _ => None
  end.

Definition vadd := map2 Rplus.
Definition vsub := map2 Rminus.

(** Python's float [x % m] for [m > 0]: the remainder has the sign of [m]. *)
Definition py_mod (x m : R) : R := x - IZR (Int_part (x / m)) * m.

(** The error monad of a call that may raise. *)
Definition bind {A B : Type} (m : option A) (k : A -> option B) : option B :=
  match m with
  | Some a => k a
  | None => None
  end.

Notation "x <- m ;; k" := (bind m (fun x => k))
  (at level 61, m at next level, right associativity).

(** ** [gym.envs.robotics.rotations] *)

Module Rotations.

(** Modelled from the spec: [rotations.quat_identity] of
    gym/envs/robotics/rotations.py, which is not among the source files;
    the spec's "identity quaternion", scalar first. *)
Definition quat_identity : list R := [1; 0; 0; 0].

(** Modelled from the spec: [rotations.quat_conjugate] of
    gym/envs/robotics/rotations.py, which is not among the source files;
    the spec's [conjugate]: the scalar part is kept and the vector part is
    negated. Indexing an empty array raises. *)
Definition quat_conjugate (q : list R) : option (list R) :=
  match q with
  | [] => None
  | w :: v => Some (w :: map Ropp v)
  end.

(** Modelled from the spec: [rotations.quat_mul] of
    gym/envs/robotics/rotations.py, which is not among the source files;
    the spec's [⊗], the Hamilton product of scalar-first quaternions. Both
    arguments must have four components. *)
Definition quat_mul (q0 q1 : list R) : option (list R) :=
  match q0, q1 with
  | [w0; x0; y0; z0], [w1; x1; y1; z1] =>
      Some [ w0 * w1 - x0 * x1 - y0 * y1 - z0 * z1;
             w0 * x1 + x0 * w1 + y0 * z1 - z0 * y1;
             w0 * y1 + y0 * w1 + z0 * x1 - x0 * z1;
             w0 * z1 + z0 * w1 + x0 * y1 - y0 * x1 ]
  | _, _ => None
  end.

(** Modelled from the spec: [rotations.quat_rot_vec] of
    gym/envs/robotics/rotations.py, which is not among the source files;
    the spec's [rotate(q, v)]: the vector part of [q ⊗ (0, v) ⊗ conjugate(q)]. *)
Definition quat_rot_vec (q v0 : list R) : option (list R) :=
  match v0 with
  | [a; b; c] =>
      qc <- quat_conjugate q ;;
      t <- quat_mul [0; a; b; c] qc ;;
      q_v <- quat_mul q t ;;
      Some (skipn 1 q_v)
  | _ => None
  end.

(** Modelled from the spec: [rotations.normalize_angles] of
    gym/envs/robotics/rotations.py, which is not among the source files;
    the spec's "normalize into canonical range": the angle is wrapped by
    [(angle + pi) % (2 pi) - pi]. *)
Definition normalize_angles (angle : R) : R :=
  py_mod (angle + PI) (2 * PI) - PI.

(** A unit quaternion: four components of squared norm one. *)
Definition is_unit_quat (q : list R) : Prop :=
  length q = 4%nat /\ sum_sq q = 1.

End Rotations.

(** ** [gym.utils.transformations] *)

Module Transformations.
Import Rotations.

Definition quat_angle_diff (quat_a quat_b : list R) : option R :=
  qc <- quat_conjugate quat_b ;;
  quat_diff <- quat_mul quat_a qc ;;
  let angle_diff := 2 * acos (clip (nth 0 quat_diff 0) (-1) 1) in
  Some (Rabs (normalize_angles angle_diff)).

(** Returns the [a_to_b] pose. *)
Definition get_tf (world_to_b world_to_a : list R) : option (list R) :=
  pos_tf <- vsub (firstn 3 world_to_b) (firstn 3 world_to_a) ;;
  qc <- quat_conjugate (skipn 3 world_to_a) ;;
  q <- quat_mul quat_identity qc ;;
  pos_tf <- quat_rot_vec q pos_tf ;;
  qc' <- quat_conjugate (skipn 3 world_to_a) ;;
  quat_tf <- quat_mul (skipn 3 world_to_b) qc' ;;
  Some (pos_tf ++ quat_tf).

(** Returns the [world_to_b] pose. *)
Definition apply_tf (a_to_b world_to_a : list R) : option (list R) :=
  let pos_only := Nat.eqb (length world_to_a) 3 in
  let world_to_a :=
    if Nat.eqb (length world_to_a) 3 then world_to_a ++ [1; 0; 0; 0] else world_to_a in
  let a_to_b :=
    if Nat.eqb (length a_to_b) 3 then a_to_b ++ [1; 0; 0; 0] else a_to_b in
  r <- quat_rot_vec (skipn 3 world_to_a) (firstn 3 a_to_b) ;;
  new_pos <- vadd (firstn 3 world_to_a) r ;;
  new_quat <- quat_mul (skipn 3 world_to_a) (skipn 3 a_to_b) ;;
  if pos_only then Some new_pos else Some (new_pos ++ new_quat).

End Transformations.

(** ** The external collaborators

    The physics simulator and the pseudo-random source are outside the
    repository; the environments only call their interface. *)

(** [self.sim]: the part of the mujoco interface the environments use.
    Bodies, sites and joints are addressed by name. *)
Class Simulator (Sim SimState : Type) := {
  sim_set_state : SimState -> Sim -> Sim;
  sim_step : Sim -> Sim;
  sim_forward : Sim -> Sim;
  nmocap : Sim -> nat;
  (** [sim.data.mocap_pos[0]] and [sim.data.mocap_quat[0]] *)
  mocap_pos : Sim -> list R;
  mocap_quat : Sim -> list R;
  set_mocap_pos : list R -> Sim -> Sim;
  set_mocap_quat : list R -> Sim -> Sim;
  reset_mocap2body_xpos : Sim -> Sim;
  (** [hand_env.HandEnv._set_action], which reads [self.relative_control] *)
  hand_set_action : bool -> list R -> Sim -> Sim;
  get_joint_qpos : string -> Sim -> list R;
  set_joint_qpos : string -> list R -> Sim -> Sim;
  get_joint_qvel : string -> Sim -> list R;
  get_body_xpos : string -> Sim -> list R;
  get_body_xquat : string -> Sim -> list R;
  get_site_xpos : string -> Sim -> list R;
  (** [rotations.mat2quat(sim.data.get_site_xmat(name))] *)
  get_site_xquat : string -> Sim -> list R
}.

(** [self.np_random]: [uniform low high] draws one number and advances the
    generator. *)
Class RandomState (Rng : Type) := {
  uniform : R -> R -> Rng -> R * Rng
}.

(** [np_random.uniform(low, high)] with array bounds, and with [size=n]:
    one draw per component, in order. *)
Fixpoint uniform_vec {Rng} `{RandomState Rng} (lo hi : list R) (g : Rng)
  : list R * Rng :=
  match lo, hi with
  | l :: lo', h :: hi' =>
      let (x, g1) := uniform l h g in
      let (xs, g2) := uniform_vec lo' hi' g1 in
      (x :: xs, g2)
  | _, _ => ([], g)
  end.

Definition uniform_size {Rng} `{RandomState Rng} (lo hi : R) (n : nat) (g : Rng)
  : list R * Rng :=
  uniform_vec (repeat lo n) (repeat hi n) g.

(** [np.clip(a, a_min, a_max)] with array bounds of the shape of [a]. *)
Fixpoint clip_vec (a lo hi : list R) : list R :=
  match a, lo, hi with
  | x :: a', l :: lo', h :: hi' => clip x l h :: clip_vec a' lo' hi'
  | _, _, _ => []
  end.

(** [np.all((a_min <= a) & (a <= a_max))] and its strict variant. *)
Fixpoint all_in_range (le : R -> R -> bool) (a lo hi : list R) : bool :=
  match a, lo, hi with
  | x :: a', l :: lo', h :: hi' => le l x && le x h && all_in_range le a' lo' hi'
  | _, _, _ => true
  end.

(** Info dictionaries: string keys, float values. *)
Definition dict := list (string * R).

Fixpoint dict_get (k : string) (d : dict) : option R :=
  match d with
  | [] => None
  | (k', v) :: d' => if String.eqb k k' then Some v else dict_get k d'
  end.

(** The outcome of a call whose loop has no bound: it returns, it raises, or
    the iteration budget of the model is used up while the loop still runs. *)
Inductive outcome (A : Type) : Type :=
| Returned (a : A)
| Raised
| Running.
Arguments Returned {A} a.
Arguments Raised {A}.
Arguments Running {A}.

(** ** [gym.envs.robotics.hand.move] *)

Module Move.
Import Rotations.

Definition _goal_distance (goal_a goal_b : list R) (ignore_target_rotation : bool)
  : option (R * R) :=
  if negb (Nat.eqb (length goal_a) (length goal_b)) then None else
  if negb (Nat.eqb (length goal_a) 7) then None else
  delta_pos <- vsub (firstn 3 goal_a) (firstn 3 goal_b) ;;
  let d_pos := norm delta_pos in
  if negb ignore_target_rotation then
    qc <- quat_conjugate (skipn 3 goal_b) ;;
    quat_diff <- quat_mul (skipn 3 goal_a) qc ;;
    let angle_diff := 2 * acos (clip (nth 0 quat_diff 0) (-1) 1) in
    Some (d_pos, angle_diff)
  else Some (d_pos, 0).

Definition _check_range (a a_min a_max : list R) (include_bounds : bool) : bool :=
  if include_bounds then all_in_range Rleb a a_min a_max
  else all_in_range Rltb a a_min a_max.

(** The [grasp_state] argument of the constructor: [None], a Python [bool],
    or a simulator state. *)
Inductive grasp_arg (SimState : Type) : Type :=
| GraspNone
| GraspBool (b : bool)
| GraspState (s : SimState).
Arguments GraspNone {SimState}.
Arguments GraspBool {SimState} b.
Arguments GraspState {SimState} s.

(** The exceptions of the constructor. *)
Inductive init_error : Type :=
| IOError
| ValueError (msg : string)
| KeyError
| TypeError.

(** The keys of the [OBJECTS] table. *)
Definition OBJECTS : list string :=
  ["original"; "small_box"; "box"; "sphere"; "small_sphere"; "teapot"]%string.

Section Env.
Context {Sim SimState Rng : Type}.
Context `{Simulator Sim SimState} `{RandomState Rng}.

(** The attributes the constructor of [MovingHandEnv] sets from its
    arguments. *)
Record Config : Type := {
  target_in_the_air_p : R;
  has_object : bool;
  ignore_target_rotation : bool;
  randomize_initial_arm_pos : bool;
  randomize_initial_object_pos : bool;
  ignore_rotation_ctrl : bool;
  distance_threshold : R;
  rotation_threshold : R;
  reward_type : string;
  success_on_grasp_only : bool;
  object_id : string;
  forearm_bounds : list R * list R;
  table_safe_bounds : list R * list R;
  _initial_arm_mocap_pose : list R;
  grasp_state : grasp_arg SimState;
  grasp_state_reset_p : R
}.

(** A [MovingHandEnv] object: its configuration, and the attributes that
    [reset] and [step] read and write. *)
Record MovingHandEnv : Type := {
  config : Config;
  sim : Sim;
  initial_state : SimState;
  np_random : Rng;
  relative_control : bool;
  n_actions : nat;
  height_offset : R;
  goal : list R
}.

Definition with_sim (self : MovingHandEnv) (s : Sim) : MovingHandEnv :=
  {| config := config self; sim := s; initial_state := initial_state self;
     np_random := np_random self; relative_control := relative_control self;
     n_actions := n_actions self; height_offset := height_offset self;
     goal := goal self |}.

Definition with_np_random (self : MovingHandEnv) (g : Rng) : MovingHandEnv :=
  {| config := config self; sim := sim self; initial_state := initial_state self;
     np_random := g; relative_control := relative_control self;
     n_actions := n_actions self; height_offset := height_offset self;
     goal := goal self |}.

Definition with_goal (self : MovingHandEnv) (g : list R) : MovingHandEnv :=
  {| config := config self; sim := sim self; initial_state := initial_state self;
     np_random := np_random self; relative_control := relative_control self;
     n_actions := n_actions self; height_offset := height_offset self;
     goal := g |}.

Definition with_relative_control (self : MovingHandEnv) (b : bool) : MovingHandEnv :=
  {| config := config self; sim := sim self; initial_state := initial_state self;
     np_random := np_random self; relative_control := b;
     n_actions := n_actions self; height_offset := height_offset self;
     goal := goal self |}.

(** *** The constructor *)

(** The arguments of [__init__] that its checks read. [grasp_file] is the
    content of the pickled grasp state on disk, when the file exists. *)
Record InitArgs : Type := {
  arg_reward_type : string;
  arg_has_object : bool;
  arg_randomize_initial_arm_pos : bool;
  arg_randomize_initial_object_pos : bool;
  arg_ignore_rotation_ctrl : bool;
  arg_distance_threshold : R;
  arg_rotation_threshold : R;
  arg_ignore_target_rotation : bool;
  arg_success_on_grasp_only : bool;
  arg_grasp_state : grasp_arg SimState;
  arg_grasp_state_reset_p : R;
  arg_target_in_the_air_p : R;
  arg_object_id : string;
  grasp_file : option SimState
}.

(** [MovingHandEnv.__init__] up to the call of [HandEnv.__init__]: the
    checks of the arguments, in the order of the source, and the scene
    description [xml_format], which stays [None] without an object.
    [arm_quat] stands for [rotations.euler2quat(np.r_[0., 1.59, 1.57])]:
    gym/envs/robotics/rotations.py is not among the source files. *)
Definition init (a : InitArgs) (arm_quat : list R) : init_error + Config :=
  (* if isinstance(grasp_state, bool) and grasp_state: load the pickle *)
  let loaded :=
    match arg_grasp_state a with
    | GraspBool true =>
        match grasp_file a with
        | None => inl IOError
        | Some st => inr (GraspState st)
        end
    | g => inr g
    end in
  match loaded with
  | inl e => inl e
  | inr gs =>
      let is_not_none :=
        match gs with GraspNone => false | _ => true end in
      if is_not_none && Rleb (arg_grasp_state_reset_p a) 0 then
        inl (ValueError "grasp_state_reset_p must be greater than zero if grasp_state is specified!")
      else if arg_ignore_rotation_ctrl a && negb (arg_ignore_target_rotation a) then
        inl (ValueError "Target rotation must be ignored if arm cannot rotate! Set ignore_target_rotation=True")
      else if arg_success_on_grasp_only a
                 && negb (String.eqb (arg_reward_type a) "sparse") then
        inl (ValueError "Parameter success_on_grasp_only requires sparse rewards!")
      else if arg_success_on_grasp_only a && negb (arg_has_object a) then
        inl (ValueError "Parameter success_on_grasp_only requires object to be grasped!")
      else
        (* xml_format = None; if self.has_object: ... OBJECTS[object_id] ... *)
        let xml_format : init_error + option unit :=
          if arg_has_object a then
            if existsb (String.eqb (arg_object_id a)) OBJECTS
            then inr (Some tt) else inl KeyError
          else inr None in
        match xml_format with
        | inl e => inl e
        (* xml_format['finger_welds'] = ...: item assignment on None *)
        | inr None => inl TypeError
        | inr (Some _) =>
            inr {| target_in_the_air_p := arg_target_in_the_air_p a;
                   has_object := arg_has_object a;
                   ignore_target_rotation := arg_ignore_target_rotation a;
                   randomize_initial_arm_pos := arg_randomize_initial_arm_pos a;
                   randomize_initial_object_pos := arg_randomize_initial_object_pos a;
                   ignore_rotation_ctrl := arg_ignore_rotation_ctrl a;
                   distance_threshold := arg_distance_threshold a;
                   rotation_threshold := arg_rotation_threshold a;
                   reward_type := arg_reward_type a;
                   success_on_grasp_only := arg_success_on_grasp_only a;
                   object_id := arg_object_id a;
                   forearm_bounds := ([0.65; 0.3; 0.42], [1.75; 1.2; 1.0]);
                   table_safe_bounds := ([1.10; 0.43], [1.49; 1.05]);
                   _initial_arm_mocap_pose :=
                     [1.05; 0.75; 0.65] ++ arm_quat;
                   grasp_state := gs;
                   grasp_state_reset_p := arg_grasp_state_reset_p a |}
        end
  end.

(** *** Accessors *)

Definition _get_body_pose (self : MovingHandEnv) (body_name : string) : list R :=
  get_body_xpos body_name (sim self) ++ get_body_xquat body_name (sim self).

Definition _get_site_pose (self : MovingHandEnv) (site_name : string) (no_rot : bool)
  : list R :=
  let quat := if no_rot then [0; 0; 0; 0] else get_site_xquat site_name (sim self) in
  get_site_xpos site_name (sim self) ++ quat.

Definition _get_palm_pose (self : MovingHandEnv) (no_rot : bool) : list R :=
  _get_site_pose self "robot0:palm_center" no_rot.

Definition _get_object_pose (self : MovingHandEnv) : list R :=
  _get_body_pose self "object".

Definition _get_achieved_goal (self : MovingHandEnv) : option (list R) :=
  let c := config self in
  let palm_pose := _get_palm_pose self (ignore_target_rotation c) in
  let pose := if has_object c then _get_object_pose self else palm_pose in
  let pose :=
    if ignore_target_rotation c
    then firstn 3 pose ++ map (fun _ => 0) (skipn 3 pose) else pose in
  if success_on_grasp_only c then
    d <- vsub (firstn 3 palm_pose) (firstn 3 pose) ;;
    Some (pose ++ [norm d])
  else Some pose.

Definition _set_arm_pose (self : MovingHandEnv) (pose : list R) : option MovingHandEnv :=
  if negb (Nat.eqb (length pose) 7 || Nat.eqb (length pose) 3) then None else
  let s := reset_mocap2body_xpos (sim self) in
  let (lo, hi) := forearm_bounds (config self) in
  let s := set_mocap_pos (clip_vec (firstn 3 pose) lo hi) s in
  let s := if Nat.eqb (length pose) 7 then set_mocap_quat (skipn 3 pose) s else s in
  Some (with_sim self s).

(** *** GoalEnv methods *)

Definition _is_success (self : MovingHandEnv) (achieved_goal desired_goal : list R)
  : option R :=
  let c := config self in
  d <- _goal_distance (firstn 7 achieved_goal) (firstn 7 desired_goal)
         (ignore_target_rotation c) ;;
  let (d_pos, d_rot) := (d : R * R) in
  let achieved_pos := astype_float (Rltb d_pos (distance_threshold c)) in
  let achieved_rot := astype_float (Rltb d_rot (rotation_threshold c)) in
  let achieved_all := achieved_pos * achieved_rot in
  if success_on_grasp_only c then
    if negb (Nat.eqb (length achieved_goal) 8) then None else
    let d_palm := nth 7 achieved_goal 0 in
    let achieved_grasp := astype_float (Rltb d_palm 0.08) in
    Some (achieved_all * achieved_grasp)
  else Some achieved_all.

(** [info] is [None] or a dictionary; [(info or dict()).get('weights')]. *)
Definition compute_reward (self : MovingHandEnv) (achieved_goal goal : list R)
  (info : option dict) : option R :=
  let c := config self in
  if String.eqb (reward_type c) "sparse" then
    success <- _is_success self achieved_goal goal ;;
    let weights :=
      dict_get "weights" (match info with Some d => d | None => [] end) in
    let success :=
      match weights with
      | Some w => success * w
      | None => success
      end in
    Some (success - 1)
  else
    d <- _goal_distance achieved_goal goal (ignore_target_rotation c) ;;
    let (d_pos, d_rot) := (d : R * R) in
    Some (- (10 * d_pos + d_rot)).

(** *** RobotEnv methods *)

Definition _set_action (self : MovingHandEnv) (action : list R) : option MovingHandEnv :=
  if negb (Nat.eqb (length action) (n_actions self)) then None else
  let hand_ctrl := firstn 20 action in
  let forearm_ctrl := map (fun x => x * 0.1) (skipn 20 action) in
  let self := with_sim self (hand_set_action (relative_control self) hand_ctrl (sim self)) in
  if negb (Nat.eqb (nmocap (sim self)) 1) then None else
  let pos_delta := firstn 3 forearm_ctrl in
  let quat_delta := skipn 3 forearm_ctrl in
  let quat_delta :=
    if ignore_rotation_ctrl (config self) then map (fun x => x * 0) quat_delta
    else quat_delta in
  new_pos <- vadd (mocap_pos (sim self)) pos_delta ;;
  new_quat <- vadd (mocap_quat (sim self)) quat_delta ;;
  _set_arm_pose self (new_pos ++ new_quat).

(** [for _ in range(n): self.sim.step()] *)
Fixpoint sim_steps (n : nat) (s : Sim) : Sim :=
  match n with
  | O => s
  | S n' => sim_steps n' (sim_step s)
  end.

(** One pass through the body of the [while True] loop of [_reset_sim], up to
    and including [self.sim.forward()]. *)
Definition reset_attempt (self : MovingHandEnv) (reset_to_grasp_state : bool)
  : option MovingHandEnv :=
  let c := config self in
  self <-
    (if reset_to_grasp_state then
       if negb (has_object c) then None else
       match grasp_state c with
       | GraspState st =>
           let self := with_sim self (sim_set_state st (sim self)) in
           let rel_ctrl := relative_control self in
           let self := with_relative_control self true in
           self <- _set_action self (repeat 0 (n_actions self)) ;;
           Some (with_relative_control self rel_ctrl)
       | _ => None
       end
     else Some (with_sim self (sim_set_state (initial_state self) (sim self)))) ;;
  (* Reset initial position of arm. *)
  let new_arm_pose := _initial_arm_mocap_pose c in
  let '(new_arm_pose, self) :=
    if randomize_initial_arm_pos c then
      let (noise, g) := uniform_size (-0.2) 0.2 2 (np_random self) in
      match vadd (firstn 2 new_arm_pose) noise with
      | Some xy => (Some (xy ++ skipn 2 new_arm_pose), with_np_random self g)
      | None => (None, with_np_random self g)
      end
    else (Some new_arm_pose, self) in
  new_arm_pose <- new_arm_pose ;;
  self <- _set_arm_pose self new_arm_pose ;;
  let self := with_sim self (sim_steps 10 (sim self)) in
  (* Randomize initial position of object. *)
  self <-
    (if has_object c && negb reset_to_grasp_state then
       let object_qpos := get_joint_qpos "object:joint" (sim self) in
       let '(object_xpos, self) :=
         if randomize_initial_object_pos c then
           let (lo, hi) := table_safe_bounds c in
           let (xy, g) := uniform_vec lo hi (np_random self) in
           (Some xy, with_np_random self g)
         else
           let palm := firstn 2 (_get_palm_pose self true) in
           let (noise, g) := uniform_size (-0.005) 0.005 2 (np_random self) in
           (vadd palm noise, with_np_random self g) in
       object_xpos <- object_xpos ;;
       if negb (Nat.eqb (length object_xpos) (length (firstn 2 object_qpos)))
       then None else
       let object_qpos := object_xpos ++ skipn 2 object_qpos in
       Some (with_sim self (set_joint_qpos "object:joint" object_qpos (sim self)))
     else Some self) ;;
  Some (with_sim self (sim_forward (sim self))).

(** The two conjuncts of the validation after an attempt without a grasp
    state. *)
Definition object_still (self : MovingHandEnv) : bool :=
  Rltb (norm (get_joint_qvel "object:joint" (sim self))) 0.8.

Definition object_on_table (self : MovingHandEnv) : bool :=
  let (lo, hi) := table_safe_bounds (config self) in
  _check_range (firstn 2 (firstn 3 (_get_object_pose self))) lo hi true.

Definition object_on_palm (self : MovingHandEnv) : option bool :=
  d <- vsub (firstn 3 (_get_object_pose self)) (firstn 3 (_get_palm_pose self true)) ;;
  Some (Rltb (norm d) 0.08).

(** The [while True] loop of [_reset_sim]; [fuel] bounds the number of
    passes the model follows. *)
Fixpoint reset_loop (fuel : nat) (reset_to_grasp_state : bool) (self : MovingHandEnv)
  : outcome MovingHandEnv :=
  match fuel with
  | O => Running
  | S fuel' =>
      match reset_attempt self reset_to_grasp_state with
      | None => Raised
      | Some self =>
          if negb (has_object (config self)) then Returned self
          else if reset_to_grasp_state then
            match object_on_palm self with
            | None => Raised
            | Some on_palm =>
                if object_still self && on_palm then Returned self
                else reset_loop fuel' reset_to_grasp_state self
            end
          else
            if object_still self && object_on_table self then Returned self
            else reset_loop fuel' reset_to_grasp_state self
      end
  end.

(** The draw that decides whether the grasp state is restored. *)
Definition reset_to_grasp_draw (self : MovingHandEnv) : bool * MovingHandEnv :=
  let (u, g) := uniform 0 1 (np_random self) in
  (Rltb u (grasp_state_reset_p (config self)), with_np_random self g).

Definition _reset_sim (fuel : nat) (self : MovingHandEnv) : outcome MovingHandEnv :=
  let (reset_to_grasp_state, self) := reset_to_grasp_draw self in
  reset_loop fuel reset_to_grasp_state self.

(** [_sample_goal] returns the goal and leaves the generator advanced. *)
Definition _sample_goal (self : MovingHandEnv) : list R * MovingHandEnv :=
  let c := config self in
  let (lo, hi) := table_safe_bounds c in
  let (xy, g) := uniform_vec lo hi (np_random self) in
  let z := if has_object c then height_offset self else 0 in
  let (u, g) := uniform 0 1 g in
  let '(z, g) :=
    if Rltb u (target_in_the_air_p c) then
      let (dz, g) := uniform 0 0.45 g in (z + dz, g)
    else (z, g) in
  let goal := (xy ++ [z]) ++ [0; 0; 0; 0] in
  let goal := if success_on_grasp_only c then goal ++ [0] else goal in
  (goal, with_np_random self g).

(** *** What happens between two calls of [compute_reward]

    The methods of this file that write the environment: an action is
    applied, the arm is moved, the simulator advances, the simulation is
    reset, a goal is sampled and stored. *)
Inductive call (self self' : MovingHandEnv) : Prop :=
| call_set_action (action : list R) :
    _set_action self action = Some self' -> call self self'
| call_set_arm_pose (pose : list R) :
    _set_arm_pose self pose = Some self' -> call self self'
| call_sim_step :
    self' = with_sim self (sim_step (sim self)) -> call self self'
| call_reset_sim (fuel : nat) :
    _reset_sim fuel self = Returned self' -> call self self'
| call_sample_goal :
    self' = with_goal (snd (_sample_goal self)) (fst (_sample_goal self)) ->
    call self self'.

(** Any number of such calls, one after the other. *)
Inductive calls : MovingHandEnv -> MovingHandEnv -> Prop :=
| calls_nil (self : MovingHandEnv) : calls self self
| calls_cons (self mid self' : MovingHandEnv) :
    call self mid -> calls mid self' -> calls self self'.

(** *** The shape of goals and the conjuncts of success *)

(** The length of the goals of an environment: [_get_achieved_goal] and
    [_sample_goal] append the grasp distance exactly under
    [success_on_grasp_only]. *)
Definition goal_dim (self : MovingHandEnv) : nat :=
  if success_on_grasp_only (config self) then 8 else 7.

Inductive conjunct : Type := PosClose | RotClose | GraspClose.

(** The grasp conjunct is only there when the goals carry the grasp
    distance. *)
Definition conjunct_present (self : MovingHandEnv) (k : conjunct) : Prop :=
  match k with
  | GraspClose => success_on_grasp_only (config self) = true
  | _ => True
  end.

Definition conjunct_holds (self : MovingHandEnv) (achieved_goal desired_goal : list R)
  (k : conjunct) : Prop :=
  match k with
  | PosClose =>
      exists d_pos d_rot,
        _goal_distance (firstn 7 achieved_goal) (firstn 7 desired_goal)
          (ignore_target_rotation (config self)) = Some (d_pos, d_rot)
        /\ d_pos < distance_threshold (config self)
  | RotClose =>
      exists d_pos d_rot,
        _goal_distance (firstn 7 achieved_goal) (firstn 7 desired_goal)
          (ignore_target_rotation (config self)) = Some (d_pos, d_rot)
        /\ d_rot < rotation_threshold (config self)
  | GraspClose => nth 7 achieved_goal 0 < 0.08
  end.

(** Dropping the conjunct [k] strictly weakens the success predicate: some
    pair of goals satisfies every other conjunct and not [k]. *)
Definition dropping_weakens (self : MovingHandEnv) (k : conjunct) : Prop :=
  exists achieved_goal desired_goal,
    length achieved_goal = goal_dim self
    /\ length desired_goal = goal_dim self
    /\ (forall k', conjunct_present self k' -> k' <> k ->
                   conjunct_holds self achieved_goal desired_goal k')
    /\ ~ conjunct_holds self achieved_goal desired_goal k.

(** A goal of the environment's shape: the grasp distance is appended to the
    pose when the goals carry it. *)
Definition goal_of (self : MovingHandEnv) (pose : list R) (d_palm : R) : list R :=
  if success_on_grasp_only (config self) then pose ++ [d_palm] else pose.

(** The weight [compute_reward] applies to the success score: the entry
    ['weights'] of [info], and 1 when there is none. *)
Definition weight_of (info : option dict) : R :=
  match dict_get "weights" (match info with Some d => d | None => [] end) with
  | Some w => w
  | None => 1
  end.

(** The environment after [k] passes through the loop body of [_reset_sim]
    without a grasp state, whatever the validation says. *)
Fixpoint reset_passes (k : nat) (self : MovingHandEnv) : option MovingHandEnv :=
  match k with
  | O => Some self
  | S k' =>
      match reset_attempt self false with
      | Some self' => reset_passes k' self'
      | None => None
      end
  end.

(** The validation of a pass without a grasp state. *)
Definition reset_valid (self : MovingHandEnv) : bool :=
  object_still self && object_on_table self.

End Env.
End Move.

(** ** [gym.envs.yumi.yumi_env] *)

Module Yumi.

Record YumiEnv : Type := {
  arm : string;
  block_gripper : bool;
  reward_type : string;
  distance_threshold : R;
  has_object : bool
}.

Definition has_right_arm (self : YumiEnv) : bool :=
  String.eqb (arm self) "right" || String.eqb (arm self) "both".

Definition has_left_arm (self : YumiEnv) : bool :=
  String.eqb (arm self) "left" || String.eqb (arm self) "both".

Definition has_two_arms (self : YumiEnv) : bool :=
  String.eqb (arm self) "both".

Definition _is_success (self : YumiEnv) (achieved_goal desired_goal : list R)
  : option R :=
  delta <- vsub achieved_goal desired_goal ;;
  Some (astype_float (Rltb (norm delta) (distance_threshold self))).

Definition compute_reward (self : YumiEnv) (achieved_goal desired_goal : list R)
  (info : option dict) : option R :=
  if negb (Nat.eqb (length achieved_goal) (length desired_goal)) then None else
  if String.eqb (reward_type self) "sparse" then
    if has_object self then None
    else
      s_l <- _is_success self (firstn 3 achieved_goal) (firstn 3 desired_goal) ;;
      let success_l := astype_float (has_left_arm self) * s_l in
      s_r <- _is_success self (skipn 3 achieved_goal) (skipn 3 desired_goal) ;;
      let success_r := astype_float (has_right_arm self) * s_r in
      let success := success_l + success_r in
      if has_two_arms self then Some (success - 2) else Some (success - 1)
  else
    delta <- vsub achieved_goal desired_goal ;;
    Some (- norm delta).

End Yumi.

(** ** numpy functions of [YumiConstrainedEnv.step] *)

(** [np.interp(x, [x0, x1], [f0, f1])] for [x0 < x1]: linear between the two
    points, constant outside. *)
Definition interp (x x0 x1 f0 f1 : R) : R :=
  if Rle_dec x x0 then f0
  else if Rle_dec x1 x then f1
  else f0 + (x - x0) * (f1 - f0) / (x1 - x0).

(** [np.arctan2(y, x)]; the sign of a zero, which the reals do not have,
    only matters at [y = 0]. *)
Definition arctan2 (y x : R) : R :=
  if Rlt_dec 0 x then atan (y / x)
  else if Rlt_dec x 0 then
    if Rle_dec 0 y then atan (y / x) + PI else atan (y / x) - PI
  else if Rlt_dec 0 y then PI / 2
  else if Rlt_dec y 0 then - (PI / 2)
  else 0.

(** [np.allclose(a, b)] on scalars, with the default tolerances. *)
Definition allclose (a b : R) : bool :=
  Rleb (Rabs (a - b)) (1 / 100000000 + 1 / 100000 * Rabs b).

(** [np.clip(action, low, high)] for the bounds of a [spaces.Box(-1., 1.,
    shape=(n,))]: an action of [n] components is clipped componentwise, an
    action of one component is broadcast to [n], any other shape is a
    broadcasting error. *)
Definition clip_box (n : nat) (action : list R) : option (list R) :=
  if Nat.eqb (length action) n then
    Some (clip_vec action (repeat (-1) n) (repeat 1 n))
  else
    match action with
    | [x] => Some (clip_vec (repeat x n) (repeat (-1) n) (repeat 1 n))
    | _ => None
    end.

(** A component within the bounds of the action space. *)
Definition in_unit_box (x : R) : Prop := -1 <= x <= 1.

(** ** [gym.envs.yumi.yumi_constrained] *)

Module YumiConstrained.

Definition _goal_distance (goal_a goal_b : list R) : option R :=
  if negb (Nat.eqb (length goal_a) (length goal_b)) then None else
  if negb (Nat.eqb (length goal_a) 3) then None else
  delta_pos <- vsub (firstn 3 goal_a) (firstn 3 goal_b) ;;
  Some (norm delta_pos).

(** The keyword arguments [step] passes to [_move_arms] (with
    [max_steps=5]). *)
Record MoveArmsArgs : Type := {
  left_target : list R;
  left_yaw : R;
  right_target : list R;
  right_yaw : R;
  left_grp_config : R;
  right_grp_config : R
}.

(** The tuple [_unpack_action] returns. *)
Record Unpacked : Type := {
  dist_between_grippers : R;
  grasp_center_pos_delta : list R;
  grasp_center_quat_delta : list R;
  l_fingers_ctrl : R;
  r_fingers_ctrl : R
}.

Section Env.
Context {Sim SimState Rng : Type}.
Context `{Simulator Sim SimState} `{RandomState Rng}.

(** The effect of [_move_arms] on the simulator, the only object its
    control loop writes, with the error it returns; the inverse kinematics
    and the actuators it drives belong to the simulated robot. *)
Variable move_arms : MoveArmsArgs -> Sim -> Sim * R.

(** [sim_env._set_sim_state(qpos, qvel)] with the fixed joint positions of
    [_reset], and [sim_env._sample_goal()], of the wrapped [YumiEnv]. *)
Variable reset_sim_state : Sim -> Sim.
Variable sample_goal : Sim -> Rng -> list R * Rng.

Record YumiConstrainedEnv : Type := {
  (* configuration, set by the constructor *)
  reward_type : string;
  distance_threshold : R;
  rotation_ctrl_enabled : bool;
  fingers_ctrl_enabled : bool;
  randomize_initial_object_pos : bool;
  _obj_init_bounds : list R * list R;
  (* episode state, held by [self.sim_env] *)
  sim : Sim;
  np_random : Rng;
  sim_env_goal : list R
}.

(** [self.action_space.shape[0]], as the constructor computes it. *)
Definition n_actions (self : YumiConstrainedEnv) : nat :=
  4 + (if rotation_ctrl_enabled self then 4 else 0)
    + (if fingers_ctrl_enabled self then 2 else 0).

Definition with_sim (self : YumiConstrainedEnv) (s : Sim) : YumiConstrainedEnv :=
  {| reward_type := reward_type self;
     distance_threshold := distance_threshold self;
     rotation_ctrl_enabled := rotation_ctrl_enabled self;
     fingers_ctrl_enabled := fingers_ctrl_enabled self;
     randomize_initial_object_pos := randomize_initial_object_pos self;
     _obj_init_bounds := _obj_init_bounds self;
     sim := s; np_random := np_random self; sim_env_goal := sim_env_goal self |}.

Definition with_np_random (self : YumiConstrainedEnv) (g : Rng) : YumiConstrainedEnv :=
  {| reward_type := reward_type self;
     distance_threshold := distance_threshold self;
     rotation_ctrl_enabled := rotation_ctrl_enabled self;
     fingers_ctrl_enabled := fingers_ctrl_enabled self;
     randomize_initial_object_pos := randomize_initial_object_pos self;
     _obj_init_bounds := _obj_init_bounds self;
     sim := sim self; np_random := g; sim_env_goal := sim_env_goal self |}.

Definition with_goal (self : YumiConstrainedEnv) (g : list R) : YumiConstrainedEnv :=
  {| reward_type := reward_type self;
     distance_threshold := distance_threshold self;
     rotation_ctrl_enabled := rotation_ctrl_enabled self;
     fingers_ctrl_enabled := fingers_ctrl_enabled self;
     randomize_initial_object_pos := randomize_initial_object_pos self;
     _obj_init_bounds := _obj_init_bounds self;
     sim := sim self; np_random := np_random self; sim_env_goal := g |}.

Definition goal (self : YumiConstrainedEnv) : list R := firstn 3 (sim_env_goal self).

Definition get_object_pos (self : YumiConstrainedEnv) : list R :=
  get_body_xpos "object0" (sim self).

Definition get_gripper_pos (self : YumiConstrainedEnv) (arm : string) : list R :=
  get_site_xpos ("gripper_" ++ arm ++ "_center")%string (sim self).

Definition get_grasp_center_pos (self : YumiConstrainedEnv) : option (list R) :=
  s <- vadd (get_gripper_pos self "l") (get_gripper_pos self "r") ;;
  Some (map (fun x => x / 2) s).

Definition _unpack_action (self : YumiConstrainedEnv) (action : list R)
  : option Unpacked :=
  dist <- nth_error action 0 ;;
  let pos_delta := firstn 3 (skipn 1 action) in
  let offset := 4%nat in
  let '(quat_delta, offset) :=
    if rotation_ctrl_enabled self
    then (firstn 4 (skipn offset action), (offset + 4)%nat)
    else ([1; 0; 0; 0], offset) in
  fingers <-
    (if fingers_ctrl_enabled self then
       match firstn 2 (skipn offset action) with
       | [l; r] => Some (l, r)
       | _ => None
       end
     else Some (-1, -1)) ;;
  Some {| dist_between_grippers := dist;
          grasp_center_pos_delta := pos_delta;
          grasp_center_quat_delta := quat_delta;
          l_fingers_ctrl := fst fingers;
          r_fingers_ctrl := snd fingers |}.

Definition _is_success (self : YumiConstrainedEnv) (achieved_goal desired_goal : list R)
  : option R :=
  d <- _goal_distance achieved_goal desired_goal ;;
  Some (astype_float (Rltb d (distance_threshold self))).

Definition compute_reward (self : YumiConstrainedEnv) (achieved_goal goal : list R)
  (info : option dict) : option R :=
  if String.eqb (reward_type self) "sparse" then
    success <- _is_success self achieved_goal goal ;;
    Some (success - 1)
  else
    d <- _goal_distance achieved_goal goal ;;
    Some (- d).

(** [step], from the decoding of the clipped action to the arguments of the
    call of [_move_arms]. *)
Definition commands_of (self : YumiConstrainedEnv) (action : list R)
  : option MoveArmsArgs :=
  u <- _unpack_action self action ;;
  let dist_between_grippers := interp (dist_between_grippers u) (-1) 1 0.05 0.30 in
  curr_grasp_center_pose <- get_grasp_center_pos self ;;
  target_pos <- vadd (firstn 3 curr_grasp_center_pose)
                  (map (fun x => x * 0.2) (grasp_center_pos_delta u)) ;;
  if negb (Nat.eqb (length target_pos) 3) then None else
  let target_grasp_center_pose := target_pos ++ [1; 0; 0; 0] in
  if rotation_ctrl_enabled self then None else
  t0 <- Transformations.apply_tf
          [0; dist_between_grippers / 2; 0; 1; 0; 0; 0] target_grasp_center_pose ;;
  t1 <- Transformations.apply_tf
          [0; - dist_between_grippers / 2; 0; 1; 0; 0; 0] target_grasp_center_pose ;;
  let grippers_pos_targets := (firstn 3 t0, firstn 3 t1) in
  vec <- vsub (firstn 2 (fst grippers_pos_targets))
              (firstn 2 (snd grippers_pos_targets)) ;;
  let right_yaw := arctan2 (nth 1 vec 0) (nth 0 vec 0) + PI / 2 in
  let left_yaw := arctan2 (- nth 1 vec 0) (- nth 0 vec 0) + PI / 2 in
  let grasp_radius := norm vec / 2 in
  if negb (allclose grasp_radius (dist_between_grippers / 2)) then None else
  Some {| left_target := fst grippers_pos_targets;
          left_yaw := left_yaw;
          right_target := snd grippers_pos_targets;
          right_yaw := right_yaw;
          left_grp_config := l_fingers_ctrl u;
          right_grp_config := r_fingers_ctrl u |}.

(** [step], from the clipping of the action to the arguments of the call of
    [_move_arms]. *)
Definition step_commands (self : YumiConstrainedEnv) (action : list R)
  : option MoveArmsArgs :=
  action <- clip_box (n_actions self) action ;;
  commands_of self action.

(** [step], from the clipping of the action to the tuple that
    [_unpack_action] returns for it. *)
Definition step_unpacked (self : YumiConstrainedEnv) (action : list R)
  : option Unpacked :=
  action <- clip_box (n_actions self) action ;;
  _unpack_action self action.

(** What [step] returns, without the observation vector: the achieved goal,
    the reward, [done] and [info['is_success']]. *)
Record StepResult : Type := {
  achieved_goal : list R;
  reward : R;
  done : bool;
  is_success : R
}.

Definition step (self : YumiConstrainedEnv) (action : list R)
  : option (YumiConstrainedEnv * StepResult) :=
  args <- step_commands self action ;;
  let self := with_sim self (fst (move_arms args (sim self))) in
  let achieved := get_object_pos self in
  succ <- _is_success self achieved (goal self) ;;
  let info := [("is_success"%string, succ)] in
  r <- compute_reward self achieved (goal self) (Some info) ;;
  Some (self, {| achieved_goal := achieved; reward := r; done := false;
                 is_success := succ |}).

Definition _reset (self : YumiConstrainedEnv) : option YumiConstrainedEnv :=
  let self := with_sim self (reset_sim_state (sim self)) in
  if randomize_initial_object_pos self then
    let object_qpos := get_joint_qpos "object0:joint" (sim self) in
    let (lo, hi) := _obj_init_bounds self in
    let (xy, g) := uniform_vec lo hi (np_random self) in
    let self := with_np_random self g in
    if negb (Nat.eqb (length xy) (length (firstn 2 object_qpos))) then None else
    Some (with_sim self
            (set_joint_qpos "object0:joint" (xy ++ skipn 2 object_qpos) (sim self)))
  else Some self.

Definition reset (self : YumiConstrainedEnv) : option YumiConstrainedEnv :=
  self <- _reset self ;;
  let (g, rng) := sample_goal (sim self) (np_random self) in
  let self := with_goal (with_np_random self rng) g in
  Some (with_sim self (sim_step (sim self))).

(** What happens between two calls of [compute_reward]: steps and
    resets. *)
Inductive call (self self' : YumiConstrainedEnv) : Prop :=
| call_step (action : list R) (res : StepResult) :
    step self action = Some (self', res) -> call self self'
| call_reset :
    reset self = Some self' -> call self self'.

Inductive calls : YumiConstrainedEnv -> YumiConstrainedEnv -> Prop :=
| calls_nil (self : YumiConstrainedEnv) : calls self self
| calls_cons (self mid self' : YumiConstrainedEnv) :
    call self mid -> calls mid self' -> calls self self'.


End Env.
End YumiConstrained.

(** ** More of numpy *)

Definition Reqb (x y : R) : bool := if Req_EM_T x y then true else false.

(** Elementwise arithmetic of two one-dimensional arrays under numpy's
    broadcasting: the shapes are equal, or one of the two arrays has a
    single component; anything else raises. *)
Definition broadcast2 (f : R -> R -> R) (a b : list R) : option (list R) :=
  if Nat.eqb (length a) (length b) then map2 f a b
  else
    match a, b with
    | [x], _ => Some (map (f x) b)
    | _, [y] => Some (map (fun x => f x y) a)
    | _, _ => None
    end.

(** [dst[:] = src]: the source is broadcast to the shape of the
    destination. *)
Definition assign_all (dst src : list R) : option (list R) :=
  if Nat.eqb (length src) (length dst) then Some src
  else
    match src with
    | [x] => Some (repeat x (length dst))
    | _ => None
    end.

(** ** [gym.envs.yumi.yumi_env]: the constructor and the actuator commands *)

Module YumiActuators.
Import Yumi.

Definition _gripper_joint_max : R := 0.02.

(** [self._ctrl_high], as the constructor computes it from [block_gripper]
    and [arm]. *)
Definition _ctrl_high (self : YumiEnv) : list R :=
  let ctrl_high := map (fun x => x * 10) [40; 35; 30; 20; 15; 10; 10] in
  let ctrl_high :=
    if negb (block_gripper self) then ctrl_high ++ [_gripper_joint_max]
    else ctrl_high in
  if String.eqb (arm self) "both" then ctrl_high ++ ctrl_high else ctrl_high.

Definition _ctrl_low (self : YumiEnv) : list R := map Ropp (_ctrl_high self).

(** [n_actions=ctrl_high.size], as [__init__] hands it to
    [RobotEnv.__init__]. *)
Definition n_actions (self : YumiEnv) : nat := length (_ctrl_high self).

(** [YumiEnv.__init__] up to the call of [RobotEnv.__init__]; [None] is the
    [ValueError] of its two checks. *)
Definition init (arm' : string) (block_gripper' : bool) (reward_type' : string)
  (distance_threshold' : R) (has_object' : bool) : option YumiEnv :=
  if negb (existsb (String.eqb arm') ["right"; "left"; "both"]%string) then None else
  if negb (existsb (String.eqb reward_type') ["sparse"; "dense"]%string) then None else
  Some {| arm := arm';
          block_gripper := block_gripper';
          reward_type := reward_type';
          distance_threshold := distance_threshold';
          has_object := has_object' |}.

(** Modelled from the spec: [np.clip(a, self.action_space.low,
    self.action_space.high)] for the [action_space] that
    [RobotEnv.__init__] of gym/envs/robotics/robot_env.py sets; that file is
    not among the source files. The spec's action is "a bounded real vector
    in [-1,1]^n": the box of [n_actions] components between -1 and 1. *)
Definition clip_to_action_space (self : YumiEnv) (a : list R) : option (list R) :=
  clip_box (n_actions self) a.

(** [_set_action] returns the controls it hands to [ctrl_set_action]. *)
Definition _set_action (self : YumiEnv) (a : list R) : option (list R) :=
  a <- clip_to_action_space self a ;;
  a <- broadcast2 Rmult a (_ctrl_high self) ;;
  if negb (block_gripper self) then
    let arm1_a := firstn 8 a in
    let arm2_a := skipn 8 a in
    let gripper1_a := skipn 7 arm1_a in
    let gripper2_a := skipn 7 arm2_a in
    Some (arm1_a ++ gripper1_a ++ arm2_a ++ gripper2_a)
  else
    let arm1_a := firstn 7 a in
    let arm2_a := skipn 7 a in
    let g := _gripper_joint_max in
    let a := arm1_a ++ [g; g] in
    if has_two_arms self then Some (a ++ arm2_a ++ [g; g]) else Some a.

End YumiActuators.

(** ** [gym.envs.yumi.yumi_constrained]: the control law *)

Module YumiController.

(** [_controller] with [dt] for [self.sim_env.dt]. It writes [error] into
    [prev_error], the array its caller keeps between iterations, and returns
    the command; here it returns both, the command first. The scalar [0.0]
    of the first branch is the array of one component, which broadcasts as
    the scalar does. *)
Definition _controller (dt : R) (error prev_error : list R) (k : R)
  : option (list R * list R) :=
  d_err <-
    (if forallb (fun x => Reqb x 0) prev_error then Some [0]
     else
       diff <- broadcast2 Rminus error prev_error ;;
       Some (map (fun x => x / dt) diff)) ;;
  prev_error <- assign_all prev_error error ;;
  s <- broadcast2 Rplus (map (fun e => 1.0 * e) error)
                        (map (fun d => 0.05 * d) d_err) ;;
  Some (map (fun x => - x * k) s, prev_error).

End YumiController.

(** ** [gym.envs.robotics.hand.pick_and_place] *)

Module PickAndPlace.
Import Rotations.

(** [quat_from_angle_and_axis] normalises [axis] in place; the pair is the
    quaternion it returns and the array [axis] as it leaves it. A zero axis
    divides by zero, which gives [nan] in floating point and is not
    followed here. *)
Definition quat_from_angle_and_axis (angle : R) (axis : list R)
  : option (list R * list R) :=
  if negb (Nat.eqb (length axis) 3) then None else
  let axis := map (fun x => x / norm axis) axis in
  let quat := cos (angle / 2) :: map (fun x => sin (angle / 2) * x) axis in
  let quat := map (fun x => x / norm quat) quat in
  Some (quat, axis).

Section Env.
Context {Sim SimState Rng : Type}.
Context `{Simulator Sim SimState} `{RandomState Rng}.

(** The attributes [_PickAndPlaceEnv.__init__] sets before it calls
    [HandEnv.__init__]. *)
Record Config : Type := {
  object_range : R;
  target_range : R;
  target_in_the_air : bool;
  has_object : bool;
  ignore_target_rotation : bool;
  randomize_initial_rotation : bool;
  randomize_initial_position : bool;
  distance_threshold : R;
  rotation_threshold : R;
  reward_type : string
}.

Definition init (reward_type' : string)
  (randomize_initial_position' randomize_initial_rotation' : bool)
  (distance_threshold' rotation_threshold' : R) : Config :=
  {| object_range := 0.15;
     target_range := 0.15;
     target_in_the_air := true;
     has_object := true;
     ignore_target_rotation := false;
     randomize_initial_rotation := randomize_initial_rotation';
     randomize_initial_position := randomize_initial_position';
     distance_threshold := distance_threshold';
     rotation_threshold := rotation_threshold';
     reward_type := reward_type' |}.

(** A [_PickAndPlaceEnv] object: its configuration, and the attributes that
    [_env_setup], [reset] and [step] write. *)
Record _PickAndPlaceEnv : Type := {
  config : Config;
  sim : Sim;
  initial_state : SimState;
  initial_arm_xpos : list R;
  height_offset : R;
  np_random : Rng;
  goal : list R
}.

Definition with_sim (self : _PickAndPlaceEnv) (s : Sim) : _PickAndPlaceEnv :=
  {| config := config self; sim := s; initial_state := initial_state self;
     initial_arm_xpos := initial_arm_xpos self; height_offset := height_offset self;
     np_random := np_random self; goal := goal self |}.

Definition with_np_random (self : _PickAndPlaceEnv) (g : Rng) : _PickAndPlaceEnv :=
  {| config := config self; sim := sim self; initial_state := initial_state self;
     initial_arm_xpos := initial_arm_xpos self; height_offset := height_offset self;
     np_random := g; goal := goal self |}.

Definition _get_achieved_goal (self : _PickAndPlaceEnv) : option (list R) :=
  let qpos :=
    if has_object (config self) then get_joint_qpos "object:joint" (sim self)
    else get_joint_qpos "robot0:wall_mount" (sim self) in
  if negb (Nat.eqb (length qpos) 7) then None else Some qpos.

Definition _goal_distance (self : _PickAndPlaceEnv) (goal_a goal_b : list R)
  : option (R * R) :=
  if negb (Nat.eqb (length goal_a) (length goal_b)) then None else
  if negb (Nat.eqb (length goal_a) 7) then None else
  delta_pos <- vsub (firstn 3 goal_a) (firstn 3 goal_b) ;;
  let d_pos := norm delta_pos in
  if negb (ignore_target_rotation (config self)) then
    qc <- quat_conjugate (skipn 3 goal_b) ;;
    quat_diff <- quat_mul (skipn 3 goal_a) qc ;;
    let angle_diff := 2 * acos (clip (nth 0 quat_diff 0) (-1) 1) in
    Some (d_pos, angle_diff)
  else Some (d_pos, 0).

Definition _is_success (self : _PickAndPlaceEnv) (achieved_goal desired_goal : list R)
  : option R :=
  d <- _goal_distance self achieved_goal desired_goal ;;
  let (d_pos, d_rot) := (d : R * R) in
  let achieved_pos := astype_float (Rltb d_pos (distance_threshold (config self))) in
  let achieved_rot := astype_float (Rltb d_rot (rotation_threshold (config self))) in
  Some (achieved_pos * achieved_rot).

Definition compute_reward (self : _PickAndPlaceEnv) (achieved_goal goal : list R)
  (info : option dict) : option R :=
  if String.eqb (reward_type (config self)) "sparse" then
    success <- _is_success self achieved_goal goal ;;
    Some (success - 1)
  else
    d <- _goal_distance self achieved_goal goal ;;
    let (d_pos, d_rot) := (d : R * R) in
    Some (- (10 * d_pos + d_rot)).

(** The randomisation of the object is commented out in the source: the
    joint position read is written back as it is. *)
Definition _reset_sim (self : _PickAndPlaceEnv) : _PickAndPlaceEnv :=
  let self := with_sim self (sim_set_state (initial_state self) (sim self)) in
  let self :=
    if has_object (config self) then
      let object_qpos := get_joint_qpos "object:joint" (sim self) in
      with_sim self (set_joint_qpos "object:joint" object_qpos (sim self))
    else self in
  with_sim self (sim_forward (sim self)).

(** [_sample_goal] returns the goal and leaves the generator advanced; the
    draw that decides on a goal in the air is only made when
    [target_in_the_air] is set. *)
Definition _sample_goal (self : _PickAndPlaceEnv)
  : option (list R * _PickAndPlaceEnv) :=
  let c := config self in
  let (noise, g) :=
    uniform_size (- target_range c) (target_range c) 3 (np_random self) in
  goal <- broadcast2 Rplus (firstn 3 (initial_arm_xpos self)) noise ;;
  match goal with
  | [x; y; z] =>
      let '(z, g) :=
        if has_object c then
          let z := height_offset self in
          if target_in_the_air c then
            let (u, g) := uniform 0 1 g in
            if Rltb u 0.5 then
              let (dz, g) := uniform 0 0.45 g in (z + dz, g)
            else (z, g)
          else (z, g)
        else (z, g) in
      Some ([x; y; z] ++ [0; 0; 0; 0], with_np_random self g)
  | _ => None
  end.

End Env.
End PickAndPlace.

(** ** What a reset leaves alone *)

(** The attributes of a [MovingHandEnv] other than the simulator and the
    random generator. *)
Definition episode_frame {Sim SimState Rng : Type}
  (self : @Move.MovingHandEnv Sim SimState Rng) :=
  (Move.config self, Move.initial_state self, Move.relative_control self,
   Move.n_actions self, Move.height_offset self, Move.goal self).

(** ** Inputs of the examples *)

Module Examples.
Import Rotations.

(** A pose and a reference whose quaternions have norm one. *)
Definition roundtrip_pose : list R := [0; 0; 0; 0; 0; 1; 0].
Definition roundtrip_reference : list R := [0; 0; 0; 3 / 5; 4 / 5; 0; 0].

(** The pose an argument of [apply_tf] stands for: a position alone is given
    the identity quaternion. *)
Definition with_identity_quat (pose : list R) : list R :=
  if Nat.eqb (length pose) 3 then pose ++ quat_identity else pose.

(** A small simulator to run the environments on: one free object on a
    table that slopes below [y = 0.5], where an object set down starts to
    roll; the arm follows its mocap target at once. *)
Record ToySim : Type := {
  toy_object_qpos : list R;
  toy_mocap_pos : list R;
  toy_mocap_quat : list R
}.

Definition toy_object_qvel (s : ToySim) : list R :=
  if Rlt_dec (nth 1 (toy_object_qpos s) 0) 0.5
  then [1; 0; 0; 0; 0; 0] else [0; 0; 0; 0; 0; 0].

#[export] Instance toy_simulator : Simulator ToySim ToySim := {
  sim_set_state st _ := st;
  sim_step s := s;
  sim_forward s := s;
  nmocap _ := 1%nat;
  mocap_pos := toy_mocap_pos;
  mocap_quat := toy_mocap_quat;
  set_mocap_pos v s :=
    {| toy_object_qpos := toy_object_qpos s; toy_mocap_pos := v;
       toy_mocap_quat := toy_mocap_quat s |};
  set_mocap_quat v s :=
    {| toy_object_qpos := toy_object_qpos s; toy_mocap_pos := toy_mocap_pos s;
       toy_mocap_quat := v |};
  reset_mocap2body_xpos s := s;
  hand_set_action _ _ s := s;
  get_joint_qpos _ s := toy_object_qpos s;
  set_joint_qpos _ v s :=
    {| toy_object_qpos := v; toy_mocap_pos := toy_mocap_pos s;
       toy_mocap_quat := toy_mocap_quat s |};
  get_joint_qvel _ s := toy_object_qvel s;
  get_body_xpos _ s := firstn 3 (toy_object_qpos s);
  get_body_xquat _ s := skipn 3 (toy_object_qpos s);
  get_site_xpos _ s := toy_mocap_pos s;
  get_site_xquat _ s := toy_mocap_quat s
}.

(** A generator that reads its draws, as fractions of the interval, from a
    list. *)
#[export] Instance list_random : RandomState (list R) := {
  uniform lo hi g :=
    match g with
    | [] => (lo, [])
    | f :: g' => (lo + (hi - lo) * f, g')
    end
}.

Definition toy_initial : ToySim :=
  {| toy_object_qpos := [1.25; 0.53; 0.4; 1; 0; 0; 0];
     toy_mocap_pos := [1.05; 0.75; 0.65];
     toy_mocap_quat := [1; 0; 0; 0] |}.

(** The configuration of a pick-and-place environment, as the constructor
    builds it from its defaults. *)
Definition pick_and_place_config (reward : string) (ignore_rot grasp_only : bool)
  : @Move.Config ToySim :=
  {| Move.target_in_the_air_p := 0.5;
     Move.has_object := true;
     Move.ignore_target_rotation := ignore_rot;
     Move.randomize_initial_arm_pos := false;
     Move.randomize_initial_object_pos := true;
     Move.ignore_rotation_ctrl := false;
     Move.distance_threshold := 0.05;
     Move.rotation_threshold := 0.1;
     Move.reward_type := reward;
     Move.success_on_grasp_only := grasp_only;
     Move.object_id := "original";
     Move.forearm_bounds := ([0.65; 0.3; 0.42], [1.75; 1.2; 1.0]);
     Move.table_safe_bounds := ([1.10; 0.43], [1.49; 1.05]);
     Move._initial_arm_mocap_pose := [1.05; 0.75; 0.65; 1; 0; 0; 0];
     Move.grasp_state := Move.GraspNone;
     Move.grasp_state_reset_p := 0 |}.

Definition toy_env_at (c : @Move.Config ToySim) (s : ToySim) (draws : list R)
  : @Move.MovingHandEnv ToySim ToySim (list R) :=
  {| Move.config := c;
     Move.sim := s;
     Move.initial_state := toy_initial;
     Move.np_random := draws;
     Move.relative_control := false;
     Move.n_actions := 27;
     Move.height_offset := 0.4;
     Move.goal := [1.3; 0.7; 0.4; 0; 0; 0; 0] |}.

Definition toy_env (c : @Move.Config ToySim) (draws : list R)
  : @Move.MovingHandEnv ToySim ToySim (list R) :=
  toy_env_at c toy_initial draws.

(** The toy simulator after a pass of the reset loop that draws the
    fractions [fx] and [fy] for the position of the object. *)
Definition toy_placed (fx fy : R) : ToySim :=
  {| toy_object_qpos :=
       [1.10 + (1.49 - 1.10) * fx; 0.43 + (1.05 - 0.43) * fy; 0.4; 1; 0; 0; 0];
     toy_mocap_pos := clip_vec [1.05; 0.75; 0.65] [0.65; 0.3; 0.42] [1.75; 1.2; 1.0];
     toy_mocap_quat := [1; 0; 0; 0] |}.

(** The draws of a reset whose first sample rolls away and whose second
    sample rests. *)
Definition toy_draws : list R := [0; 1 / 2; 0; 1 / 2; 1 / 2].

(** The arguments of the constructor with the defaults of
    [HandPickAndPlaceEnv]. *)
Definition default_args : @Move.InitArgs ToySim :=
  {| Move.arg_reward_type := "sparse";
     Move.arg_has_object := true;
     Move.arg_randomize_initial_arm_pos := false;
     Move.arg_randomize_initial_object_pos := true;
     Move.arg_ignore_rotation_ctrl := false;
     Move.arg_distance_threshold := 0.05;
     Move.arg_rotation_threshold := 0.1;
     Move.arg_ignore_target_rotation := false;
     Move.arg_success_on_grasp_only := false;
     Move.arg_grasp_state := Move.GraspNone;
     Move.arg_grasp_state_reset_p := 0;
     Move.arg_target_in_the_air_p := 0.5;
     Move.arg_object_id := "original";
     Move.grasp_file := None |}.

(** A dual-arm environment on the toy simulator; [_move_arms] leaves the
    simulator as it is. *)
Definition toy_yumi (reward : string) (fingers : bool)
  : @YumiConstrained.YumiConstrainedEnv ToySim (list R) :=
  {| YumiConstrained.reward_type := reward;
     YumiConstrained.distance_threshold := 0.05;
     YumiConstrained.rotation_ctrl_enabled := false;
     YumiConstrained.fingers_ctrl_enabled := fingers;
     YumiConstrained.randomize_initial_object_pos := true;
     YumiConstrained._obj_init_bounds := ([-0.1; -0.1], [0.1; 0.1]);
     YumiConstrained.sim := toy_initial;
     YumiConstrained.np_random := [];
     YumiConstrained.sim_env_goal := [0; 0; 0.2] |}.

Definition toy_move_arms (_ : YumiConstrained.MoveArmsArgs) (s : ToySim)
  : ToySim * R := (s, 0).

(** The wrapped [YumiEnv] of the toy dual-arm environment restores the
    initial state of the simulator and samples a fixed goal. *)
Definition toy_reset_sim_state (_ : ToySim) : ToySim := toy_initial.



(** A [YumiEnv] that reaches for goals with the arms named by [arm]. *)
Definition reach_env (arm : string) : Yumi.YumiEnv :=
  {| Yumi.arm := arm;
     Yumi.block_gripper := false;
     Yumi.reward_type := "sparse";
     Yumi.distance_threshold := 0.05;
     Yumi.has_object := false |}.

(** A generator that draws the middle of the interval it is asked for. *)
#[export] Instance midpoint_random : RandomState unit := {
  uniform lo hi g := ((lo + hi) / 2, g)
}.

(** The toy environment on the midpoint generator. *)
Definition midpoint_env (c : @Move.Config ToySim)
  : @Move.MovingHandEnv ToySim ToySim unit :=
  {| Move.config := c;
     Move.sim := toy_initial;
     Move.initial_state := toy_initial;
     Move.np_random := tt;
     Move.relative_control := false;
     Move.n_actions := 27;
     Move.height_offset := 0.4;
     Move.goal := [1.3; 0.7; 0.4; 0; 0; 0; 0] |}.

(** A configuration whose actions do not command the orientation of the
    arm; the constructor accepts [ignore_rotation_ctrl] only together with
    [ignore_target_rotation]. *)
Definition position_only_config : @Move.Config ToySim :=
  {| Move.target_in_the_air_p := 0.5;
     Move.has_object := true;
     Move.ignore_target_rotation := true;
     Move.randomize_initial_arm_pos := false;
     Move.randomize_initial_object_pos := true;
     Move.ignore_rotation_ctrl := true;
     Move.distance_threshold := 0.05;
     Move.rotation_threshold := 0.1;
     Move.reward_type := "sparse";
     Move.success_on_grasp_only := false;
     Move.object_id := "original";
     Move.forearm_bounds := ([0.65; 0.3; 0.42], [1.75; 1.2; 1.0]);
     Move.table_safe_bounds := ([1.10; 0.43], [1.49; 1.05]);
     Move._initial_arm_mocap_pose := [1.05; 0.75; 0.65; 1; 0; 0; 0];
     Move.grasp_state := Move.GraspNone;
     Move.grasp_state_reset_p := 0 |}.

(** An action that asks for a move along every axis and for a change of
    every component of the orientation. *)
Definition push_action : list R := repeat 1 27.

(** The dual-arm environment with the rotation control enabled. *)
Definition toy_yumi_rotating : @YumiConstrained.YumiConstrainedEnv ToySim (list R) :=
  {| YumiConstrained.reward_type := "dense";
     YumiConstrained.distance_threshold := 0.05;
     YumiConstrained.rotation_ctrl_enabled := true;
     YumiConstrained.fingers_ctrl_enabled := false;
     YumiConstrained.randomize_initial_object_pos := true;
     YumiConstrained._obj_init_bounds := ([-0.1; -0.1], [0.1; 0.1]);
     YumiConstrained.sim := toy_initial;
     YumiConstrained.np_random := [];
     YumiConstrained.sim_env_goal := [0; 0; 0.2] |}.

(** The dual-arm environment on the midpoint generator. *)
Definition midpoint_yumi : @YumiConstrained.YumiConstrainedEnv ToySim unit :=
  {| YumiConstrained.reward_type := "dense";
     YumiConstrained.distance_threshold := 0.05;
     YumiConstrained.rotation_ctrl_enabled := false;
     YumiConstrained.fingers_ctrl_enabled := false;
     YumiConstrained.randomize_initial_object_pos := true;
     YumiConstrained._obj_init_bounds := ([-0.1; -0.1], [0.1; 0.1]);
     YumiConstrained.sim := toy_initial;
     YumiConstrained.np_random := tt;
     YumiConstrained.sim_env_goal := [0; 0; 0.2] |}.

(** A [HandPickAndPlaceEnv] of [pick_and_place.py] on the toy simulator,
    with the thresholds its constructor defaults to. *)
Definition toy_pick_and_place
  : @PickAndPlace._PickAndPlaceEnv ToySim ToySim (list R) :=
  {| PickAndPlace.config := PickAndPlace.init "sparse" true true 0.01 0.1;
     PickAndPlace.sim := toy_initial;
     PickAndPlace.initial_state := toy_initial;
     PickAndPlace.initial_arm_xpos := [1.05; 0.75; 0.65];
     PickAndPlace.height_offset := 0.4;
     PickAndPlace.np_random := [];
     PickAndPlace.goal := [1.3; 0.7; 0.4; 0; 0; 0; 0] |}.

End Examples.

(** * Properties *)

(** ** Arithmetic of the helpers *)

Ltac vec_eq :=
  repeat match goal with
         | |- _ :: _ = _ :: _ => apply (f_equal2 (@cons R)); [ try (field || lra) | ]
         end; try reflexivity.

Lemma length_3 (l : list R) :
  length l = 3%nat -> exists a b c, l = [a; b; c].
Proof.
  destruct l as [|a [|b [|c [|d l]]]]; simpl; intros Hl; try discriminate.
  now exists a, b, c.
Qed.

Lemma length_4 (l : list R) :
  length l = 4%nat -> exists a b c d, l = [a; b; c; d].
Proof.
  destruct l as [|a [|b [|c [|d [|e l]]]]]; simpl; intros Hl; try discriminate.
  now exists a, b, c, d.
Qed.

Lemma length_7 (l : list R) :
  length l = 7%nat -> exists a b c d e f g, l = [a; b; c; d; e; f; g].
Proof.
  destruct l as [|a [|b [|c [|d [|e [|f [|g [|h l]]]]]]]]; simpl; intros Hl;
    try discriminate.
  now exists a, b, c, d, e, f, g.
Qed.

Lemma length_8 (l : list R) :
  length l = 8%nat -> exists a b c d e f g h, l = [a; b; c; d; e; f; g; h].
Proof.
  destruct l as [|a [|b [|c [|d [|e [|f [|g [|h [|i l]]]]]]]]]; simpl; intros Hl;
    try discriminate.
  now exists a, b, c, d, e, f, g, h.
Qed.

(** Injectivity, by projection. *)
Lemma cons4_third (a b c d a' b' c' d' : R) :
  [a; b; c; d] = [a'; b'; c'; d'] -> c = c'.
Proof. intros Heq. exact (f_equal (fun l => nth 2 l 0) Heq). Qed.

Lemma Some_pair_inj (a b c d : R) : Some (a, b) = Some (c, d) -> a = c /\ b = d.
Proof.
  intros Heq. split.
  - exact (f_equal (fun o => match o with Some p => fst p | None => a end) Heq).
  - exact (f_equal (fun o => match o with Some p => snd p | None => b end) Heq).
Qed.

Lemma Some_inj {A : Type} (a b : A) : Some a = Some b -> a = b.
Proof.
  intros Heq.
  exact (f_equal (fun o => match o with Some x => x | None => a end) Heq).
Qed.

Lemma Rltb_true (x y : R) : Rltb x y = true <-> x < y.
Proof. unfold Rltb. destruct (Rlt_dec x y); split; intros; try easy. Qed.

Lemma Rltb_false (x y : R) : Rltb x y = false <-> ~ x < y.
Proof. unfold Rltb. destruct (Rlt_dec x y); split; intros; try easy. Qed.

Lemma Rleb_true (x y : R) : Rleb x y = true <-> x <= y.
Proof. unfold Rleb. destruct (Rle_dec x y); split; intros; try easy. Qed.

Lemma astype_float_01 (b : bool) : astype_float b = 0 \/ astype_float b = 1.
Proof. destruct b; simpl; auto. Qed.

Lemma astype_float_1 (b : bool) : astype_float b = 1 <-> b = true.
Proof. destruct b; simpl; split; intros; try easy; lra. Qed.

Lemma clip_bounds (x lo hi : R) : lo <= hi -> lo <= clip x lo hi <= hi.
Proof.
  intros Hle. unfold clip, Rmax, Rmin.
  destruct (Rle_dec x hi); destruct (Rle_dec lo _); lra.
Qed.

Lemma clip_id (x lo hi : R) : lo <= x <= hi -> clip x lo hi = x.
Proof.
  intros Hx. unfold clip, Rmax, Rmin.
  destruct (Rle_dec x hi); destruct (Rle_dec lo _); lra.
Qed.

Lemma sum_sq_nonneg (v : list R) : 0 <= sum_sq v.
Proof. induction v as [|x v IH]; simpl; [lra | nra]. Qed.

Lemma norm_nonneg (v : list R) : 0 <= norm v.
Proof. apply sqrt_pos. Qed.

(** Python's remainder by a positive modulus lies in [[0, m)]. *)
Lemma py_mod_range (x m : R) : 0 < m -> 0 <= py_mod x m < m.
Proof.
  intros Hm. unfold py_mod.
  destruct (base_Int_part (x / m)) as [Hlo Hhi].
  set (k := IZR (Int_part (x / m))) in *.
  assert (Hx : x = x / m * m) by (field; lra).
  split.
  - assert (k * m <= x / m * m) by (apply Rmult_le_compat_r; lra). lra.
  - assert ((x / m - 1) * m < k * m) by (apply Rmult_lt_compat_r; lra). lra.
Qed.

(** The remainder of a number already in [[0, m)] is the number. *)
Lemma py_mod_small (x m : R) : 0 <= x < m -> py_mod x m = x.
Proof.
  intros [H0 Hm]. unfold py_mod.
  assert (Hk : Int_part (x / m) = 0%Z).
  { symmetry. apply Int_part_spec. simpl.
    assert (Hx : x = x / m * m) by (field; lra).
    set (q := x / m) in *. nra. }
  rewrite Hk. simpl. lra.
Qed.

(** One period is taken away from a number in [[m, 2m)]. *)
Lemma py_mod_second (x m : R) : 0 < m -> m <= x < 2 * m -> py_mod x m = x - m.
Proof.
  intros Hm0 [H0 Hm]. unfold py_mod.
  assert (Hk : Int_part (x / m) = 1%Z).
  { symmetry. apply Int_part_spec. simpl.
    assert (Hx : x = x / m * m) by (field; lra).
    set (q := x / m) in *. nra. }
  rewrite Hk. simpl. lra.
Qed.

(** ** [gym.utils.transformations] *)

Section TransformationsSpec.
Import Rotations Transformations Examples.

Lemma normalize_angles_range (a : R) : - PI <= normalize_angles a < PI.
Proof.
  unfold normalize_angles.
  pose proof PI_RGT_0 as HPI.
  destruct (py_mod_range (a + PI) (2 * PI)) as [H0 H1]; lra.
Qed.

Lemma normalize_angles_0 : normalize_angles 0 = 0.
Proof.
  unfold normalize_angles. pose proof PI_RGT_0 as HPI.
  rewrite py_mod_small; lra.
Qed.

Lemma normalize_angles_2PI : normalize_angles (2 * PI) = 0.
Proof.
  unfold normalize_angles. pose proof PI_RGT_0 as HPI.
  rewrite py_mod_second; lra.
Qed.

Lemma acos_m1 : acos (-1) = PI.
Proof. replace (-1) with (- (1)) by lra. rewrite acos_opp, acos_1. lra. Qed.

(** The position component of a pose survives [apply_tf] followed by
    [get_tf] against the same unit reference. *)
Lemma get_tf_apply_tf_position (px py pz pw pa pb pc wx wy wz ww wa wb wc : R) :
  ww * ww + wa * wa + wb * wb + wc * wc = 1 ->
  exists r,
    bind (apply_tf [px; py; pz; pw; pa; pb; pc] [wx; wy; wz; ww; wa; wb; wc])
         (fun b => get_tf b [wx; wy; wz; ww; wa; wb; wc]) = Some r
    /\ firstn 3 r = [px; py; pz].
Proof.
  intros Hu. eexists. split; [simpl; reflexivity |].
  set (N := ww * ww + wa * wa + wb * wb + wc * wc) in Hu.
  simpl.
  apply (f_equal2 (@cons R)); [| apply (f_equal2 (@cons R)); [| apply (f_equal2 (@cons R)); [| reflexivity]]].
  - transitivity (N * N * px); [unfold N; ring | rewrite Hu; ring].
  - transitivity (N * N * py); [unfold N; ring | rewrite Hu; ring].
  - transitivity (N * N * pz); [unfold N; ring | rewrite Hu; ring].
Qed.

Lemma get_tf_apply_tf_position_witness :
  exists r,
    bind (apply_tf [1; 2; 3; 0; 0; 1; 0] [4; 5; 6; 3 / 5; 4 / 5; 0; 0])
         (fun b => get_tf b [4; 5; 6; 3 / 5; 4 / 5; 0; 0]) = Some r
    /\ firstn 3 r = [1; 2; 3].
Proof.
  apply (get_tf_apply_tf_position 1 2 3 0 0 1 0 4 5 6 (3 / 5) (4 / 5) 0 0). lra.
Defined.

(** C1: [get_tf (apply_tf p w) w] is evaluated at a unit pose [p] and a unit
    reference [w]: the position of [p] comes back, its orientation
    [(0, 0, 1, 0)] does not, the round trip yields [(0, 0, -7/25, 24/25)],
    which is neither [p]'s quaternion nor its negation. *)
Theorem get_tf_apply_tf_orientation :
  is_unit_quat (skipn 3 roundtrip_pose) /\
  is_unit_quat (skipn 3 roundtrip_reference) /\
  exists r,
    bind (apply_tf roundtrip_pose roundtrip_reference)
         (fun b => get_tf b roundtrip_reference) = Some r
    /\ firstn 3 r = firstn 3 roundtrip_pose
    /\ skipn 3 r = [0; 0; - 7 / 25; 24 / 25]
    /\ skipn 3 r <> skipn 3 roundtrip_pose
    /\ skipn 3 r <> map Ropp (skipn 3 roundtrip_pose).
Proof.
  unfold is_unit_quat, roundtrip_pose, roundtrip_reference.
  split; [simpl; split; [reflexivity | lra] |].
  split; [simpl; split; [reflexivity | lra] |].
  eexists. split; [simpl; reflexivity |].
  split; [simpl; vec_eq |].
  split; [simpl; vec_eq |].
  split; simpl; intros Heq; apply cons4_third in Heq; lra.
Qed.

(** C5: for unit quaternions the angular difference lies in [[0, pi]], and
    it is zero between a quaternion and itself and between a quaternion and
    its negation. *)
Theorem quat_angle_diff_canonical (quat_a quat_b : list R) :
  is_unit_quat quat_a -> is_unit_quat quat_b ->
  (exists r, quat_angle_diff quat_a quat_b = Some r /\ 0 <= r <= PI)
  /\ quat_angle_diff quat_a quat_a = Some 0
  /\ quat_angle_diff quat_a (map Ropp quat_a) = Some 0.
Proof.
  intros [La Ua] [Lb Ub].
  destruct (length_4 _ La) as (w & x & y & z & ->).
  destruct (length_4 _ Lb) as (w' & x' & y' & z' & ->).
  simpl in Ua. clear La Lb Ub.
  split; [| split].
  - eexists. split; [simpl; reflexivity |].
    match goal with |- _ <= Rabs (normalize_angles ?a) <= _ =>
      pose proof (normalize_angles_range a) as Hr end.
    split; [apply Rabs_pos | apply Rabs_le; lra].
  - unfold quat_angle_diff. simpl. f_equal.
    replace (w * w - x * - x - y * - y - z * - z) with 1 by lra.
    rewrite clip_id by lra. rewrite acos_1.
    replace (2 * 0) with 0 by lra.
    rewrite normalize_angles_0. apply Rabs_R0.
  - unfold quat_angle_diff. simpl. f_equal.
    replace (w * - w - x * - - x - y * - - y - z * - - z) with (-1) by lra.
    rewrite clip_id by lra. rewrite acos_m1.
    rewrite normalize_angles_2PI. apply Rabs_R0.
Qed.

Lemma quat_angle_diff_canonical_witness :
  is_unit_quat [1; 0; 0; 0] /\ is_unit_quat [0; 1; 0; 0] /\
  ((exists r, quat_angle_diff [1; 0; 0; 0] [0; 1; 0; 0] = Some r /\ 0 <= r <= PI)
   /\ quat_angle_diff [1; 0; 0; 0] [1; 0; 0; 0] = Some 0
   /\ quat_angle_diff [1; 0; 0; 0] (map Ropp [1; 0; 0; 0]) = Some 0).
Proof.
  assert (Ha : is_unit_quat [1; 0; 0; 0]) by (split; simpl; [reflexivity | lra]).
  assert (Hb : is_unit_quat [0; 1; 0; 0]) by (split; simpl; [reflexivity | lra]).
  split; [exact Ha | split; [exact Hb |]].
  exact (quat_angle_diff_canonical [1; 0; 0; 0] [0; 1; 0; 0] Ha Hb).
Defined.

(** C6, as stated, fails: a position-only [a_to_b] composed with a full
    reference pose does not degrade, the result is a 7-vector. *)
Lemma apply_tf_position_only_offset_not_degraded :
  length [1; 2; 3] = 3%nat /\
  exists r, apply_tf [1; 2; 3] [0; 0; 0; 1; 0; 0; 0] = Some r /\ length r <> 3%nat.
Proof.
  split; [reflexivity |].
  eexists. split; [simpl; reflexivity |]. simpl. discriminate.
Qed.

(** C6, amended: [apply_tf] accepts a 3-vector or a 7-vector in either
    argument and computes the composition of the two poses with the identity
    quaternion in place of a missing orientation; the result is the position
    alone exactly when the reference [world_to_a] is position-only, and the
    full pose when [world_to_a] is a 7-vector, also for a position-only
    [a_to_b]. *)
Theorem apply_tf_shapes (a_to_b world_to_a : list R) :
  length a_to_b = 3%nat \/ length a_to_b = 7%nat ->
  length world_to_a = 3%nat \/ length world_to_a = 7%nat ->
  exists r full,
    apply_tf a_to_b world_to_a = Some r
    /\ apply_tf (with_identity_quat a_to_b) (with_identity_quat world_to_a) = Some full
    /\ length full = 7%nat
    /\ (length world_to_a = 3%nat -> r = firstn 3 full)
    /\ (length world_to_a = 7%nat -> r = full).
Proof.
  intros [La | La] [Lw | Lw].
  - destruct (length_3 _ La) as (a & b & c & ->).
    destruct (length_3 _ Lw) as (x & y & z & ->).
    do 2 eexists. repeat split; try (simpl; reflexivity).
    simpl. discriminate.
  - destruct (length_3 _ La) as (a & b & c & ->).
    destruct (length_7 _ Lw) as (x & y & z & qw & qx & qy & qz & ->).
    do 2 eexists. repeat split; try (simpl; reflexivity).
    simpl. discriminate.
  - destruct (length_7 _ La) as (a & b & c & pw & px & py & pz & ->).
    destruct (length_3 _ Lw) as (x & y & z & ->).
    do 2 eexists. repeat split; try (simpl; reflexivity).
    simpl. discriminate.
  - destruct (length_7 _ La) as (a & b & c & pw & px & py & pz & ->).
    destruct (length_7 _ Lw) as (x & y & z & qw & qx & qy & qz & ->).
    do 2 eexists. repeat split; try (simpl; reflexivity).
    simpl. discriminate.
Qed.

Lemma apply_tf_shapes_witness :
  exists r full,
    apply_tf [1; 2; 3] [0; 0; 0; 1; 0; 0; 0] = Some r
    /\ apply_tf (with_identity_quat [1; 2; 3])
                (with_identity_quat [0; 0; 0; 1; 0; 0; 0]) = Some full
    /\ length full = 7%nat
    /\ (length [0; 0; 0; 1; 0; 0; 0] = 3%nat -> r = firstn 3 full)
    /\ (length [0; 0; 0; 1; 0; 0; 0] = 7%nat -> r = full).
Proof.
  apply (apply_tf_shapes [1; 2; 3] [0; 0; 0; 1; 0; 0; 0]).
  - left. reflexivity.
  - right. reflexivity.
Defined.

End TransformationsSpec.

(** ** [gym.envs.robotics.hand.move] *)

Section MoveSpec.
Import Rotations Move.
Context {Sim SimState Rng : Type}.
Context `{Simulator Sim SimState} `{RandomState Rng}.

Abbreviation Env := (@MovingHandEnv Sim SimState Rng).

Lemma acos_range_2 (x : R) : 0 <= 2 * acos (clip x (-1) 1) <= 2 * PI.
Proof.
  pose proof (clip_bounds x (-1) 1 ltac:(lra)) as Hc.
  pose proof (acos_bound (clip x (-1) 1)) as Ha. lra.
Qed.

(** The distances of two 7-vectors, written out. *)
Lemma goal_distance_eq (a1 a2 a3 a4 a5 a6 a7 b1 b2 b3 b4 b5 b6 b7 : R) (ignore : bool) :
  _goal_distance [a1; a2; a3; a4; a5; a6; a7] [b1; b2; b3; b4; b5; b6; b7] ignore =
  Some (norm [a1 - b1; a2 - b2; a3 - b3],
        if ignore then 0
        else 2 * acos (clip (a4 * b4 - a5 * - b5 - a6 * - b6 - a7 * - b7) (-1) 1)).
Proof. destruct ignore; reflexivity. Qed.

(** On two 7-vectors the distance is defined; the position distance is a
    norm, the rotation distance an angle in [[0, 2 pi]], and zero when the
    target rotation is ignored. *)
Lemma goal_distance_defined (goal_a goal_b : list R) (ignore : bool) :
  length goal_a = 7%nat -> length goal_b = 7%nat ->
  exists d_pos d_rot,
    _goal_distance goal_a goal_b ignore = Some (d_pos, d_rot)
    /\ 0 <= d_pos /\ 0 <= d_rot <= 2 * PI
    /\ (ignore = true -> d_rot = 0).
Proof.
  intros La Lb.
  destruct (length_7 _ La) as (a1 & a2 & a3 & a4 & a5 & a6 & a7 & ->).
  destruct (length_7 _ Lb) as (b1 & b2 & b3 & b4 & b5 & b6 & b7 & ->).
  pose proof PI_RGT_0 as HPI.
  rewrite goal_distance_eq. do 2 eexists. split; [reflexivity |].
  split; [apply norm_nonneg |].
  destruct ignore.
  - split; [lra | reflexivity].
  - split; [apply acos_range_2 | discriminate].
Qed.

Lemma firstn_7_length (l : list R) (n : nat) :
  length l = n -> (n = 7 \/ n = 8)%nat -> length (firstn 7 l) = 7%nat.
Proof. intros Hl Hn. rewrite length_firstn. lia. Qed.

Lemma goal_dim_cases (self : Env) : (goal_dim self = 7 \/ goal_dim self = 8)%nat.
Proof. unfold goal_dim. destruct (success_on_grasp_only _); auto. Qed.

(** The score of [_is_success] on goals of the environment's shape, in terms
    of the distances. *)
Lemma is_success_value (self : Env) (achieved_goal desired_goal : list R) :
  length achieved_goal = goal_dim self ->
  length desired_goal = goal_dim self ->
  exists d_pos d_rot,
    _goal_distance (firstn 7 achieved_goal) (firstn 7 desired_goal)
      (ignore_target_rotation (config self)) = Some (d_pos, d_rot)
    /\ _is_success self achieved_goal desired_goal =
       Some (astype_float
               (Rltb d_pos (distance_threshold (config self))
                && Rltb d_rot (rotation_threshold (config self))
                && (negb (success_on_grasp_only (config self))
                    || Rltb (nth 7 achieved_goal 0) 0.08))).
Proof.
  intros La Lb.
  pose proof (goal_dim_cases self) as Hd.
  destruct (goal_distance_defined (firstn 7 achieved_goal) (firstn 7 desired_goal)
              (ignore_target_rotation (config self)))
    as (d_pos & d_rot & Hgd & _).
  { eapply firstn_7_length; eauto. }
  { eapply firstn_7_length; eauto. }
  exists d_pos, d_rot. split; [exact Hgd |].
  unfold _is_success. rewrite Hgd. simpl.
  unfold goal_dim in La.
  destruct (success_on_grasp_only (config self)).
  - rewrite La. simpl.
    f_equal.
    destruct (Rltb d_pos _), (Rltb d_rot _), (Rltb (nth 7 achieved_goal 0) _);
      simpl; lra.
  - f_equal.
    destruct (Rltb d_pos _), (Rltb d_rot _); simpl; lra.
Qed.

Lemma norm_x00 (x : R) : norm [x - 0; 0 - 0; 0 - 0] = Rabs x.
Proof.
  unfold norm. simpl.
  replace ((x - 0) * (x - 0) + ((0 - 0) * (0 - 0) + ((0 - 0) * (0 - 0) + 0)))
    with (Rsqr x) by (unfold Rsqr; ring).
  apply sqrt_Rsqr_abs.
Qed.

Lemma norm_000 : norm [0 - 0; 0 - 0; 0 - 0] = 0.
Proof. rewrite norm_x00. apply Rabs_R0. Qed.

Lemma angle_same : 2 * acos (clip (1 * 1 - 0 * - 0 - 0 * - 0 - 0 * - 0) (-1) 1) = 0.
Proof.
  replace (1 * 1 - 0 * - 0 - 0 * - 0 - 0 * - 0) with 1 by lra.
  rewrite clip_id by lra. rewrite acos_1. lra.
Qed.

Lemma angle_opposite :
  2 * acos (clip (-1 * 1 - 0 * - 0 - 0 * - 0 - 0 * - 0) (-1) 1) = 2 * PI.
Proof.
  replace (-1 * 1 - 0 * - 0 - 0 * - 0 - 0 * - 0) with (-1) by lra.
  rewrite clip_id by lra. rewrite acos_m1. reflexivity.
Qed.

(** When the target rotation is ignored the rotation distance is zero, so
    the rotation conjunct holds for every positive threshold. *)
Lemma rot_conjunct_when_ignored (self : Env) (achieved_goal desired_goal : list R) :
  ignore_target_rotation (config self) = true ->
  0 < rotation_threshold (config self) ->
  length achieved_goal = goal_dim self ->
  length desired_goal = goal_dim self ->
  conjunct_holds self achieved_goal desired_goal RotClose.
Proof.
  intros Hign Hthr La Lb.
  pose proof (goal_dim_cases self) as Hd.
  destruct (goal_distance_defined (firstn 7 achieved_goal) (firstn 7 desired_goal)
              (ignore_target_rotation (config self)))
    as (d_pos & d_rot & Hgd & _ & _ & Hz).
  { eapply firstn_7_length; eauto. }
  { eapply firstn_7_length; eauto. }
  exists d_pos, d_rot. split; [exact Hgd |]. rewrite (Hz Hign). exact Hthr.
Qed.

Lemma ignored_rotation_never_weakens (self : Env) :
  ignore_target_rotation (config self) = true ->
  0 < rotation_threshold (config self) ->
  ~ dropping_weakens self RotClose.
Proof.
  intros Hign Hthr (a & g & La & Lg & _ & Hnot).
  apply Hnot. now apply rot_conjunct_when_ignored.
Qed.

Lemma goal_of_length (self : Env) (pose : list R) (d : R) :
  length pose = 7%nat -> length (goal_of self pose d) = goal_dim self.
Proof.
  intros Hl. unfold goal_of, goal_dim.
  destruct (success_on_grasp_only _); [rewrite length_app; simpl; lia | exact Hl].
Qed.

Lemma goal_of_firstn (self : Env) (a b c d e f g x : R) :
  firstn 7 (goal_of self [a; b; c; d; e; f; g] x) = [a; b; c; d; e; f; g].
Proof. unfold goal_of. destruct (success_on_grasp_only _); reflexivity. Qed.

Lemma goal_of_nth (self : Env) (a b c d e f g x : R) :
  success_on_grasp_only (config self) = true ->
  nth 7 (goal_of self [a; b; c; d; e; f; g] x) 0 = x.
Proof. unfold goal_of. intros ->. reflexivity. Qed.

Lemma pos_weakens (self : Env) :
  0 < distance_threshold (config self) ->
  0 < rotation_threshold (config self) ->
  dropping_weakens self PosClose.
Proof.
  intros Hd Hr.
  exists (goal_of self [distance_threshold (config self); 0; 0; 1; 0; 0; 0] 0),
         (goal_of self [0; 0; 0; 1; 0; 0; 0] 0).
  split; [now apply goal_of_length |]. split; [now apply goal_of_length |].
  split.
  - intros k Hk Hne. destruct k; [congruence | |].
    + unfold conjunct_holds. rewrite !goal_of_firstn, goal_distance_eq.
      do 2 eexists. split; [reflexivity |].
      destruct (ignore_target_rotation (config self)); [exact Hr |].
      rewrite angle_same. exact Hr.
    + unfold conjunct_holds, conjunct_present in *. rewrite goal_of_nth by exact Hk. lra.
  - unfold conjunct_holds. intros (dp & dr & Hgd & Hlt).
    rewrite !goal_of_firstn, goal_distance_eq in Hgd.
    apply Some_pair_inj in Hgd. destruct Hgd as [Hdp _].
    rewrite norm_x00 in Hdp. rewrite Rabs_pos_eq in Hdp by lra. lra.
Qed.

Lemma grasp_weakens (self : Env) :
  0 < distance_threshold (config self) ->
  0 < rotation_threshold (config self) ->
  success_on_grasp_only (config self) = true ->
  dropping_weakens self GraspClose.
Proof.
  intros Hd Hr Hg.
  exists (goal_of self [0; 0; 0; 1; 0; 0; 0] 0.08),
         (goal_of self [0; 0; 0; 1; 0; 0; 0] 0).
  split; [now apply goal_of_length |]. split; [now apply goal_of_length |].
  split.
  - intros k Hk Hne. destruct k; [| | congruence].
    + unfold conjunct_holds. rewrite !goal_of_firstn, goal_distance_eq.
      do 2 eexists. split; [reflexivity | rewrite norm_000; exact Hd].
    + unfold conjunct_holds. rewrite !goal_of_firstn, goal_distance_eq.
      do 2 eexists. split; [reflexivity |].
      destruct (ignore_target_rotation (config self)); [exact Hr |].
      rewrite angle_same. exact Hr.
  - unfold conjunct_holds. rewrite goal_of_nth by exact Hg. lra.
Qed.

Lemma rot_weakens (self : Env) :
  0 < distance_threshold (config self) ->
  rotation_threshold (config self) <= 2 * PI ->
  ignore_target_rotation (config self) = false ->
  dropping_weakens self RotClose.
Proof.
  intros Hd Hr Hign.
  exists (goal_of self [0; 0; 0; -1; 0; 0; 0] 0),
         (goal_of self [0; 0; 0; 1; 0; 0; 0] 0).
  split; [now apply goal_of_length |]. split; [now apply goal_of_length |].
  split.
  - intros k Hk Hne. destruct k; [| congruence |].
    + unfold conjunct_holds. rewrite !goal_of_firstn, goal_distance_eq.
      do 2 eexists. split; [reflexivity | rewrite norm_000; exact Hd].
    + unfold conjunct_holds, conjunct_present in *. rewrite goal_of_nth by exact Hk. lra.
  - unfold conjunct_holds. intros (dp & dr & Hgd & Hlt).
    rewrite !goal_of_firstn, goal_distance_eq, Hign in Hgd.
    apply Some_pair_inj in Hgd. destruct Hgd as [_ Hdr].
    rewrite angle_opposite in Hdr. lra.
Qed.

(** The score is 1 exactly when every conjunct that is present holds. *)
Lemma is_success_iff (self : Env) (achieved_goal desired_goal : list R) :
  length achieved_goal = goal_dim self ->
  length desired_goal = goal_dim self ->
  exists s,
    _is_success self achieved_goal desired_goal = Some s
    /\ (s = 0 \/ s = 1)
    /\ (s = 1 <->
        forall k, conjunct_present self k ->
                  conjunct_holds self achieved_goal desired_goal k).
Proof.
  intros La Lb.
  destruct (is_success_value self achieved_goal desired_goal La Lb)
    as (d_pos & d_rot & Hgd & Hs).
  eexists. split; [exact Hs |]. split; [apply astype_float_01 |].
  rewrite astype_float_1, !andb_true_iff, orb_true_iff, negb_true_iff, !Rltb_true.
  split.
  - intros [[Hp Hr] Hg] k Hk. destruct k; simpl in *.
    + now exists d_pos, d_rot.
    + now exists d_pos, d_rot.
    + destruct Hg as [Hg | Hg]; [congruence | exact Hg].
  - intros Hall. split; [split |].
    + destruct (Hall PosClose I) as (dp & dr & Hgd' & Hlt).
      rewrite Hgd in Hgd'. apply Some_pair_inj in Hgd'. destruct Hgd' as [-> _].
      exact Hlt.
    + destruct (Hall RotClose I) as (dp & dr & Hgd' & Hlt).
      rewrite Hgd in Hgd'. apply Some_pair_inj in Hgd'. destruct Hgd' as [_ ->].
      exact Hlt.
    + destruct (success_on_grasp_only (config self)) eqn:Hg; [right | now left].
      apply (Hall GraspClose). exact Hg.
Qed.

(** C3, amended: on goals of the environment's shape the score of
    [_is_success] is 0 or 1, and it is 1 exactly when the position distance
    is below its threshold, the rotation distance is below its threshold
    and, when the goals carry the grasp distance, that distance is below
    0.08. For positive thresholds, dropping the position conjunct or the
    grasp conjunct strictly weakens the predicate; dropping the rotation
    conjunct does so when the target rotation is not ignored (the threshold
    being at most 2 pi), and changes nothing when it is ignored, the
    rotation distance then being 0. *)
Theorem is_success_conjunction (self : Env) (achieved_goal desired_goal : list R) :
  length achieved_goal = goal_dim self ->
  length desired_goal = goal_dim self ->
  0 < distance_threshold (config self) ->
  0 < rotation_threshold (config self) <= 2 * PI ->
  (exists s,
     _is_success self achieved_goal desired_goal = Some s
     /\ (s = 0 \/ s = 1)
     /\ (s = 1 <->
         forall k, conjunct_present self k ->
                   conjunct_holds self achieved_goal desired_goal k))
  /\ dropping_weakens self PosClose
  /\ (success_on_grasp_only (config self) = true -> dropping_weakens self GraspClose)
  /\ (ignore_target_rotation (config self) = false -> dropping_weakens self RotClose)
  /\ (ignore_target_rotation (config self) = true -> ~ dropping_weakens self RotClose).
Proof.
  intros La Lg Hd [Hr0 Hr1].
  split; [now apply is_success_iff |].
  split; [now apply pos_weakens |].
  split; [intros Hg; now apply grasp_weakens |].
  split; [intros Hi; now apply rot_weakens |].
  intros Hi. now apply ignored_rotation_never_weakens.
Qed.

(** The sparse reward of [MovingHandEnv] is the weighted score minus one. *)
Lemma compute_reward_sparse (self : Env) (achieved_goal goal : list R)
  (info : option dict) (s : R) :
  reward_type (config self) = "sparse"%string ->
  _is_success self achieved_goal goal = Some s ->
  compute_reward self achieved_goal goal info = Some (s * weight_of info - 1).
Proof.
  intros Hs Hsucc. unfold compute_reward, weight_of.
  rewrite Hs, Hsucc. simpl.
  destruct (dict_get _ _); f_equal; lra.
Qed.

(** A goal that is achieved: the score is 1. *)
Lemma is_success_at_goal (self : Env) :
  0 < distance_threshold (config self) ->
  0 < rotation_threshold (config self) ->
  _is_success self (goal_of self [0; 0; 0; 1; 0; 0; 0] 0)
                   (goal_of self [0; 0; 0; 1; 0; 0; 0] 0) = Some 1.
Proof.
  intros Hd Hr.
  destruct (is_success_iff self (goal_of self [0; 0; 0; 1; 0; 0; 0] 0)
              (goal_of self [0; 0; 0; 1; 0; 0; 0] 0))
    as (s & Hs & _ & Hiff); try (now apply goal_of_length).
  rewrite Hs. f_equal. apply Hiff. intros k Hk. destruct k.
  - unfold conjunct_holds. rewrite !goal_of_firstn, goal_distance_eq.
    do 2 eexists. split; [reflexivity | rewrite norm_000; exact Hd].
  - unfold conjunct_holds. rewrite !goal_of_firstn, goal_distance_eq.
    do 2 eexists. split; [reflexivity |].
    destruct (ignore_target_rotation (config self)); [exact Hr |].
    rewrite angle_same. exact Hr.
  - unfold conjunct_holds, conjunct_present in *. rewrite goal_of_nth by exact Hk. lra.
Qed.

(** *** The sparse reward of [YumiEnv] *)

Lemma vsub_defined (a b : list R) :
  length a = length b -> exists d, vsub a b = Some d.
Proof.
  revert b. induction a as [| x a IH]; intros [| y b] Hl; try discriminate.
  - now exists [].
  - destruct (IH b) as [d Hd]; [simpl in Hl; lia |].
    exists (x - y :: d). unfold vsub in *. simpl. now rewrite Hd.
Qed.

Lemma yumi_is_success_defined (yumi : Yumi.YumiEnv) (a g : list R) :
  length a = length g ->
  exists s, Yumi._is_success yumi a g = Some s /\ (s = 0 \/ s = 1).
Proof.
  intros Hl. destruct (vsub_defined a g Hl) as [d Hd].
  eexists. unfold Yumi._is_success. rewrite Hd.
  split; [reflexivity | apply astype_float_01].
Qed.

(** The sparse reward of a [YumiEnv] without an object: the scores of the
    arms it has, minus the number of its arms. *)
Lemma yumi_compute_reward_sparse (yumi : Yumi.YumiEnv) (achieved_goal desired_goal : list R)
  (info : option dict) :
  Yumi.reward_type yumi = "sparse"%string ->
  Yumi.has_object yumi = false ->
  length achieved_goal = length desired_goal ->
  exists s_l s_r,
    Yumi._is_success yumi (firstn 3 achieved_goal) (firstn 3 desired_goal) = Some s_l
    /\ Yumi._is_success yumi (skipn 3 achieved_goal) (skipn 3 desired_goal) = Some s_r
    /\ (s_l = 0 \/ s_l = 1) /\ (s_r = 0 \/ s_r = 1)
    /\ Yumi.compute_reward yumi achieved_goal desired_goal info =
       Some (astype_float (Yumi.has_left_arm yumi) * s_l
             + astype_float (Yumi.has_right_arm yumi) * s_r
             - (if Yumi.has_two_arms yumi then 2 else 1)).
Proof.
  intros Hs Ho Hl.
  destruct (yumi_is_success_defined yumi (firstn 3 achieved_goal) (firstn 3 desired_goal))
    as (s_l & Hsl & Hl01).
  { rewrite !length_firstn. lia. }
  destruct (yumi_is_success_defined yumi (skipn 3 achieved_goal) (skipn 3 desired_goal))
    as (s_r & Hsr & Hr01).
  { rewrite !length_skipn. lia. }
  exists s_l, s_r. repeat (split; [assumption |]).
  unfold Yumi.compute_reward. rewrite Hl, Nat.eqb_refl, Hs, Ho, Hsl, Hsr.
  cbn [negb String.eqb Ascii.eqb Bool.eqb bind].
  destruct (Yumi.has_two_arms yumi); reflexivity.
Qed.

Lemma yumi_one_arm (yumi : Yumi.YumiEnv) :
  Yumi.has_two_arms yumi = false ->
  Yumi.has_left_arm yumi && Yumi.has_right_arm yumi = false.
Proof.
  unfold Yumi.has_two_arms, Yumi.has_left_arm, Yumi.has_right_arm. intros ->.
  rewrite !orb_false_r.
  destruct (String.eqb_spec (Yumi.arm yumi) "left") as [Hleft |]; [| reflexivity].
  rewrite Hleft. reflexivity.
Qed.

Lemma yumi_two_arms (yumi : Yumi.YumiEnv) :
  Yumi.has_two_arms yumi = true ->
  Yumi.has_left_arm yumi = true /\ Yumi.has_right_arm yumi = true.
Proof.
  unfold Yumi.has_two_arms, Yumi.has_left_arm, Yumi.has_right_arm. intros ->.
  now rewrite !orb_true_r.
Qed.

(** The score of one arm of a [YumiEnv] is 1 exactly when the arm is
    within the distance threshold of its goal. *)
Lemma yumi_is_success_iff (yumi : Yumi.YumiEnv) (a g : list R) (s : R) :
  Yumi._is_success yumi a g = Some s ->
  (s = 1 <->
   exists d, vsub a g = Some d /\ norm d < Yumi.distance_threshold yumi).
Proof.
  unfold Yumi._is_success.
  destruct (vsub a g) as [d |]; [| discriminate]. cbn [bind].
  intros Hs. apply Some_inj in Hs. subst s.
  rewrite astype_float_1, Rltb_true. split.
  - intros Hlt. now exists d.
  - intros (d' & Hd & Hlt). apply Some_inj in Hd. now subst d'.
Qed.

(** C2, amended: in sparse mode the reward of [MovingHandEnv] is the score
    of [_is_success], which is 0 or 1, times the entry ['weights'] of
    [info] when there is one, minus 1. So it is -1 on failure whatever the
    weights, the weight minus 1 on success, and without weights (or with the
    weight 1) it is 0 exactly on success and -1 otherwise. The sparse reward
    of a [YumiEnv] without an object is the number of its arms at their
    goal minus the number of its arms: the score of the left arm minus 1
    for the arm ['left'], the score of the right arm minus 1 for the arm
    ['right'], the sum of the two scores minus 2 for ['both'], where the
    score of an arm is 1 when the arm is within the distance threshold of
    its goal and 0 otherwise; hence -1 or 0 with one arm, and -2, -1 or 0
    with both. *)
Theorem sparse_reward_values (self : Env) (yumi : Yumi.YumiEnv)
  (achieved_goal goal y_achieved y_goal : list R) (info : option dict) :
  reward_type (config self) = "sparse"%string ->
  length achieved_goal = goal_dim self ->
  length goal = goal_dim self ->
  Yumi.reward_type yumi = "sparse"%string ->
  Yumi.has_object yumi = false ->
  length y_achieved = length y_goal ->
  (exists s,
     _is_success self achieved_goal goal = Some s
     /\ (s = 0 \/ s = 1)
     /\ (s = 1 <->
         forall k, conjunct_present self k -> conjunct_holds self achieved_goal goal k)
     /\ compute_reward self achieved_goal goal info = Some (s * weight_of info - 1)
     /\ (s = 0 -> compute_reward self achieved_goal goal info = Some (-1))
     /\ (weight_of info = 1 ->
         compute_reward self achieved_goal goal info = Some (s - 1)))
  /\ (exists s_l s_r r,
        Yumi._is_success yumi (firstn 3 y_achieved) (firstn 3 y_goal) = Some s_l
        /\ Yumi._is_success yumi (skipn 3 y_achieved) (skipn 3 y_goal) = Some s_r
        /\ Yumi.compute_reward yumi y_achieved y_goal info = Some r
        /\ (Yumi.has_two_arms yumi = true -> r = s_l + s_r - 2)
        /\ (Yumi.has_two_arms yumi = false -> r = -1 \/ r = 0)
        /\ (r = -2 \/ r = -1 \/ r = 0)
        /\ (s_l = 0 \/ s_l = 1) /\ (s_r = 0 \/ s_r = 1)
        /\ (s_l = 1 <->
            exists d, vsub (firstn 3 y_achieved) (firstn 3 y_goal) = Some d
                      /\ norm d < Yumi.distance_threshold yumi)
        /\ (s_r = 1 <->
            exists d, vsub (skipn 3 y_achieved) (skipn 3 y_goal) = Some d
                      /\ norm d < Yumi.distance_threshold yumi)
        /\ r = astype_float (Yumi.has_left_arm yumi) * s_l
               + astype_float (Yumi.has_right_arm yumi) * s_r
               - (if Yumi.has_two_arms yumi then 2 else 1)
        /\ (Yumi.arm yumi = "left"%string -> r = s_l - 1)
        /\ (Yumi.arm yumi = "right"%string -> r = s_r - 1)
        /\ (Yumi.arm yumi = "both"%string -> r = s_l + s_r - 2)).
Proof.
  intros Hs La Lg Hys Hyo Hyl. split.
  - destruct (is_success_iff self achieved_goal goal La Lg) as (s & Hsucc & H01 & Hiff).
    pose proof (compute_reward_sparse self achieved_goal goal info s Hs Hsucc) as Hr.
    exists s. repeat (split; [assumption |]). split.
    + intros Hz. rewrite Hr. f_equal. rewrite Hz. lra.
    + intros Hw. rewrite Hr. f_equal. rewrite Hw. lra.
  - destruct (yumi_compute_reward_sparse yumi y_achieved y_goal info Hys Hyo Hyl)
      as (s_l & s_r & Hsl & Hsr & Hl01 & Hr01 & Hr).
    pose proof (yumi_is_success_iff yumi _ _ s_l Hsl) as Hil.
    pose proof (yumi_is_success_iff yumi _ _ s_r Hsr) as Hir.
    exists s_l, s_r. eexists. repeat (split; [eassumption |]).
    assert (Harms :
      (Yumi.arm yumi = "left"%string ->
       astype_float (Yumi.has_left_arm yumi) * s_l
       + astype_float (Yumi.has_right_arm yumi) * s_r
       - (if Yumi.has_two_arms yumi then 2 else 1) = s_l - 1)
      /\ (Yumi.arm yumi = "right"%string ->
          astype_float (Yumi.has_left_arm yumi) * s_l
          + astype_float (Yumi.has_right_arm yumi) * s_r
          - (if Yumi.has_two_arms yumi then 2 else 1) = s_r - 1)
      /\ (Yumi.arm yumi = "both"%string ->
          astype_float (Yumi.has_left_arm yumi) * s_l
          + astype_float (Yumi.has_right_arm yumi) * s_r
          - (if Yumi.has_two_arms yumi then 2 else 1) = s_l + s_r - 2)).
    { unfold Yumi.has_left_arm, Yumi.has_right_arm, Yumi.has_two_arms.
      repeat split; intros ->; simpl; lra. }
    destruct Harms as (Aleft & Aright & Aboth).
    destruct (Yumi.has_two_arms yumi) eqn:Htwo.
    + destruct (yumi_two_arms yumi Htwo) as [Hleft Hright].
      rewrite Hleft, Hright in *. simpl in *.
      split; [intros _; lra |]. split; [discriminate |].
      split; [destruct Hl01 as [-> | ->], Hr01 as [-> | ->]; lra |].
      repeat (split; [assumption |]).
      split; [reflexivity |]. repeat split; assumption.
    + pose proof (yumi_one_arm yumi Htwo) as Hone.
      split; [discriminate |].
      assert (Hv : astype_float (Yumi.has_left_arm yumi) * s_l
                   + astype_float (Yumi.has_right_arm yumi) * s_r - 1 = -1
                   \/ astype_float (Yumi.has_left_arm yumi) * s_l
                      + astype_float (Yumi.has_right_arm yumi) * s_r - 1 = 0).
      { destruct (Yumi.has_left_arm yumi), (Yumi.has_right_arm yumi);
          try discriminate; simpl;
          destruct Hl01 as [-> | ->], Hr01 as [-> | ->]; lra. }
      split; [intros _; exact Hv |]. split; [tauto |].
      repeat (split; [assumption |]).
      split; [reflexivity |]. repeat split; assumption.
Qed.

(** C8: the constructor raises on [ignore_rotation_ctrl] without
    [ignore_target_rotation], and on [success_on_grasp_only] with a reward
    that is not sparse or without an object; a configuration it returns has
    none of these combinations, and carries the flags it was given. *)
Theorem init_rejects_invalid_flags (a : @InitArgs SimState) (arm_quat : list R) :
  (arg_ignore_rotation_ctrl a = true -> arg_ignore_target_rotation a = false ->
   exists e, init a arm_quat = inl e)
  /\ (arg_success_on_grasp_only a = true ->
      arg_reward_type a <> "sparse"%string \/ arg_has_object a = false ->
      exists e, init a arm_quat = inl e)
  /\ (forall c, init a arm_quat = inr c ->
        ~ (ignore_rotation_ctrl c = true /\ ignore_target_rotation c = false)
        /\ ~ (success_on_grasp_only c = true
              /\ (reward_type c <> "sparse"%string \/ has_object c = false))
        /\ ignore_rotation_ctrl c = arg_ignore_rotation_ctrl a
        /\ ignore_target_rotation c = arg_ignore_target_rotation a
        /\ success_on_grasp_only c = arg_success_on_grasp_only a
        /\ reward_type c = arg_reward_type a
        /\ has_object c = arg_has_object a).
Proof.
  unfold init.
  set (loaded := match arg_grasp_state a with
                 | GraspBool true => _
                 | _ => _
                 end).
  assert (Hraise : forall (e : init_error) (c : @Config SimState), inl e <> inr c)
    by (intros e c Hc; discriminate Hc).
  destruct loaded as [e | gs].
  { split; [eauto | split; [eauto | intros c Hc; destruct (Hraise _ _ Hc)]]. }
  destruct (_ && Rleb _ 0).
  { split; [eauto | split; [eauto | intros c Hc; destruct (Hraise _ _ Hc)]]. }
  destruct (arg_ignore_rotation_ctrl a && negb (arg_ignore_target_rotation a)) eqn:E1.
  { split; [eauto | split; [eauto | intros c Hc; destruct (Hraise _ _ Hc)]]. }
  destruct (arg_success_on_grasp_only a
            && negb (String.eqb (arg_reward_type a) "sparse")) eqn:E2.
  { split; [eauto | split; [eauto | intros c Hc; destruct (Hraise _ _ Hc)]]. }
  destruct (arg_success_on_grasp_only a && negb (arg_has_object a)) eqn:E3.
  { split; [eauto | split; [eauto | intros c Hc; destruct (Hraise _ _ Hc)]]. }
  assert (H1 : ~ (arg_ignore_rotation_ctrl a = true
                  /\ arg_ignore_target_rotation a = false)).
  { intros [Ha Hb]. rewrite Ha, Hb in E1. discriminate. }
  assert (H2 : ~ (arg_success_on_grasp_only a = true
                  /\ (arg_reward_type a <> "sparse"%string \/ arg_has_object a = false))).
  { intros [Ha [Hb | Hb]].
    - rewrite Ha in E2. destruct (String.eqb_spec (arg_reward_type a) "sparse");
        [contradiction | discriminate].
    - rewrite Ha, Hb in E3. discriminate. }
  split; [intros Ha Hb; exfalso; apply H1; now split |].
  split; [intros Ha Hb; exfalso; apply H2; now split |].
  intros c Hc.
  destruct (arg_has_object a) eqn:Ho;
    [destruct (existsb (String.eqb (arg_object_id a)) OBJECTS) |];
    try discriminate.
  apply (f_equal (fun r => match r with inr x => x | inl _ => c end)) in Hc.
  subst c. simpl. repeat split; auto.
Qed.

(** Without an object the constructor cannot finish: the scene description
    it writes to is [None]. *)
Lemma init_without_object (a : @InitArgs SimState) (arm_quat : list R) :
  arg_has_object a = false -> exists e, init a arm_quat = inl e.
Proof.
  intros Ho. unfold init. rewrite Ho.
  destruct (arg_grasp_state a) as [| [|] | st]; destruct (grasp_file a);
    destruct (Rleb (arg_grasp_state_reset_p a) 0);
    destruct (arg_ignore_rotation_ctrl a), (arg_ignore_target_rotation a),
             (arg_success_on_grasp_only a);
    destruct (String.eqb (arg_reward_type a) "sparse");
    simpl; eauto.
Qed.
End MoveSpec.

(** ** Resets and the calls that write the environment *)

Section MoveReset.
Import Rotations Move.
Context {Sim SimState Rng : Type}.
Context `{Simulator Sim SimState} `{RandomState Rng}.

Abbreviation Env := (@MovingHandEnv Sim SimState Rng).

Lemma bind_Some {A B : Type} (m : option A) (k : A -> option B) (r : B) :
  bind m k = Some r -> exists x, m = Some x /\ k x = Some r.
Proof. destruct m as [x |]; simpl; intros Hr; [eauto | discriminate]. Qed.

Lemma set_arm_pose_config (self self' : Env) (pose : list R) :
  _set_arm_pose self pose = Some self' -> config self' = config self.
Proof.
  unfold _set_arm_pose. destruct (negb _); [discriminate |].
  destruct (forearm_bounds (config self)) as [lo hi].
  intros Hs. apply Some_inj in Hs. subst self'. reflexivity.
Qed.

Lemma set_action_config (self self' : Env) (action : list R) :
  _set_action self action = Some self' -> config self' = config self.
Proof.
  unfold _set_action. destruct (negb _); [discriminate |].
  destruct (negb _); [discriminate |].
  intros Hs.
  apply bind_Some in Hs as (new_pos & _ & Hs).
  apply bind_Some in Hs as (new_quat & _ & Hs).
  apply set_arm_pose_config in Hs. exact Hs.
Qed.

Lemma reset_attempt_config (self self' : Env) (grasp : bool) :
  reset_attempt self grasp = Some self' -> config self' = config self.
Proof.
  unfold reset_attempt. intros Hs.
  apply bind_Some in Hs as (s1 & H1 & Hs).
  assert (C1 : config s1 = config self).
  { destruct grasp.
    - destruct (negb _); [discriminate |].
      destruct (grasp_state (config self)); try discriminate.
      apply bind_Some in H1 as (s0 & H0' & H1).
      apply set_action_config in H0'. apply Some_inj in H1. subst s1.
      exact H0'.
    - apply Some_inj in H1. subst s1. reflexivity. }
  clear H1.
  destruct (randomize_initial_arm_pos (config self)).
  - destruct (uniform_size _ _ _ _) as [noise g].
    destruct (vadd _ noise) as [xy |]; [| discriminate].
    apply bind_Some in Hs as (pose & _ & Hs).
    apply bind_Some in Hs as (s2 & H2 & Hs).
    apply set_arm_pose_config in H2. simpl in H2.
    apply bind_Some in Hs as (s3 & H3 & Hs).
    apply Some_inj in Hs. subst self'. simpl.
    destruct (has_object (config self) && negb grasp).
    + destruct (randomize_initial_object_pos (config self)).
      * destruct (table_safe_bounds (config self)) as [lo hi].
        destruct (uniform_vec lo hi _) as [xy' g'].
        apply bind_Some in H3 as (p & _ & H3).
        destruct (negb _); [discriminate |].
        apply Some_inj in H3. subst s3. simpl. congruence.
      * destruct (uniform_size _ _ _ _) as [noise' g'].
        apply bind_Some in H3 as (p & _ & H3).
        destruct (negb _); [discriminate |].
        apply Some_inj in H3. subst s3. simpl. congruence.
    + apply Some_inj in H3. subst s3. simpl. congruence.
  - apply bind_Some in Hs as (pose & _ & Hs).
    apply bind_Some in Hs as (s2 & H2 & Hs).
    apply set_arm_pose_config in H2.
    apply bind_Some in Hs as (s3 & H3 & Hs).
    apply Some_inj in Hs. subst self'. simpl.
    destruct (has_object (config self) && negb grasp).
    + destruct (randomize_initial_object_pos (config self)).
      * destruct (table_safe_bounds (config self)) as [lo hi].
        destruct (uniform_vec lo hi _) as [xy' g'].
        apply bind_Some in H3 as (p & _ & H3).
        destruct (negb _); [discriminate |].
        apply Some_inj in H3. subst s3. simpl. congruence.
      * destruct (uniform_size _ _ _ _) as [noise' g'].
        apply bind_Some in H3 as (p & _ & H3).
        destruct (negb _); [discriminate |].
        apply Some_inj in H3. subst s3. simpl. congruence.
    + apply Some_inj in H3. subst s3. simpl. congruence.
Qed.

Lemma all_in_range_spec (le : R -> R -> bool) (a lo hi : list R) :
  all_in_range le a lo hi = true ->
  forall (i : nat) (x l h : R),
    nth_error a i = Some x -> nth_error lo i = Some l -> nth_error hi i = Some h ->
    le l x = true /\ le x h = true.
Proof.
  revert lo hi. induction a as [| y a IH]; intros lo hi Hall i x l h Hx Hl Hh.
  - destruct i; discriminate.
  - destruct lo as [| l0 lo]; [destruct i; discriminate |].
    destruct hi as [| h0 hi]; [destruct i; discriminate |].
    simpl in Hall. apply andb_true_iff in Hall as [Hhead Htail].
    apply andb_true_iff in Hhead as [H1 H2].
    destruct i as [| i]; simpl in *.
    + apply Some_inj in Hx, Hl, Hh. subst. now split.
    + eapply IH; eauto.
Qed.

Lemma draw_config (self : Env) :
  config (snd (reset_to_grasp_draw self)) = config self.
Proof.
  unfold reset_to_grasp_draw. destruct (uniform 0 1 _) as [u g]. reflexivity.
Qed.

Lemma reset_sim_no_grasp (fuel : nat) (self : Env) :
  fst (reset_to_grasp_draw self) = false ->
  _reset_sim fuel self = reset_loop fuel false (snd (reset_to_grasp_draw self)).
Proof.
  unfold _reset_sim. destruct (reset_to_grasp_draw self) as [b s]. simpl.
  now intros ->.
Qed.

(** One pass of the loop with an object and no grasp state. *)
Lemma reset_loop_step (fuel : nat) (self s1 : Env) :
  has_object (config self) = true ->
  reset_attempt self false = Some s1 ->
  reset_loop (S fuel) false self =
  if reset_valid s1 then Returned s1 else reset_loop fuel false s1.
Proof.
  intros Ho Ha. simpl. rewrite Ha.
  rewrite (reset_attempt_config _ _ _ Ha), Ho. reflexivity.
Qed.

(** What the loop returns has passed the validation. *)
Lemma reset_loop_returned (fuel : nat) (self self' : Env) :
  has_object (config self) = true ->
  reset_loop fuel false self = Returned self' ->
  reset_valid self' = true /\ config self' = config self.
Proof.
  revert self. induction fuel as [| fuel IH]; intros self Ho Hr; [discriminate |].
  destruct (reset_attempt self false) as [s1 |] eqn:Ha.
  - rewrite (reset_loop_step _ _ _ Ho Ha) in Hr.
    pose proof (reset_attempt_config _ _ _ Ha) as Hc.
    destruct (reset_valid s1) eqn:Hv.
    + assert (s1 = self')
        by exact (f_equal (fun o => match o with Returned x => x | _ => s1 end) Hr).
      subst s1. split; [exact Hv | exact Hc].
    + destruct (IH s1) as [Hv' Hc']; [congruence | exact Hr |].
      split; [exact Hv' | congruence].
  - simpl in Hr. rewrite Ha in Hr. discriminate.
Qed.

(** The loop only raises when a pass itself raises: a rejected sample is
    not an error. *)
Lemma reset_loop_raised (fuel : nat) (self : Env) :
  has_object (config self) = true ->
  reset_loop fuel false self = Raised ->
  exists (k : nat) (s : Env),
    (k < fuel)%nat /\ reset_passes k self = Some s /\ reset_attempt s false = None.
Proof.
  revert self. induction fuel as [| fuel IH]; intros self Ho Hr; [discriminate |].
  destruct (reset_attempt self false) as [s1 |] eqn:Ha.
  - rewrite (reset_loop_step _ _ _ Ho Ha) in Hr.
    pose proof (reset_attempt_config _ _ _ Ha) as Hc.
    destruct (reset_valid s1); [discriminate |].
    destruct (IH s1) as (k & s & Hk & Hp & Hn); [congruence | exact Hr |].
    exists (S k), s. split; [lia |]. split; [simpl; now rewrite Ha | exact Hn].
  - exists O, self. split; [lia |]. split; [reflexivity | exact Ha].
Qed.

(** The loop returns the first pass that is valid, given enough passes. *)
Lemma reset_loop_first_valid (k : nat) (self s : Env) :
  has_object (config self) = true ->
  reset_passes (S k) self = Some s ->
  reset_valid s = true ->
  (forall (j : nat) (sj : Env),
     (1 <= j <= k)%nat -> reset_passes j self = Some sj -> reset_valid sj = false) ->
  forall fuel : nat, (k < fuel)%nat -> reset_loop fuel false self = Returned s.
Proof.
  revert self. induction k as [| k IH]; intros self Ho Hp Hv Hbefore fuel Hf.
  - destruct fuel as [| fuel]; [lia |].
    simpl in Hp. destruct (reset_attempt self false) as [s1 |] eqn:Ha; [| discriminate].
    apply Some_inj in Hp. subst s1.
    rewrite (reset_loop_step _ _ _ Ho Ha), Hv. reflexivity.
  - destruct fuel as [| fuel]; [lia |].
    change (reset_passes (S (S k)) self)
      with (match reset_attempt self false with
            | Some self' => reset_passes (S k) self'
            | None => None
            end) in Hp.
    destruct (reset_attempt self false) as [s1 |] eqn:Ha; [| discriminate].
    rewrite (reset_loop_step _ _ _ Ho Ha).
    assert (Hv1 : reset_valid s1 = false).
    { apply (Hbefore 1%nat); [lia |]. simpl. now rewrite Ha. }
    rewrite Hv1. apply IH; try assumption; try lia.
    + rewrite (reset_attempt_config _ _ _ Ha). exact Ho.
    + intros j sj Hj Hpj. apply (Hbefore (S j)); [lia |].
      simpl. now rewrite Ha.
Qed.

(** C7: with an object and without the grasp state, what [_reset_sim]
    returns has passed the validation: the velocity of the object has norm
    below 0.8 and its planar position lies within the table-safe bounds. A
    pass whose sample fails the validation is followed by another pass, the
    call only raises when a pass itself raises, and it returns the first
    pass that is valid once the loop is followed that far. *)
Theorem reset_sim_validates (fuel : nat) (self self' : Env) :
  has_object (config self) = true ->
  fst (reset_to_grasp_draw self) = false ->
  (_reset_sim fuel self = Returned self' ->
   norm (get_joint_qvel "object:joint" (sim self')) < 0.8
   /\ forall (i : nat) (x lo hi : R),
        nth_error (firstn 2 (firstn 3 (_get_object_pose self'))) i = Some x ->
        nth_error (fst (table_safe_bounds (config self'))) i = Some lo ->
        nth_error (snd (table_safe_bounds (config self'))) i = Some hi ->
        lo <= x <= hi)
  /\ (forall s1 : Env,
        reset_attempt (snd (reset_to_grasp_draw self)) false = Some s1 ->
        reset_valid s1 = false ->
        _reset_sim (S fuel) self = reset_loop fuel false s1)
  /\ (_reset_sim fuel self = Raised ->
      exists (k : nat) (s : Env),
        (k < fuel)%nat
        /\ reset_passes k (snd (reset_to_grasp_draw self)) = Some s
        /\ reset_attempt s false = None)
  /\ (forall (k : nat) (s : Env),
        reset_passes (S k) (snd (reset_to_grasp_draw self)) = Some s ->
        reset_valid s = true ->
        (forall (j : nat) (sj : Env),
           (1 <= j <= k)%nat ->
           reset_passes j (snd (reset_to_grasp_draw self)) = Some sj ->
           reset_valid sj = false) ->
        forall passes : nat, (k < passes)%nat -> _reset_sim passes self = Returned s).
Proof.
  intros Ho Hd.
  pose proof (draw_config self) as Hc.
  split; [| split; [| split]].
  - rewrite (reset_sim_no_grasp _ _ Hd). intros Hr.
    apply reset_loop_returned in Hr as [Hv _]; [| congruence].
    unfold reset_valid in Hv. apply andb_true_iff in Hv as [Hs Ht].
    split; [now apply Rltb_true |].
    intros i x lo hi Hx Hlo Hhi.
    unfold object_on_table, _check_range in Ht.
    destruct (table_safe_bounds (config self')) as [l h]. simpl in Hlo, Hhi.
    destruct (all_in_range_spec _ _ _ _ Ht i x lo hi Hx Hlo Hhi) as [H1 H2].
    split; now apply Rleb_true.
  - intros s1 Ha Hv. rewrite (reset_sim_no_grasp _ _ Hd).
    rewrite (reset_loop_step fuel _ s1); [now rewrite Hv | congruence | exact Ha].
  - rewrite (reset_sim_no_grasp _ _ Hd). apply reset_loop_raised. congruence.
  - intros k s Hp Hv Hbefore passes Hk. rewrite (reset_sim_no_grasp _ _ Hd).
    apply (reset_loop_first_valid k _ s); try assumption. congruence.
Qed.

(** *** The calls leave the configuration as the constructor set it *)

Lemma Returned_inj {A : Type} (a b : A) : Returned a = Returned b -> a = b.
Proof.
  intros Heq.
  exact (f_equal (fun o => match o with Returned x => x | _ => a end) Heq).
Qed.







End MoveReset.

(** ** [gym.envs.yumi.yumi_constrained] *)

Section YumiSpec.
Import Rotations Transformations YumiConstrained.
Context {Sim SimState Rng : Type}.
Context `{Simulator Sim SimState} `{RandomState Rng}.
Variable move_arms : MoveArmsArgs -> Sim -> Sim * R.
Variable reset_sim_state : Sim -> Sim.
Variable sample_goal : Sim -> Rng -> list R * Rng.

Abbreviation YEnv := (@YumiConstrainedEnv Sim Rng).

Lemma length_6 (l : list R) :
  length l = 6%nat -> exists a b c d e f, l = [a; b; c; d; e; f].
Proof.
  destruct l as [|a [|b [|c [|d [|e [|f [|g l]]]]]]]; simpl; intros Hl;
    try discriminate.
  now exists a, b, c, d, e, f.
Qed.

Lemma clip_vec_box (a : list R) (n : nat) :
  length a = n ->
  length (clip_vec a (repeat (-1) n) (repeat 1 n)) = n
  /\ Forall in_unit_box (clip_vec a (repeat (-1) n) (repeat 1 n)).
Proof.
  revert n. induction a as [| x a IH]; intros n Hn; subst n; simpl.
  - split; [reflexivity | constructor].
  - destruct (IH (length a) eq_refl) as [Hl Hf]. split; [now rewrite Hl |].
    constructor; [apply clip_bounds; lra | exact Hf].
Qed.

Lemma clip_vec_id (a : list R) (n : nat) :
  length a = n -> Forall in_unit_box a ->
  clip_vec a (repeat (-1) n) (repeat 1 n) = a.
Proof.
  revert n. induction a as [| x a IH]; intros n Hn Hf; subst n; simpl.
  - reflexivity.
  - inversion Hf as [| y l Hx Hf']; subst.
    rewrite clip_id by exact Hx. now rewrite IH.
Qed.

Lemma clip_clip (x : R) : clip (clip x (-1) 1) (-1) 1 = clip x (-1) 1.
Proof. apply clip_id, clip_bounds. lra. Qed.

Lemma clip_vec_map_clip (a : list R) (n : nat) :
  length a = n ->
  clip_vec (map (fun x => clip x (-1) 1) a) (repeat (-1) n) (repeat 1 n) =
  clip_vec a (repeat (-1) n) (repeat 1 n).
Proof.
  revert n. induction a as [| x a IH]; intros n Hn; subst n; simpl.
  - reflexivity.
  - now rewrite clip_clip, IH.
Qed.

Lemma clip_vec_repeat (x : R) (n : nat) :
  clip_vec (repeat (clip x (-1) 1) n) (repeat (-1) n) (repeat 1 n) =
  clip_vec (repeat x n) (repeat (-1) n) (repeat 1 n).
Proof. induction n as [| n IH]; simpl; [reflexivity | now rewrite clip_clip, IH]. Qed.

(** What [np.clip] returns has the shape of the action space and lies in
    the unit box. *)
Lemma clip_box_spec (n : nat) (action clipped : list R) :
  clip_box n action = Some clipped ->
  length clipped = n /\ Forall in_unit_box clipped.
Proof.
  unfold clip_box. destruct (Nat.eqb_spec (length action) n) as [Hl | Hl].
  - intros Hc. apply Some_inj in Hc. subst clipped. now apply clip_vec_box.
  - destruct action as [| x [| y action]]; try discriminate.
    intros Hc. apply Some_inj in Hc. subst clipped.
    apply clip_vec_box. apply repeat_length.
Qed.

(** Clipping again changes nothing. *)
Lemma clip_box_idempotent (n : nat) (action clipped : list R) :
  clip_box n action = Some clipped -> clip_box n clipped = Some clipped.
Proof.
  intros Hc. destruct (clip_box_spec _ _ _ Hc) as [Hl Hf].
  unfold clip_box. rewrite Hl, Nat.eqb_refl. f_equal. now apply clip_vec_id.
Qed.

(** Clipping commutes with clipping each component first. *)
Lemma clip_box_map_clip (n : nat) (action : list R) :
  clip_box n (map (fun x => clip x (-1) 1) action) = clip_box n action.
Proof.
  unfold clip_box. rewrite length_map.
  destruct (Nat.eqb_spec (length action) n) as [Hl | Hl].
  - f_equal. now apply clip_vec_map_clip.
  - destruct action as [| x [| y action]]; try reflexivity.
    simpl. f_equal. apply clip_vec_repeat.
Qed.

Lemma interp_linear (x : R) :
  -1 <= x <= 1 ->
  interp x (-1) 1 0.05 0.30 = 0.05 + (x + 1) / 2 * (0.30 - 0.05)
  /\ 0.05 <= interp x (-1) 1 0.05 0.30 <= 0.30.
Proof.
  intros Hx. unfold interp.
  destruct (Rle_dec x (-1)); [| destruct (Rle_dec 1 x)]; split; lra.
Qed.

Lemma arctan2_up (y x : R) : x = 0 -> 0 < y -> arctan2 y x = PI / 2.
Proof.
  intros -> Hy. unfold arctan2.
  destruct (Rlt_dec 0 0); [lra |]. destruct (Rlt_dec 0 0); [lra |].
  destruct (Rlt_dec 0 y); [reflexivity | contradiction].
Qed.

Lemma arctan2_down (y x : R) : x = 0 -> y < 0 -> arctan2 y x = - (PI / 2).
Proof.
  intros -> Hy. unfold arctan2.
  destruct (Rlt_dec 0 0); [lra |]. destruct (Rlt_dec 0 0); [lra |].
  destruct (Rlt_dec 0 y); [lra |].
  destruct (Rlt_dec y 0); [reflexivity | contradiction].
Qed.

Lemma norm_0y (v0 v1 : R) : v0 = 0 -> 0 <= v1 -> norm [v0; v1] = v1.
Proof.
  intros -> Hv. unfold norm. simpl.
  replace (0 * 0 + (v1 * v1 + 0)) with (Rsqr v1) by (unfold Rsqr; ring).
  now apply sqrt_Rsqr.
Qed.

Lemma norm_0y0 (v0 v1 v2 : R) :
  v0 = 0 -> 0 <= v1 -> v2 = 0 -> norm [v0; v1; v2] = v1.
Proof.
  intros -> Hv ->. unfold norm. simpl.
  replace (0 * 0 + (v1 * v1 + (0 * 0 + 0))) with (Rsqr v1) by (unfold Rsqr; ring).
  now apply sqrt_Rsqr.
Qed.

(** A lateral offset composed with an unrotated centre: the offset is added
    to the second coordinate. *)
Lemma apply_tf_lateral (tx ty tz oy : R) :
  exists r,
    apply_tf [0; oy; 0; 1; 0; 0; 0] [tx; ty; tz; 1; 0; 0; 0] = Some r
    /\ firstn 3 r = [tx; ty + oy; tz].
Proof.
  eexists. split; [reflexivity |]. simpl.
  apply (f_equal2 (@cons R)); [ring |].
  apply (f_equal2 (@cons R)); [ring |].
  apply (f_equal2 (@cons R)); [ring | reflexivity].
Qed.

Lemma clip_vec_map (a : list R) (n : nat) :
  length a = n ->
  clip_vec a (repeat (-1) n) (repeat 1 n) = map (fun x => clip x (-1) 1) a.
Proof.
  revert n. induction a as [| x a IH]; intros n Hn; subst n; simpl.
  - reflexivity.
  - now rewrite IH.
Qed.

(** On an action of the shape of the action space, [np.clip] is the
    componentwise clip. *)
Lemma clip_box_same_shape (n : nat) (action : list R) :
  length action = n ->
  clip_box n action = Some (map (fun x => clip x (-1) 1) action).
Proof.
  intros Hl. unfold clip_box. rewrite Hl, Nat.eqb_refl. f_equal.
  now apply clip_vec_map.
Qed.

(** [np.clip] raises exactly on an action that has neither the shape of the
    action space nor one component. *)
Lemma clip_box_none (n : nat) (action : list R) :
  clip_box n action = None <-> length action <> n /\ length action <> 1%nat.
Proof.
  unfold clip_box. destruct (Nat.eqb_spec (length action) n) as [Hl | Hl].
  - split; [discriminate | intros [Hn _]; contradiction].
  - destruct action as [| x [| y action]]; simpl.
    + split; [intros _; split; [exact Hl | discriminate] | reflexivity].
    + split; [discriminate | intros [_ Hn]; now contradiction Hn].
    + split; [intros _; split; [exact Hl | discriminate] | reflexivity].
Qed.

(** The first component of what [np.clip] returns is the first component of
    the action, clipped. *)
Lemma clip_box_head (n : nat) (action clipped : list R) :
  (0 < n)%nat ->
  clip_box n action = Some clipped ->
  nth_error clipped 0 = Some (clip (nth 0 action 0) (-1) 1).
Proof.
  intros Hn. destruct n as [| n]; [lia |]. unfold clip_box.
  destruct (Nat.eqb_spec (length action) (S n)) as [Hl | Hl].
  - destruct action as [| x action]; [discriminate |].
    intros Hc. apply Some_inj in Hc. subst clipped. reflexivity.
  - destruct action as [| x [| y action]]; try discriminate.
    intros Hc. apply Some_inj in Hc. subst clipped. reflexivity.
Qed.

Lemma map_clip_id (a : list R) :
  Forall in_unit_box a -> map (fun x => clip x (-1) 1) a = a.
Proof.
  induction a as [| x a IH]; intros Hf; simpl; [reflexivity |].
  rewrite clip_id by exact (Forall_inv Hf).
  now rewrite IH by exact (Forall_inv_tail Hf).
Qed.

(** What [_unpack_action] reads its first two results from. *)
Lemma unpack_action_fields (self : YEnv) (a : list R) (u : Unpacked) :
  _unpack_action self a = Some u ->
  nth_error a 0 = Some (dist_between_grippers u)
  /\ grasp_center_pos_delta u = firstn 3 (skipn 1 a).
Proof.
  unfold _unpack_action.
  destruct (nth_error a 0) as [dist |]; [| discriminate]. cbn [bind].
  destruct (rotation_ctrl_enabled self);
    (destruct (fingers_ctrl_enabled self);
     [ match goal with
       | |- context [match ?l with _ => _ end] =>
           destruct l as [| l1 [| r1 [| x1 rest]]]; try discriminate
       end |]);
    cbn [bind]; intros Hu; apply Some_inj in Hu; subst u; split; reflexivity.
Qed.

(** C10: [step] clips the action componentwise to the bounds of the action
    space before it decodes it. For an action of the shape of the action
    space, what [_unpack_action] receives is the action with every
    component clipped to [[-1, 1]], and the tuple it returns is cut from
    that vector: the separation command is the clipped first component,
    the displacement the clipped next three, the finger commands the
    clipped last two. So the commands for an action are those for its
    clipped version, an action within the bounds is decoded as it is, what
    the decoder receives always lies in the unit box, and clipping what
    was clipped changes nothing. [np.clip] raises on an action that has
    neither the shape of the action space nor one component. *)
Theorem step_clips_action (self : YEnv) (action : list R) :
  step_commands self action =
    step_commands self (map (fun x => clip x (-1) 1) action)
  /\ step move_arms self action =
       step move_arms self (map (fun x => clip x (-1) 1) action)
  /\ (forall clipped : list R,
       clip_box (n_actions self) action = Some clipped ->
       Forall in_unit_box clipped
       /\ step_commands self action = commands_of self clipped
       /\ step_commands self clipped = commands_of self clipped)
  /\ step_unpacked self action =
       step_unpacked self (map (fun x => clip x (-1) 1) action)
  /\ (length action = n_actions self ->
      clip_box (n_actions self) action
        = Some (map (fun x => clip x (-1) 1) action)
      /\ step_commands self action
         = commands_of self (map (fun x => clip x (-1) 1) action)
      /\ exists u : Unpacked,
           step_unpacked self action = Some u
           /\ _unpack_action self (map (fun x => clip x (-1) 1) action) = Some u
           /\ map (fun x => clip x (-1) 1) action =
              [dist_between_grippers u] ++ grasp_center_pos_delta u
              ++ (if rotation_ctrl_enabled self
                  then grasp_center_quat_delta u else [])
              ++ (if fingers_ctrl_enabled self
                  then [l_fingers_ctrl u; r_fingers_ctrl u] else [])
           /\ dist_between_grippers u = clip (nth 0 action 0) (-1) 1
           /\ grasp_center_pos_delta u =
              map (fun x => clip x (-1) 1) (firstn 3 (skipn 1 action))
           /\ (fingers_ctrl_enabled self = true ->
               [l_fingers_ctrl u; r_fingers_ctrl u] =
               map (fun x => clip x (-1) 1) (skipn (n_actions self - 2) action)))
  /\ (length action = n_actions self -> Forall in_unit_box action ->
      clip_box (n_actions self) action = Some action
      /\ map (fun x => clip x (-1) 1) action = action
      /\ step_commands self action = commands_of self action
      /\ step_unpacked self action = _unpack_action self action)
  /\ (clip_box (n_actions self) action = None <->
      length action <> n_actions self /\ length action <> 1%nat).
Proof.
  assert (Hc : step_commands self action =
               step_commands self (map (fun x => clip x (-1) 1) action)).
  { unfold step_commands. now rewrite clip_box_map_clip. }
  assert (H4 : length action = n_actions self ->
    clip_box (n_actions self) action
      = Some (map (fun x => clip x (-1) 1) action)
    /\ step_commands self action
       = commands_of self (map (fun x => clip x (-1) 1) action)
    /\ exists u : Unpacked,
         step_unpacked self action = Some u
         /\ _unpack_action self (map (fun x => clip x (-1) 1) action) = Some u
         /\ map (fun x => clip x (-1) 1) action =
            [dist_between_grippers u] ++ grasp_center_pos_delta u
            ++ (if rotation_ctrl_enabled self
                then grasp_center_quat_delta u else [])
            ++ (if fingers_ctrl_enabled self
                then [l_fingers_ctrl u; r_fingers_ctrl u] else [])
         /\ dist_between_grippers u = clip (nth 0 action 0) (-1) 1
         /\ grasp_center_pos_delta u =
            map (fun x => clip x (-1) 1) (firstn 3 (skipn 1 action))
         /\ (fingers_ctrl_enabled self = true ->
             [l_fingers_ctrl u; r_fingers_ctrl u] =
             map (fun x => clip x (-1) 1) (skipn (n_actions self - 2) action))).
  { intros Hlen. pose proof (clip_box_same_shape _ _ Hlen) as Hclip.
    split; [exact Hclip |].
    split; [unfold step_commands; rewrite Hclip; reflexivity |].
    unfold step_unpacked. rewrite Hclip. cbn [bind].
    unfold n_actions in Hlen. unfold _unpack_action, n_actions.
    destruct (rotation_ctrl_enabled self), (fingers_ctrl_enabled self);
      simpl in Hlen;
      repeat (destruct action as [| ? action]; simpl in Hlen; try lia);
      (eexists; split; [reflexivity |]); (split; [reflexivity |]); simpl;
      repeat split; try discriminate. }
  split; [exact Hc |]. split; [unfold step; now rewrite Hc |]. split.
  { intros clipped Hclip. split; [apply (clip_box_spec _ _ _ Hclip) |].
    unfold step_commands.
    rewrite (clip_box_idempotent _ _ _ Hclip), Hclip. split; reflexivity. }
  split; [unfold step_unpacked; now rewrite clip_box_map_clip |].
  split; [exact H4 |]. split; [| apply clip_box_none].
  intros Hlen Hbox. pose proof (map_clip_id action Hbox) as Hid.
  destruct (H4 Hlen) as (Hclip & Hsc & _). rewrite Hid in Hclip, Hsc.
  split; [exact Hclip |]. split; [exact Hid |]. split; [exact Hsc |].
  unfold step_unpacked. now rewrite Hclip.
Qed.

Lemma unpack_action_4 (self : YEnv) (a0 a1 a2 a3 : R) :
  rotation_ctrl_enabled self = false -> fingers_ctrl_enabled self = false ->
  _unpack_action self [a0; a1; a2; a3] =
  Some {| dist_between_grippers := a0;
          grasp_center_pos_delta := [a1; a2; a3];
          grasp_center_quat_delta := [1; 0; 0; 0];
          l_fingers_ctrl := -1;
          r_fingers_ctrl := -1 |}.
Proof. intros Hr Hf. unfold _unpack_action. rewrite Hr, Hf. reflexivity. Qed.

Lemma unpack_action_6 (self : YEnv) (a0 a1 a2 a3 a4 a5 : R) :
  rotation_ctrl_enabled self = false -> fingers_ctrl_enabled self = true ->
  _unpack_action self [a0; a1; a2; a3; a4; a5] =
  Some {| dist_between_grippers := a0;
          grasp_center_pos_delta := [a1; a2; a3];
          grasp_center_quat_delta := [1; 0; 0; 0];
          l_fingers_ctrl := a4;
          r_fingers_ctrl := a5 |}.
Proof. intros Hr Hf. unfold _unpack_action. rewrite Hr, Hf. reflexivity. Qed.

Lemma firstn_3_3 (a b c : R) : firstn 3 [a; b; c] = [a; b; c].
Proof. reflexivity. Qed.

(** The commands for a decoded action whose separation command lies in the
    unit interval. *)
Lemma commands_of_unpacked (self : YEnv) (clipped : list R) (u : Unpacked)
  (lx ly lz rx ry rz d1 d2 d3 : R) :
  rotation_ctrl_enabled self = false ->
  _unpack_action self clipped = Some u ->
  grasp_center_pos_delta u = [d1; d2; d3] ->
  -1 <= dist_between_grippers u <= 1 ->
  get_gripper_pos self "l" = [lx; ly; lz] ->
  get_gripper_pos self "r" = [rx; ry; rz] ->
  exists args : MoveArmsArgs,
    commands_of self clipped = Some args
    /\ left_target args =
         [(lx + rx) / 2 + d1 * 0.2;
          (ly + ry) / 2 + d2 * 0.2 + interp (dist_between_grippers u) (-1) 1 0.05 0.30 / 2;
          (lz + rz) / 2 + d3 * 0.2]
    /\ right_target args =
         [(lx + rx) / 2 + d1 * 0.2;
          (ly + ry) / 2 + d2 * 0.2 + - interp (dist_between_grippers u) (-1) 1 0.05 0.30 / 2;
          (lz + rz) / 2 + d3 * 0.2]
    /\ left_yaw args = 0
    /\ right_yaw args = PI
    /\ left_grp_config args = l_fingers_ctrl u
    /\ right_grp_config args = r_fingers_ctrl u.
Proof.
  intros Hrot Hu Hdelta Hbox Hl Hr.
  destruct (interp_linear _ Hbox) as [_ Hd].
  set (d := interp (dist_between_grippers u) (-1) 1 0.05 0.30) in *.
  destruct (apply_tf_lateral ((lx + rx) / 2 + d1 * 0.2) ((ly + ry) / 2 + d2 * 0.2)
              ((lz + rz) / 2 + d3 * 0.2) (d / 2)) as (t0 & Ht0 & Hf0).
  destruct (apply_tf_lateral ((lx + rx) / 2 + d1 * 0.2) ((ly + ry) / 2 + d2 * 0.2)
              ((lz + rz) / 2 + d3 * 0.2) (- d / 2)) as (t1 & Ht1 & Hf1).
  unfold commands_of. rewrite Hu. cbn [bind].
  unfold get_grasp_center_pos. rewrite Hl, Hr, Hdelta, Hrot.
  cbn [vadd map2 bind map]. rewrite firstn_3_3.
  cbn [vadd map2 bind map length Nat.eqb negb app].
  fold d. rewrite Ht0, Ht1. cbn [bind fst snd]. rewrite Hf0, Hf1.
  cbn [firstn vsub map2 bind nth].
  set (v0 := (lx + rx) / 2 + d1 * 0.2 - ((lx + rx) / 2 + d1 * 0.2)).
  set (v1 := (ly + ry) / 2 + d2 * 0.2 + d / 2 - ((ly + ry) / 2 + d2 * 0.2 + - d / 2)).
  assert (Hv0 : v0 = 0) by (unfold v0; lra).
  assert (Hv1 : v1 = d) by (unfold v1; lra).
  assert (Hclose : allclose (norm [v0; v1] / 2) (d / 2) = true).
  { rewrite norm_0y by lra. unfold allclose. apply Rleb_true.
    rewrite Hv1. replace (d / 2 - d / 2) with 0 by lra. rewrite Rabs_R0.
    pose proof (Rabs_pos (d / 2)). lra. }
  rewrite Hclose. cbn [negb].
  eexists. split; [reflexivity |]. cbn.
  repeat split.
  - rewrite arctan2_down by lra. lra.
  - rewrite arctan2_up by lra. lra.
Qed.

(** What the decoder makes of a clipped action when the rotation control is
    disabled: a separation command in the unit interval and a displacement
    of three components. *)
Lemma clipped_unpacks (self : YEnv) (action clipped : list R) :
  rotation_ctrl_enabled self = false ->
  clip_box (n_actions self) action = Some clipped ->
  exists (u : Unpacked) (d1 d2 d3 : R),
    _unpack_action self clipped = Some u
    /\ nth_error clipped 0 = Some (dist_between_grippers u)
    /\ grasp_center_pos_delta u = [d1; d2; d3]
    /\ -1 <= dist_between_grippers u <= 1.
Proof.
  intros Hrot Hclip.
  destruct (clip_box_spec _ _ _ Hclip) as [Hlen Hbox].
  unfold n_actions in Hlen. rewrite Hrot in Hlen.
  destruct (fingers_ctrl_enabled self) eqn:Hf; simpl in Hlen.
  - destruct (length_6 _ Hlen) as (a0 & a1 & a2 & a3 & a4 & a5 & ->).
    eexists. exists a1, a2, a3.
    split; [apply unpack_action_6; assumption |].
    split; [reflexivity |]. split; [reflexivity |].
    exact (Forall_inv Hbox).
  - destruct (length_4 _ Hlen) as (a0 & a1 & a2 & a3 & ->).
    eexists. exists a1, a2, a3.
    split; [apply unpack_action_4; assumption |].
    split; [reflexivity |]. split; [reflexivity |].
    exact (Forall_inv Hbox).
Qed.

(** C9, amended: with the rotation control disabled, and for an action
    that [np.clip] accepts, [step] takes the first component of the action,
    clipped to [[-1, 1]], as the separation command and maps it linearly
    onto [[0.05, 0.30]]; the targets of the left and the right gripper are
    the target of the grasp centre (the midpoint of the grippers moved by
    0.2 times the clipped next three components) moved by plus and by
    minus half that separation along the second axis, its lateral axis, so
    their distance is the separation; and the yaw of each gripper is the
    angle of the vector between the two targets, turned by a quarter, which
    makes the two yaws differ by a half turn. With the rotation control
    enabled nothing is derived: [step] raises. *)
Theorem grasp_center_derivation (self : YEnv) (action clipped : list R)
  (lx ly lz rx ry rz : R) :
  rotation_ctrl_enabled self = false ->
  clip_box (n_actions self) action = Some clipped ->
  get_gripper_pos self "l" = [lx; ly; lz] ->
  get_gripper_pos self "r" = [rx; ry; rz] ->
  exists (u : Unpacked) (args : MoveArmsArgs) (centre target vec : list R) (d : R),
    _unpack_action self clipped = Some u
    /\ step_commands self action = Some args
    /\ -1 <= dist_between_grippers u <= 1
    /\ d = 0.05 + (dist_between_grippers u + 1) / 2 * (0.30 - 0.05)
    /\ 0.05 <= d <= 0.30
    /\ get_grasp_center_pos self = Some centre
    /\ vadd centre (map (fun x => x * 0.2) (grasp_center_pos_delta u)) = Some target
    /\ vadd target [0; d / 2; 0] = Some (left_target args)
    /\ vsub target [0; d / 2; 0] = Some (right_target args)
    /\ vsub (left_target args) (right_target args) = Some vec
    /\ norm vec = d
    /\ right_yaw args = arctan2 (nth 1 vec 0) (nth 0 vec 0) + PI / 2
    /\ left_yaw args = arctan2 (- nth 1 vec 0) (- nth 0 vec 0) + PI / 2
    /\ right_yaw args - left_yaw args = PI
    /\ dist_between_grippers u = clip (nth 0 action 0) (-1) 1
    /\ d = 0.05 + (clip (nth 0 action 0) (-1) 1 + 1) / 2 * (0.30 - 0.05)
    /\ grasp_center_pos_delta u = firstn 3 (skipn 1 clipped)
    /\ (length action = n_actions self ->
        clipped = map (fun x => clip x (-1) 1) action
        /\ grasp_center_pos_delta u =
           map (fun x => clip x (-1) 1) (firstn 3 (skipn 1 action)))
    /\ centre = [(lx + rx) / 2; (ly + ry) / 2; (lz + rz) / 2]
    /\ left_grp_config args = l_fingers_ctrl u
    /\ right_grp_config args = r_fingers_ctrl u.
Proof.
  intros Hrot Hclip Hl Hr.
  destruct (clipped_unpacks self action clipped Hrot Hclip)
    as (u & d1 & d2 & d3 & Hu & Hhead & Hdelta & Hbox).
  destruct (commands_of_unpacked self clipped u lx ly lz rx ry rz d1 d2 d3
              Hrot Hu Hdelta Hbox Hl Hr)
    as (args & Hc & Hlt & Hrt & Hly & Hry & Hlg & Hrg).
  destruct (interp_linear _ Hbox) as [Hlin Hd].
  assert (Hdist : dist_between_grippers u = clip (nth 0 action 0) (-1) 1).
  { assert (Hn : (0 < n_actions self)%nat) by (unfold n_actions; simpl; lia).
    pose proof (clip_box_head _ _ _ Hn Hclip) as Hh.
    rewrite Hhead in Hh. now apply Some_inj in Hh. }
  destruct (unpack_action_fields self clipped u Hu) as [_ Hfields].
  set (d := interp (dist_between_grippers u) (-1) 1 0.05 0.30) in *.
  exists u, args, [(lx + rx) / 2; (ly + ry) / 2; (lz + rz) / 2],
    [(lx + rx) / 2 + d1 * 0.2; (ly + ry) / 2 + d2 * 0.2; (lz + rz) / 2 + d3 * 0.2],
    [0; d; 0], d.
  split; [exact Hu |].
  split; [unfold step_commands; rewrite Hclip; exact Hc |].
  split; [exact Hbox |]. split; [exact Hlin |]. split; [exact Hd |].
  split; [unfold get_grasp_center_pos; rewrite Hl, Hr; reflexivity |].
  split; [rewrite Hdelta; reflexivity |].
  rewrite Hlt, Hrt, Hly, Hry.
  split; [cbn [vadd map2]; f_equal; vec_eq |].
  split; [cbn [vsub map2]; f_equal; vec_eq |].
  split; [cbn [vsub map2]; f_equal; vec_eq |].
  split; [apply norm_0y0; lra |].
  cbn [nth].
  split; [rewrite arctan2_up by lra; lra |].
  split; [rewrite arctan2_down by lra; lra |].
  split; [lra |].
  split; [exact Hdist |].
  split; [rewrite <- Hdist; exact Hlin |].
  split; [exact Hfields |].
  split.
  { intros Hlen. pose proof (clip_box_same_shape _ _ Hlen) as Hsame.
    rewrite Hclip in Hsame. apply Some_inj in Hsame.
    split; [exact Hsame |].
    rewrite Hfields, Hsame.
    now rewrite skipn_map, firstn_map. }
  split; [reflexivity |]. split; assumption.
Qed.

(** *** Steps and resets leave the configuration as the constructor set it *)








(** [compute_reward] reads the reward type and the distance threshold, and
    nothing else of the environment; it does not read [info]. *)
Lemma yumi_compute_reward_fields (self other : YEnv) (achieved_goal goal : list R)
  (info info' : option dict) :
  reward_type other = reward_type self ->
  distance_threshold other = distance_threshold self ->
  compute_reward other achieved_goal goal info =
  compute_reward self achieved_goal goal info'.
Proof.
  intros Hr Hd. unfold compute_reward, _is_success. now rewrite Hr, Hd.
Qed.
End YumiSpec.

(** ** The reward and the state of an episode *)

Section RewardPurity.
Context {Sim SimState Rng : Type}.
Context `{Simulator Sim SimState} `{RandomState Rng}.
Variable move_arms : YumiConstrained.MoveArmsArgs -> Sim -> Sim * R.
Variable reset_sim_state : Sim -> Sim.
Variable sample_goal : Sim -> Rng -> list R * Rng.

End RewardPurity.

(** ** The environments on the toy simulator *)

Section MoveExamples.
Import Rotations Move Examples.

(** C3, as stated, fails: with the target rotation ignored and the default
    rotation threshold the rotation conjunct always holds, so dropping it
    does not weaken the success predicate. *)
Lemma rotation_conjunct_vacuous_when_ignored :
  conjunct_present
    (Examples.toy_env (Examples.pick_and_place_config "sparse" true false) [])
    RotClose
  /\ ~ dropping_weakens
       (Examples.toy_env (Examples.pick_and_place_config "sparse" true false) [])
       RotClose.
Proof.
  split; [exact I |].
  apply ignored_rotation_never_weakens; simpl; [reflexivity | lra].
Qed.

Lemma is_success_conjunction_witness :
  dropping_weakens
    (Examples.toy_env (Examples.pick_and_place_config "sparse" false false) [])
    PosClose.
Proof.
  refine (proj1 (proj2
    (is_success_conjunction
       (Examples.toy_env (Examples.pick_and_place_config "sparse" false false) [])
       [0; 0; 0; 1; 0; 0; 0] [0; 0; 0; 1; 0; 0; 0] _ _ _ _))).
  - reflexivity.
  - reflexivity.
  - simpl. lra.
  - simpl. pose proof PI2_1. lra.
Defined.

(** The constructor accepts the defaults of [HandPickAndPlaceEnv]. *)
Lemma init_accepts_defaults :
  exists c, init (SimState := Examples.ToySim)
              {| arg_reward_type := "sparse";
                 arg_has_object := true;
                 arg_randomize_initial_arm_pos := false;
                 arg_randomize_initial_object_pos := true;
                 arg_ignore_rotation_ctrl := false;
                 arg_distance_threshold := 0.05;
                 arg_rotation_threshold := 0.1;
                 arg_ignore_target_rotation := false;
                 arg_success_on_grasp_only := false;
                 arg_grasp_state := GraspNone;
                 arg_grasp_state_reset_p := 0;
                 arg_target_in_the_air_p := 0.5;
                 arg_object_id := "original";
                 grasp_file := None |} [1; 0; 0; 0] = inr c.
Proof. eexists. reflexivity. Qed.

Lemma init_without_object_witness :
  exists e,
    init (SimState := Examples.ToySim)
      {| arg_reward_type := "dense";
         arg_has_object := false;
         arg_randomize_initial_arm_pos := false;
         arg_randomize_initial_object_pos := true;
         arg_ignore_rotation_ctrl := false;
         arg_distance_threshold := 0.05;
         arg_rotation_threshold := 0.1;
         arg_ignore_target_rotation := false;
         arg_success_on_grasp_only := false;
         arg_grasp_state := GraspNone;
         arg_grasp_state_reset_p := 0;
         arg_target_in_the_air_p := 0.5;
         arg_object_id := "original";
         grasp_file := None |} [1; 0; 0; 0] = inl e.
Proof. apply init_without_object. reflexivity. Defined.


(** A reset on the toy simulator: the first sample rolls away and is
    rejected, the second rests and is returned. *)

Lemma toy_attempt (c_ignore c_grasp : bool) (s : ToySim) (fx fy : R) (rest : list R) :
  reset_attempt
    (toy_env_at (pick_and_place_config "sparse" c_ignore c_grasp) s (fx :: fy :: rest))
    false =
  Some (toy_env_at (pick_and_place_config "sparse" c_ignore c_grasp)
          (toy_placed fx fy) rest).
Proof. reflexivity. Qed.

Lemma norm_unit6 : norm [1; 0; 0; 0; 0; 0] = 1.
Proof.
  unfold norm. simpl.
  replace (1 * 1 + (0 * 0 + (0 * 0 + (0 * 0 + (0 * 0 + (0 * 0 + 0)))))) with 1 by lra.
  apply sqrt_1.
Qed.

Lemma norm_zero6 : norm [0; 0; 0; 0; 0; 0] = 0.
Proof.
  unfold norm. simpl.
  replace (0 * 0 + (0 * 0 + (0 * 0 + (0 * 0 + (0 * 0 + (0 * 0 + 0)))))) with 0 by lra.
  apply sqrt_0.
Qed.

Lemma toy_rolling_rejected (c : @Config ToySim) (fx fy : R) (rest : list R) :
  0.43 + (1.05 - 0.43) * fy < 0.5 ->
  reset_valid (toy_env_at c (toy_placed fx fy) rest) = false.
Proof.
  intros Hy. unfold reset_valid, object_still. simpl.
  unfold toy_object_qvel. simpl.
  destruct (Rlt_dec _ _) as [_ | Hn]; [| contradiction].
  rewrite norm_unit6.
  replace (Rltb 1 0.8) with false; [reflexivity |].
  symmetry. apply Rltb_false. lra.
Qed.

Lemma toy_resting_accepted (c_ignore c_grasp : bool) (fx fy : R) (rest : list R) :
  0 <= fx <= 1 -> 0 <= fy <= 1 -> ~ 0.43 + (1.05 - 0.43) * fy < 0.5 ->
  reset_valid (toy_env_at (pick_and_place_config "sparse" c_ignore c_grasp)
                 (toy_placed fx fy) rest) = true.
Proof.
  intros Hx Hy Hn. unfold reset_valid, object_still, object_on_table. simpl.
  unfold toy_object_qvel. simpl.
  destruct (Rlt_dec _ _) as [Hl | _]; [contradiction |].
  rewrite norm_zero6.
  repeat (apply andb_true_iff; split); try reflexivity;
    try (apply Rltb_true; lra); apply Rleb_true; nra.
Qed.

Lemma toy_reset_run :
  _reset_sim 2 (toy_env (pick_and_place_config "sparse" false false) toy_draws) =
  Returned (toy_env_at (pick_and_place_config "sparse" false false)
              (toy_placed (1 / 2) (1 / 2)) []).
Proof.
  assert (Hd : fst (reset_to_grasp_draw
                      (toy_env (pick_and_place_config "sparse" false false) toy_draws))
               = false).
  { simpl. apply Rltb_false. lra. }
  rewrite (reset_sim_no_grasp _ _ Hd).
  change (snd (reset_to_grasp_draw
                 (toy_env (pick_and_place_config "sparse" false false) toy_draws)))
    with (toy_env_at (pick_and_place_config "sparse" false false) toy_initial
            [1 / 2; 0; 1 / 2; 1 / 2]).
  rewrite (reset_loop_step 1
             (toy_env_at (pick_and_place_config "sparse" false false) toy_initial
                [1 / 2; 0; 1 / 2; 1 / 2])
             (toy_env_at (pick_and_place_config "sparse" false false)
                (toy_placed (1 / 2) 0) [1 / 2; 1 / 2])
             eq_refl (toy_attempt false false _ _ _ _)).
  rewrite toy_rolling_rejected by lra.
  rewrite (reset_loop_step 0
             (toy_env_at (pick_and_place_config "sparse" false false)
                (toy_placed (1 / 2) 0) [1 / 2; 1 / 2])
             (toy_env_at (pick_and_place_config "sparse" false false)
                (toy_placed (1 / 2) (1 / 2)) [])
             eq_refl (toy_attempt false false _ _ _ _)).
  rewrite toy_resting_accepted by lra.
  reflexivity.
Qed.

Lemma reset_sim_validates_witness :
  has_object
    (config (toy_env (pick_and_place_config "sparse" false false) toy_draws)) = true
  /\ fst (reset_to_grasp_draw
            (toy_env (pick_and_place_config "sparse" false false) toy_draws)) = false
  /\ norm (get_joint_qvel "object:joint" (toy_placed (1 / 2) (1 / 2))) < 0.8.
Proof.
  assert (Hd : fst (reset_to_grasp_draw
                      (toy_env (pick_and_place_config "sparse" false false) toy_draws))
               = false).
  { simpl. apply Rltb_false. lra. }
  split; [reflexivity |]. split; [exact Hd |].
  exact (proj1 (proj1
    (reset_sim_validates 2
       (toy_env (pick_and_place_config "sparse" false false) toy_draws)
       (toy_env_at (pick_and_place_config "sparse" false false)
          (toy_placed (1 / 2) (1 / 2)) [])
       eq_refl Hd) toy_reset_run)).
Defined.

(** The sparse reward on the toy environments. *)

(** C2, as stated, fails: with the entry ['weights'] of [info] at one half,
    the sparse reward of an achieved goal is neither 0 nor -1. *)
Lemma sparse_reward_weighted_off_scale :
  _is_success (toy_env (pick_and_place_config "sparse" false false) [])
    [0; 0; 0; 1; 0; 0; 0] [0; 0; 0; 1; 0; 0; 0] = Some 1
  /\ exists r,
       compute_reward (toy_env (pick_and_place_config "sparse" false false) [])
         [0; 0; 0; 1; 0; 0; 0] [0; 0; 0; 1; 0; 0; 0]
         (Some [("weights"%string, 1 / 2)]) = Some r
       /\ r <> 0 /\ r <> -1.
Proof.
  assert (Hs : _is_success (toy_env (pick_and_place_config "sparse" false false) [])
                 [0; 0; 0; 1; 0; 0; 0] [0; 0; 0; 1; 0; 0; 0] = Some 1).
  { apply (is_success_at_goal
             (toy_env (pick_and_place_config "sparse" false false) [])); simpl; lra. }
  split; [exact Hs |].
  eexists. split.
  - apply (compute_reward_sparse
             (toy_env (pick_and_place_config "sparse" false false) [])
             _ _ _ 1 eq_refl Hs).
  - unfold weight_of. simpl. split; lra.
Qed.

(** With both arms away from their goals the sparse reward of [YumiEnv]
    is -2. *)
Lemma yumi_sparse_reward_both_away :
  Yumi.compute_reward (reach_env "both") [1; 0; 0; 1; 0; 0] [0; 0; 0; 0; 0; 0] None =
  Some (-2).
Proof.
  assert (Hn : norm [1 - 0; 0 - 0; 0 - 0] = 1) by (rewrite norm_x00; apply Rabs_R1).
  assert (Hf : Rltb 1 0.05 = false) by (apply Rltb_false; lra).
  unfold Yumi.compute_reward, Yumi._is_success. simpl.
  rewrite Hn, Hf. simpl. f_equal. lra.
Qed.

Lemma sparse_reward_values_witness :
  (exists r,
     Yumi.compute_reward (reach_env "both") [1; 0; 0; 1; 0; 0] [0; 0; 0; 0; 0; 0] None
       = Some r
     /\ (r = -2 \/ r = -1 \/ r = 0))
  /\ (exists s_l r,
        Yumi._is_success (reach_env "left") [1; 0; 0] [0; 0; 0] = Some s_l
        /\ Yumi.compute_reward (reach_env "left") [1; 0; 0; 0; 0; 0]
             [0; 0; 0; 0; 0; 0] None = Some r
        /\ r = s_l - 1).
Proof.
  split.
  - destruct (sparse_reward_values
                (toy_env (pick_and_place_config "sparse" false false) [])
                (reach_env "both")
                [0; 0; 0; 1; 0; 0; 0] [0; 0; 0; 1; 0; 0; 0]
                [1; 0; 0; 1; 0; 0] [0; 0; 0; 0; 0; 0] None
                eq_refl eq_refl eq_refl eq_refl eq_refl eq_refl)
      as [_ (s_l & s_r & r & _ & _ & Hr & _ & _ & Hv & _)].
    exists r. split; [exact Hr | exact Hv].
  - destruct (sparse_reward_values
                (toy_env (pick_and_place_config "sparse" false false) [])
                (reach_env "left")
                [0; 0; 0; 1; 0; 0; 0] [0; 0; 0; 1; 0; 0; 0]
                [1; 0; 0; 0; 0; 0] [0; 0; 0; 0; 0; 0] None
                eq_refl eq_refl eq_refl eq_refl eq_refl eq_refl)
      as [_ (s_l & s_r & r & Hsl & _ & Hr & _ & _ & _ & _ & _ & _ & _ & _ & Hleft & _)].
    exists s_l, r. split; [exact Hsl |]. split; [exact Hr | exact (Hleft eq_refl)].
Defined.
End MoveExamples.

(** ** The dual-arm environment on the toy simulator *)

Section YumiExamples.
Import Rotations Transformations YumiConstrained Examples.

(** An action outside the bounds is decoded as its clipped version. *)
Lemma toy_action_clipped : clip_box 4 [5; 0; 0; -3] = Some [1; 0; 0; -1].
Proof.
  unfold clip_box. simpl. f_equal.
  rewrite !(clip_id 0) by lra.
  assert (H5 : clip 5 (-1) 1 = 1).
  { unfold clip, Rmin, Rmax.
    destruct (Rle_dec 5 1); [lra |]. destruct (Rle_dec (-1) 1); [reflexivity | lra]. }
  assert (H3 : clip (-3) (-1) 1 = -1).
  { unfold clip, Rmin, Rmax.
    destruct (Rle_dec (-3) 1); [| lra]. destruct (Rle_dec (-1) (-3)); [lra | reflexivity]. }
  now rewrite H5, H3.
Qed.


Lemma grasp_center_derivation_witness :
  exists (u : Unpacked) (args : MoveArmsArgs),
    _unpack_action (toy_yumi "dense" false)
      (clip_vec [2; 0; 0; 0] (repeat (-1) 4) (repeat 1 4)) = Some u
    /\ dist_between_grippers u = clip 2 (-1) 1
    /\ step_commands (toy_yumi "dense" false) [2; 0; 0; 0] = Some args
    /\ right_yaw args - left_yaw args = PI.
Proof.
  assert (Hl : get_gripper_pos (toy_yumi "dense" false) "l" = [1.05; 0.75; 0.65])
    by reflexivity.
  assert (Hr : get_gripper_pos (toy_yumi "dense" false) "r" = [1.05; 0.75; 0.65])
    by reflexivity.
  destruct (grasp_center_derivation (toy_yumi "dense" false) [2; 0; 0; 0]
              (clip_vec [2; 0; 0; 0] (repeat (-1) 4) (repeat 1 4))
              1.05 0.75 0.65 1.05 0.75 0.65 eq_refl eq_refl Hl Hr)
    as (u & args & centre & target & vec & d & Hu & Hs & _ & _ & _ & _ & _ & _ & _
        & _ & _ & _ & _ & Hyaw & Hdist & _).
  exists u, args.
  split; [exact Hu |]. split; [exact Hdist |]. split; [exact Hs | exact Hyaw].
Defined.

(** C9, as stated, fails: with the rotation control enabled, an action of
    the shape of the action space and within its bounds gives no gripper
    targets; [step] raises. *)
Lemma grasp_center_not_derived_with_rotation_ctrl :
  rotation_ctrl_enabled toy_yumi_rotating = true
  /\ length [0; 0; 0; 0; 1; 0; 0; 0] = n_actions toy_yumi_rotating
  /\ clip_box (n_actions toy_yumi_rotating) [0; 0; 0; 0; 1; 0; 0; 0]
     = Some (map (fun x => clip x (-1) 1) [0; 0; 0; 0; 1; 0; 0; 0])
  /\ step_commands toy_yumi_rotating [0; 0; 0; 0; 1; 0; 0; 0] = None
  /\ step toy_move_arms toy_yumi_rotating [0; 0; 0; 0; 1; 0; 0; 0] = None.
Proof. repeat split; reflexivity. Qed.

(** An action beyond the bounds on the toy environment: the decoder receives
    it clipped. *)
Lemma step_clips_action_witness :
  exists u : Unpacked,
    step_unpacked (toy_yumi "dense" false) [5; 0; 0; -3] = Some u
    /\ dist_between_grippers u = clip 5 (-1) 1
    /\ grasp_center_pos_delta u = [clip 0 (-1) 1; clip 0 (-1) 1; clip (-3) (-1) 1].
Proof.
  destruct (step_clips_action toy_move_arms (toy_yumi "dense" false) [5; 0; 0; -3])
    as (_ & _ & _ & _ & H4 & _).
  destruct (H4 eq_refl) as (_ & _ & u & Hu & _ & _ & Hdist & Hdelta & _).
  exists u. split; [exact Hu |]. split; [exact Hdist | exact Hdelta].
Defined.

End YumiExamples.

(** * More of the code *)

(** ** [gym.utils.transformations]: the algebra of poses *)

Section TransformationsAlgebra.
Import Rotations Transformations.

(** The identity pose is neutral for [apply_tf] on both sides, for every
    7-vector and whatever the norm of its quaternion. *)
Theorem apply_tf_identity (x y z qw qx qy qz : R) :
  apply_tf [0; 0; 0; 1; 0; 0; 0] [x; y; z; qw; qx; qy; qz]
    = Some [x; y; z; qw; qx; qy; qz]
  /\ apply_tf [x; y; z; qw; qx; qy; qz] [0; 0; 0; 1; 0; 0; 0]
    = Some [x; y; z; qw; qx; qy; qz].
Proof.
  split; unfold apply_tf; simpl; f_equal; vec_eq; ring.
Qed.

(** Between two positions [apply_tf] is the sum of the vectors, and the
    result is a position. *)
Theorem apply_tf_positions (ax ay az wx wy wz : R) :
  apply_tf [ax; ay; az] [wx; wy; wz] = Some [wx + ax; wy + ay; wz + az].
Proof.
  unfold apply_tf. simpl. f_equal. vec_eq; ring.
Qed.

(** [apply_tf] is associative on 7-vectors: composing [b_to_c] onto the
    composition of [a_to_b] and [world_to_a] is composing the composition of
    [b_to_c] and [a_to_b] onto [world_to_a]. *)
Theorem apply_tf_assoc
  (cx cy cz cw ci cj ck bx by' bz bw bi bj bk ax ay az aw ai aj ak : R) :
  bind (apply_tf [bx; by'; bz; bw; bi; bj; bk] [ax; ay; az; aw; ai; aj; ak])
       (fun world_to_b => apply_tf [cx; cy; cz; cw; ci; cj; ck] world_to_b)
  = bind (apply_tf [cx; cy; cz; cw; ci; cj; ck] [bx; by'; bz; bw; bi; bj; bk])
         (fun a_to_c => apply_tf a_to_c [ax; ay; az; aw; ai; aj; ak]).
Proof.
  unfold apply_tf. simpl. f_equal. vec_eq; ring.
Qed.

(** The relative pose of a frame with a unit quaternion to itself is the
    identity pose. *)
Theorem get_tf_self (x y z qw qx qy qz : R) :
  qw * qw + qx * qx + qy * qy + qz * qz = 1 ->
  get_tf [x; y; z; qw; qx; qy; qz] [x; y; z; qw; qx; qy; qz]
    = Some [0; 0; 0; 1; 0; 0; 0].
Proof.
  intros Hu. unfold get_tf. simpl. f_equal.
  apply (f_equal2 (@cons R)); [ring |].
  apply (f_equal2 (@cons R)); [ring |].
  apply (f_equal2 (@cons R)); [ring |].
  apply (f_equal2 (@cons R)); [rewrite <- Hu; ring |].
  vec_eq; ring.
Qed.

(** [apply_tf] after [get_tf] against the same reference with a unit
    quaternion gives the position of the pose back, and the whole pose when
    the pose and the reference have the same orientation, as the two poses
    of [TFDebugger.step] have. *)
Theorem apply_tf_get_tf_same_orientation
  (bx by' bz bw bi bj bk ax ay az aw ai aj ak : R) :
  aw * aw + ai * ai + aj * aj + ak * ak = 1 ->
  exists r,
    bind (get_tf [bx; by'; bz; bw; bi; bj; bk] [ax; ay; az; aw; ai; aj; ak])
         (fun a_to_b => apply_tf a_to_b [ax; ay; az; aw; ai; aj; ak]) = Some r
    /\ firstn 3 r = [bx; by'; bz]
    /\ ([bw; bi; bj; bk] = [aw; ai; aj; ak] -> r = [bx; by'; bz; bw; bi; bj; bk]).
Proof.
  intros Hu. eexists. split; [unfold get_tf, apply_tf; simpl; reflexivity |].
  set (N := aw * aw + ai * ai + aj * aj + ak * ak) in Hu.
  split.
  - simpl.
    apply (f_equal2 (@cons R));
      [transitivity (ax + N * N * (bx - ax)); [unfold N; ring | rewrite Hu; ring] |].
    apply (f_equal2 (@cons R));
      [transitivity (ay + N * N * (by' - ay)); [unfold N; ring | rewrite Hu; ring] |].
    apply (f_equal2 (@cons R));
      [transitivity (az + N * N * (bz - az)); [unfold N; ring | rewrite Hu; ring] |].
    reflexivity.
  - intros Hq.
    assert (Hw : bw = aw) by exact (f_equal (fun l => nth 0 l 0) Hq).
    assert (Hi : bi = ai) by exact (f_equal (fun l => nth 1 l 0) Hq).
    assert (Hj : bj = aj) by exact (f_equal (fun l => nth 2 l 0) Hq).
    assert (Hk : bk = ak) by exact (f_equal (fun l => nth 3 l 0) Hq).
    clear Hq. subst bw bi bj bk.
    apply (f_equal2 (@cons R));
      [transitivity (ax + N * N * (bx - ax)); [unfold N; ring | rewrite Hu; ring] |].
    apply (f_equal2 (@cons R));
      [transitivity (ay + N * N * (by' - ay)); [unfold N; ring | rewrite Hu; ring] |].
    apply (f_equal2 (@cons R));
      [transitivity (az + N * N * (bz - az)); [unfold N; ring | rewrite Hu; ring] |].
    apply (f_equal2 (@cons R));
      [transitivity (N * aw); [unfold N; ring | rewrite Hu; ring] |].
    apply (f_equal2 (@cons R));
      [transitivity (N * ai); [unfold N; ring | rewrite Hu; ring] |].
    apply (f_equal2 (@cons R));
      [transitivity (N * aj); [unfold N; ring | rewrite Hu; ring] |].
    apply (f_equal2 (@cons R));
      [transitivity (N * ak); [unfold N; ring | rewrite Hu; ring] |].
    reflexivity.
Qed.

Lemma get_tf_self_witness :
  get_tf [1; 2; 3; 3 / 5; 4 / 5; 0; 0] [1; 2; 3; 3 / 5; 4 / 5; 0; 0]
    = Some [0; 0; 0; 1; 0; 0; 0].
Proof. apply get_tf_self. lra. Defined.

Lemma apply_tf_get_tf_same_orientation_witness :
  exists r,
    bind (get_tf [1; 2; 3; 3 / 5; 4 / 5; 0; 0] [4; 5; 6; 3 / 5; 4 / 5; 0; 0])
         (fun a_to_b => apply_tf a_to_b [4; 5; 6; 3 / 5; 4 / 5; 0; 0]) = Some r
    /\ firstn 3 r = [1; 2; 3]
    /\ ([3 / 5; 4 / 5; 0; 0] = [3 / 5; 4 / 5; 0; 0] ->
        r = [1; 2; 3; 3 / 5; 4 / 5; 0; 0]).
Proof.
  apply (apply_tf_get_tf_same_orientation
           1 2 3 (3 / 5) (4 / 5) 0 0 4 5 6 (3 / 5) (4 / 5) 0 0).
  lra.
Defined.

Lemma normalize_angles_low (t : R) : 0 <= t < PI -> normalize_angles t = t.
Proof.
  intros Ht. unfold normalize_angles. rewrite py_mod_small; lra.
Qed.

Lemma normalize_angles_high (t : R) :
  PI <= t <= 2 * PI -> normalize_angles t = t - 2 * PI.
Proof.
  intros Ht. unfold normalize_angles. pose proof PI_RGT_0 as HPI.
  rewrite py_mod_second; lra.
Qed.

Lemma abs_normalize_angles_reflect (t : R) :
  0 <= t <= 2 * PI ->
  Rabs (normalize_angles (2 * PI - t)) = Rabs (normalize_angles t).
Proof.
  intros Ht. pose proof PI_RGT_0 as HPI.
  destruct (Rlt_dec t PI) as [Hlt | Hge].
  - rewrite (normalize_angles_low t) by lra.
    destruct (Req_dec t 0) as [-> | Hnz].
    + replace (2 * PI - 0) with (2 * PI) by lra.
      rewrite normalize_angles_2PI. reflexivity.
    + rewrite normalize_angles_high by lra.
      replace (2 * PI - t - 2 * PI) with (- t) by lra. apply Rabs_Ropp.
  - destruct (Req_dec t PI) as [-> | Hne].
    + replace (2 * PI - PI) with PI by lra. reflexivity.
    + rewrite (normalize_angles_high t) by lra.
      rewrite normalize_angles_low by lra.
      replace (t - 2 * PI) with (- (2 * PI - t)) by lra.
      symmetry. apply Rabs_Ropp.
Qed.

Lemma clip_opp (x : R) : clip (- x) (-1) 1 = - clip x (-1) 1.
Proof.
  unfold clip, Rmax, Rmin.
  destruct (Rle_dec (- x) 1), (Rle_dec x 1);
    repeat match goal with |- context [Rle_dec ?a ?b] => destruct (Rle_dec a b) end;
    lra.
Qed.

(** [quat_angle_diff] is symmetric in its two quaternions, and it does not
    change when one of them is negated: a rotation has one distance to
    another, whichever of its two quaternions stands for it. *)
Theorem quat_angle_diff_symmetric (aw ai aj ak bw bi bj bk : R) :
  quat_angle_diff [aw; ai; aj; ak] [bw; bi; bj; bk]
    = quat_angle_diff [bw; bi; bj; bk] [aw; ai; aj; ak]
  /\ quat_angle_diff [aw; ai; aj; ak] (map Ropp [bw; bi; bj; bk])
    = quat_angle_diff [aw; ai; aj; ak] [bw; bi; bj; bk]
  /\ quat_angle_diff (map Ropp [aw; ai; aj; ak]) [bw; bi; bj; bk]
    = quat_angle_diff [aw; ai; aj; ak] [bw; bi; bj; bk].
Proof.
  unfold quat_angle_diff. simpl.
  set (X := aw * bw - ai * - bi - aj * - bj - ak * - bk).
  assert (Hflip : Rabs (normalize_angles (2 * acos (clip (- X) (-1) 1)))
                  = Rabs (normalize_angles (2 * acos (clip X (-1) 1)))).
  { rewrite clip_opp, acos_opp.
    replace (2 * (PI - acos (clip X (-1) 1)))
      with (2 * PI - 2 * acos (clip X (-1) 1)) by lra.
    apply abs_normalize_angles_reflect. apply acos_range_2. }
  split; [| split].
  - replace (bw * aw - bi * - ai - bj * - aj - bk * - ak) with X
      by (unfold X; ring).
    reflexivity.
  - replace (aw * - bw - ai * - - bi - aj * - - bj - ak * - - bk) with (- X)
      by (unfold X; ring).
    now rewrite Hflip.
  - replace (- aw * bw - - ai * - bi - - aj * - bj - - ak * - bk) with (- X)
      by (unfold X; ring).
    now rewrite Hflip.
Qed.

End TransformationsAlgebra.

(** ** [gym.envs.robotics.hand.move]: distances and sampled goals *)

Section MoveGoals.
Import Rotations Move.
Context {Sim SimState Rng : Type}.
Context `{Simulator Sim SimState} `{RandomState Rng}.

Abbreviation Env := (@MovingHandEnv Sim SimState Rng).

(** On 7-vectors [_goal_distance] is defined, does not depend on the order
    of its two goals, and returns a position distance that is not negative
    and a rotation distance between 0 and 2 pi, which is 0 when the target
    rotation is ignored. *)
Theorem goal_distance_metric
  (a1 a2 a3 a4 a5 a6 a7 b1 b2 b3 b4 b5 b6 b7 : R) (ignore : bool) :
  exists d_pos d_rot,
    _goal_distance [a1; a2; a3; a4; a5; a6; a7] [b1; b2; b3; b4; b5; b6; b7] ignore
      = Some (d_pos, d_rot)
    /\ _goal_distance [b1; b2; b3; b4; b5; b6; b7] [a1; a2; a3; a4; a5; a6; a7] ignore
      = Some (d_pos, d_rot)
    /\ 0 <= d_pos
    /\ 0 <= d_rot <= 2 * PI
    /\ (ignore = true -> d_rot = 0).
Proof.
  rewrite !goal_distance_eq. do 2 eexists. split; [reflexivity |].
  assert (Hn : norm [b1 - a1; b2 - a2; b3 - a3] = norm [a1 - b1; a2 - b2; a3 - b3])
    by (unfold norm; f_equal; simpl; ring).
  assert (Hx : b4 * a4 - b5 * - a5 - b6 * - a6 - b7 * - a7
               = a4 * b4 - a5 * - b5 - a6 * - b6 - a7 * - b7) by ring.
  pose proof PI_RGT_0 as HPI.
  split; [rewrite Hn, Hx; reflexivity |].
  split; [apply norm_nonneg |].
  destruct ignore.
  - split; [lra | reflexivity].
  - split; [apply acos_range_2 | discriminate].
Qed.

Lemma norm_same3 (x y z : R) : norm [x - x; y - y; z - z] = 0.
Proof.
  unfold norm. simpl.
  replace ((x - x) * (x - x) + ((y - y) * (y - y) + ((z - z) * (z - z) + 0)))
    with 0 by ring.
  apply sqrt_0.
Qed.

(** Whatever the position distance, a rotation distance that is not below
    the threshold makes the score 0. *)
Lemma is_success_rotation_far (self : Env) (achieved_goal desired_goal : list R)
  (d_pos d_rot : R) :
  length achieved_goal = goal_dim self ->
  length desired_goal = goal_dim self ->
  _goal_distance (firstn 7 achieved_goal) (firstn 7 desired_goal)
    (ignore_target_rotation (config self)) = Some (d_pos, d_rot) ->
  ~ d_rot < rotation_threshold (config self) ->
  _is_success self achieved_goal desired_goal = Some 0.
Proof.
  intros La Lg Hgd Hfar.
  destruct (is_success_value self achieved_goal desired_goal La Lg)
    as (dp & dr & Hgd' & Hs).
  rewrite Hgd in Hgd'. apply Some_pair_inj in Hgd'. destruct Hgd' as [<- <-].
  rewrite Hs. f_equal.
  apply Rltb_false in Hfar. rewrite Hfar, andb_false_r. reflexivity.
Qed.

(** [_goal_distance] tells a unit quaternion from its negation, which
    stands for the same rotation: between two goals at one position with
    opposite quaternions the rotation distance is 2 pi, so with the target
    rotation not ignored and a threshold of at most 2 pi the goal does not
    count as achieved. *)
Theorem goal_distance_antipodal (self : Env) (x y z qw qx qy qz d d' : R) :
  qw * qw + qx * qx + qy * qy + qz * qz = 1 ->
  ignore_target_rotation (config self) = false ->
  rotation_threshold (config self) <= 2 * PI ->
  _goal_distance [x; y; z; qw; qx; qy; qz] [x; y; z; - qw; - qx; - qy; - qz] false
    = Some (0, 2 * PI)
  /\ _is_success self (goal_of self [x; y; z; qw; qx; qy; qz] d)
                      (goal_of self [x; y; z; - qw; - qx; - qy; - qz] d') = Some 0.
Proof.
  intros Hu Hign Hthr.
  assert (Hgd : _goal_distance [x; y; z; qw; qx; qy; qz]
                  [x; y; z; - qw; - qx; - qy; - qz] false = Some (0, 2 * PI)).
  { rewrite goal_distance_eq, norm_same3.
    replace (qw * - qw - qx * - - qx - qy * - - qy - qz * - - qz)
      with (- (qw * qw + qx * qx + qy * qy + qz * qz)) by ring.
    rewrite Hu. replace (- (1)) with (-1) by lra.
    rewrite clip_id by lra. rewrite acos_m1. reflexivity. }
  split; [exact Hgd |].
  apply (is_success_rotation_far self _ _ 0 (2 * PI));
    try (now apply goal_of_length).
  - rewrite !goal_of_firstn, Hign. exact Hgd.
  - lra.
Qed.

Lemma uniform_vec_length (lo hi : list R) (g : Rng) :
  length lo = length hi -> length (fst (uniform_vec lo hi g)) = length lo.
Proof.
  revert hi g. induction lo as [| l lo IH]; intros [| h hi] g Hl;
    try discriminate; [reflexivity |].
  simpl. destruct (uniform l h g) as [x g1].
  specialize (IH hi g1 ltac:(simpl in Hl; lia)).
  destruct (uniform_vec lo hi g1) as [xs g2]. simpl in *. now rewrite IH.
Qed.

(** The goal [_sample_goal] returns: a point with a zero quaternion, and the
    grasp distance 0 when the goals carry it. *)
Lemma sample_goal_shape (self : Env) :
  length (fst (table_safe_bounds (config self))) = 2%nat ->
  length (snd (table_safe_bounds (config self))) = 2%nat ->
  exists gx gy gz,
    fst (_sample_goal self) = goal_of self [gx; gy; gz; 0; 0; 0; 0] 0.
Proof.
  intros Hlo Hhi. unfold _sample_goal, goal_of.
  destruct (table_safe_bounds (config self)) as [lo hi]. simpl in Hlo, Hhi.
  pose proof (uniform_vec_length lo hi (np_random self) ltac:(lia)) as Hxy.
  destruct (uniform_vec lo hi (np_random self)) as [xy g]. simpl in Hxy.
  rewrite Hlo in Hxy.
  destruct xy as [| gx [| gy [| w xy]]]; try discriminate.
  destruct (uniform 0 1 g) as [u g'].
  destruct (Rltb u (target_in_the_air_p (config self))).
  - destruct (uniform 0 0.45 g') as [dz g''].
    do 3 eexists. destruct (success_on_grasp_only (config self)); reflexivity.
  - do 3 eexists. destruct (success_on_grasp_only (config self)); reflexivity.
Qed.

Lemma angle_to_zero_quaternion (qw qx qy qz : R) :
  2 * acos (clip (qw * 0 - qx * - 0 - qy * - 0 - qz * - 0) (-1) 1) = PI.
Proof.
  replace (qw * 0 - qx * - 0 - qy * - 0 - qz * - 0) with 0 by ring.
  rewrite clip_id by lra. rewrite acos_0. lra.
Qed.

(** The goals [_sample_goal] returns carry the zero quaternion, from which
    every quaternion has the rotation distance pi. So with the target
    rotation not ignored and a rotation threshold of at most pi, no achieved
    goal counts as a success against a sampled goal, and the sparse reward
    is -1. *)
Theorem sampled_goal_never_achieved (self : Env) (achieved_goal : list R)
  (info : option dict) :
  length (fst (table_safe_bounds (config self))) = 2%nat ->
  length (snd (table_safe_bounds (config self))) = 2%nat ->
  ignore_target_rotation (config self) = false ->
  rotation_threshold (config self) <= PI ->
  length achieved_goal = goal_dim self ->
  _is_success self achieved_goal (fst (_sample_goal self)) = Some 0
  /\ (reward_type (config self) = "sparse"%string ->
      compute_reward self achieved_goal (fst (_sample_goal self)) info = Some (-1)).
Proof.
  intros Hlo Hhi Hign Hthr La.
  destruct (sample_goal_shape self Hlo Hhi) as (gx & gy & gz & Hg).
  rewrite Hg.
  assert (Hs : _is_success self achieved_goal (goal_of self [gx; gy; gz; 0; 0; 0; 0] 0)
               = Some 0).
  { pose proof (goal_dim_cases self) as Hd.
    assert (L7 : length (firstn 7 achieved_goal) = 7%nat)
      by (eapply firstn_7_length; eauto).
    destruct (length_7 _ L7) as (a1 & a2 & a3 & a4 & a5 & a6 & a7 & Ha).
    apply (is_success_rotation_far self _ _
             (norm [a1 - gx; a2 - gy; a3 - gz]) PI);
      [exact La | now apply goal_of_length | | lra].
    rewrite goal_of_firstn, Ha, goal_distance_eq, Hign.
    now rewrite angle_to_zero_quaternion. }
  split; [exact Hs |].
  intros Hsp. rewrite (compute_reward_sparse self _ _ info 0 Hsp Hs).
  f_equal. lra.
Qed.

(** The goals [_sample_goal] returns lie within the table-safe bounds, at
    the height offset of the object (0 without an object) or up to 0.45
    above it, when the generator draws within the interval it is asked
    for; they have the shape of the environment's goals and pass
    [_check_range]. *)
Theorem sample_goal_in_range (self : Env) (lx ly hx hy : R) :
  (forall (lo hi : R) (g : Rng), lo <= hi -> lo <= fst (uniform lo hi g) <= hi) ->
  table_safe_bounds (config self) = ([lx; ly], [hx; hy]) ->
  lx <= hx -> ly <= hy ->
  exists gx gy gz,
    fst (_sample_goal self) = goal_of self [gx; gy; gz; 0; 0; 0; 0] 0
    /\ length (fst (_sample_goal self)) = goal_dim self
    /\ lx <= gx <= hx /\ ly <= gy <= hy
    /\ (if has_object (config self) then height_offset self else 0) <= gz
       <= (if has_object (config self) then height_offset self else 0) + 0.45
    /\ _check_range (firstn 2 (fst (_sample_goal self))) [lx; ly] [hx; hy] true = true.
Proof.
  intros Hrng Hb Hx Hy. unfold _sample_goal. rewrite Hb. simpl.
  pose proof (Hrng lx hx (np_random self) Hx) as Hgx.
  destruct (uniform lx hx (np_random self)) as [gx g1]. simpl in Hgx.
  pose proof (Hrng ly hy g1 Hy) as Hgy.
  destruct (uniform ly hy g1) as [gy g2]. simpl in Hgy.
  destruct (uniform 0 1 g2) as [u g3].
  set (z0 := if has_object (config self) then height_offset self else 0).
  assert (Hin : forall gz : R,
             _check_range (firstn 2 (goal_of self [gx; gy; gz; 0; 0; 0; 0] 0))
               [lx; ly] [hx; hy] true = true).
  { intros gz. unfold goal_of. destruct (success_on_grasp_only (config self)); simpl;
      repeat (apply andb_true_iff; split); try reflexivity; apply Rleb_true; lra. }
  destruct (Rltb u (target_in_the_air_p (config self))).
  - pose proof (Hrng 0 0.45 g3 ltac:(lra)) as Hdz.
    destruct (uniform 0 0.45 g3) as [dz g4]. simpl in Hdz.
    exists gx, gy, (z0 + dz).
    assert (Hg : fst (let goal := [gx; gy; z0 + dz; 0; 0; 0; 0] in
                      let goal0 := if success_on_grasp_only (config self)
                                   then goal ++ [0] else goal in
                      (goal0, with_np_random self g4))
                 = goal_of self [gx; gy; z0 + dz; 0; 0; 0; 0] 0) by reflexivity.
    simpl in Hg. simpl. rewrite Hg.
    split; [reflexivity |]. split; [now apply goal_of_length |].
    split; [exact Hgx |]. split; [exact Hgy |]. split; [lra | apply Hin].
  - exists gx, gy, z0.
    assert (Hg : fst (let goal := [gx; gy; z0; 0; 0; 0; 0] in
                      let goal0 := if success_on_grasp_only (config self)
                                   then goal ++ [0] else goal in
                      (goal0, with_np_random self g3))
                 = goal_of self [gx; gy; z0; 0; 0; 0; 0] 0) by reflexivity.
    simpl in Hg. simpl. rewrite Hg.
    split; [reflexivity |]. split; [now apply goal_of_length |].
    split; [exact Hgx |]. split; [exact Hgy |]. split; [lra | apply Hin].
Qed.

End MoveGoals.

(** ** [gym.envs.robotics.hand.move]: rewards on the environment's own goals,
    arm commands and what a reset leaves alone *)

Section MoveCommands.
Import Rotations Move.
Context {Sim SimState Rng : Type}.
Context `{Simulator Sim SimState} `{RandomState Rng}.

Abbreviation Env := (@MovingHandEnv Sim SimState Rng).

(** What holds of a configuration the constructor returns. *)
Lemma init_accepted (a : @InitArgs SimState) (arm_quat : list R) (c : @Config SimState) :
  init a arm_quat = inr c ->
  has_object c = true
  /\ (success_on_grasp_only c = true -> reward_type c = "sparse"%string)
  /\ table_safe_bounds c = ([1.10; 0.43], [1.49; 1.05])
  /\ forearm_bounds c = ([0.65; 0.3; 0.42], [1.75; 1.2; 1.0]).
Proof.
  unfold init.
  set (loaded := match arg_grasp_state a with
                 | GraspBool true => _
                 | _ => _
                 end).
  destruct loaded as [e | gs]; [intros Hc; discriminate Hc |].
  destruct (_ && Rleb _ 0); [intros Hc; discriminate Hc |].
  destruct (arg_ignore_rotation_ctrl a && negb (arg_ignore_target_rotation a));
    [intros Hc; discriminate Hc |].
  destruct (arg_success_on_grasp_only a
            && negb (String.eqb (arg_reward_type a) "sparse")) eqn:E2;
    [intros Hc; discriminate Hc |].
  destruct (arg_success_on_grasp_only a && negb (arg_has_object a));
    [intros Hc; discriminate Hc |].
  destruct (arg_has_object a) eqn:Ho;
    [destruct (existsb (String.eqb (arg_object_id a)) OBJECTS) |];
    try (intros Hc; discriminate Hc).
  intros Hc.
  apply (f_equal (fun r => match r with inr x => x | inl _ => c end)) in Hc.
  subst c. simpl. split; [reflexivity |]. split; [| split; reflexivity].
  intros Hg. rewrite Hg in E2. simpl in E2.
  destruct (String.eqb_spec (arg_reward_type a) "sparse"); [assumption | discriminate].
Qed.

(** With the shapes the simulator gives positions and quaternions, the
    achieved goal has the shape of the environment's goals. *)
Lemma get_achieved_goal_shape (self : Env) :
  has_object (config self) = true ->
  length (get_body_xpos "object" (sim self)) = 3%nat ->
  length (get_body_xquat "object" (sim self)) = 4%nat ->
  length (get_site_xpos "robot0:palm_center" (sim self)) = 3%nat ->
  exists achieved,
    _get_achieved_goal self = Some achieved /\ length achieved = goal_dim self.
Proof.
  intros Ho Hp Hq Hs.
  destruct (length_3 _ Hp) as (p1 & p2 & p3 & Ep).
  destruct (length_4 _ Hq) as (q1 & q2 & q3 & q4 & Eq).
  destruct (length_3 _ Hs) as (s1 & s2 & s3 & Es).
  unfold _get_achieved_goal, goal_dim, _get_object_pose, _get_body_pose,
    _get_palm_pose, _get_site_pose.
  rewrite Ho, Ep, Eq, Es.
  destruct (ignore_target_rotation (config self)),
           (success_on_grasp_only (config self));
    simpl; eexists; split; reflexivity.
Qed.

(** For a configuration the constructor accepts, [compute_reward] is
    defined on the achieved goal of the environment against the goal it
    samples: the two have the same shape, of 8 components under
    [success_on_grasp_only], which the constructor only accepts with the
    sparse reward, the one that reads the first 7. *)
Theorem reward_defined_on_own_goals (self : Env) (a : @InitArgs SimState)
  (arm_quat : list R) (info : option dict) :
  init a arm_quat = inr (config self) ->
  length (get_body_xpos "object" (sim self)) = 3%nat ->
  length (get_body_xquat "object" (sim self)) = 4%nat ->
  length (get_site_xpos "robot0:palm_center" (sim self)) = 3%nat ->
  exists achieved r,
    _get_achieved_goal self = Some achieved
    /\ length achieved = goal_dim self
    /\ length (fst (_sample_goal self)) = goal_dim self
    /\ compute_reward self achieved (fst (_sample_goal self)) info = Some r.
Proof.
  intros Hinit Hp Hq Hs.
  destruct (init_accepted _ _ _ Hinit) as (Ho & Hsparse & Hb & _).
  destruct (get_achieved_goal_shape self Ho Hp Hq Hs) as (achieved & Ha & La).
  destruct (sample_goal_shape self) as (gx & gy & gz & Hg);
    try (rewrite Hb; reflexivity).
  assert (Lg : length (fst (_sample_goal self)) = goal_dim self)
    by (rewrite Hg; now apply goal_of_length).
  exists achieved.
  destruct (String.eqb (reward_type (config self)) "sparse") eqn:Hr.
  - apply String.eqb_eq in Hr.
    destruct (is_success_iff self achieved (fst (_sample_goal self)) La Lg)
      as (s & Hsucc & _).
    eexists. repeat (split; [eassumption |]).
    apply (compute_reward_sparse self _ _ info s Hr Hsucc).
  - assert (Hgo : success_on_grasp_only (config self) = false).
    { destruct (success_on_grasp_only (config self)); [| reflexivity].
      rewrite (Hsparse eq_refl) in Hr. discriminate. }
    unfold goal_dim in La, Lg. rewrite Hgo in La, Lg.
    destruct (goal_distance_defined achieved (fst (_sample_goal self))
                (ignore_target_rotation (config self)) La Lg)
      as (d_pos & d_rot & Hgd & _).
    eexists. split; [exact Ha |].
    unfold goal_dim. rewrite Hgo. split; [exact La |]. split; [exact Lg |].
    unfold compute_reward. rewrite Hr, Hgd. reflexivity.
Qed.

Lemma norm3_zero (x y z : R) : norm [x; y; z] = 0 -> x = 0 /\ y = 0 /\ z = 0.
Proof.
  unfold norm. simpl. intros Hn.
  apply sqrt_eq_0 in Hn; [| nra].
  repeat split; nra.
Qed.

(** A reward type other than ['sparse'] gives the dense reward, minus ten
    times the position distance minus the rotation distance: it is never
    positive, and with the target rotation ignored it is 0 exactly when the
    two positions are the same. *)
Theorem dense_reward_nonpositive (self : Env)
  (a1 a2 a3 a4 a5 a6 a7 g1 g2 g3 g4 g5 g6 g7 : R) (info : option dict) :
  reward_type (config self) <> "sparse"%string ->
  exists d_pos d_rot,
    _goal_distance [a1; a2; a3; a4; a5; a6; a7] [g1; g2; g3; g4; g5; g6; g7]
      (ignore_target_rotation (config self)) = Some (d_pos, d_rot)
    /\ compute_reward self [a1; a2; a3; a4; a5; a6; a7] [g1; g2; g3; g4; g5; g6; g7] info
       = Some (- (10 * d_pos + d_rot))
    /\ - (10 * d_pos + 2 * PI) <= - (10 * d_pos + d_rot) <= 0
    /\ (ignore_target_rotation (config self) = true ->
        (- (10 * d_pos + d_rot) = 0 <-> a1 = g1 /\ a2 = g2 /\ a3 = g3)).
Proof.
  intros Hr.
  assert (Hb : String.eqb (reward_type (config self)) "sparse" = false)
    by (now apply String.eqb_neq).
  pose proof (goal_distance_eq a1 a2 a3 a4 a5 a6 a7 g1 g2 g3 g4 g5 g6 g7
                (ignore_target_rotation (config self))) as Hgd.
  do 2 eexists. split; [exact Hgd |].
  split; [unfold compute_reward; rewrite Hb, Hgd; reflexivity |].
  pose proof (norm_nonneg [a1 - g1; a2 - g2; a3 - g3]) as Hn.
  pose proof PI_RGT_0 as HPI.
  destruct (ignore_target_rotation (config self)).
  - split; [lra |]. intros _. split.
    + intros Hz.
      assert (Hz' : norm [a1 - g1; a2 - g2; a3 - g3] = 0) by lra.
      apply norm3_zero in Hz'. lra.
    + intros (-> & -> & ->). rewrite norm_same3. lra.
  - pose proof (acos_range_2 (a4 * g4 - a5 * - g5 - a6 * - g6 - a7 * - g7)) as Ha.
    split; [lra | discriminate].
Qed.

Lemma clip_vec_in_range (a lo hi : list R) :
  length lo = length a -> length hi = length a ->
  (forall (i : nat) (l h : R),
     nth_error lo i = Some l -> nth_error hi i = Some h -> l <= h) ->
  all_in_range Rleb (clip_vec a lo hi) lo hi = true.
Proof.
  revert lo hi. induction a as [| x a IH]; intros [| l lo] [| h hi] Hl Hh Hle;
    try discriminate; [reflexivity |].
  simpl. pose proof (clip_bounds x l h (Hle 0%nat l h eq_refl eq_refl)) as [H1 H2].
  apply Rleb_true in H1, H2. rewrite H1, H2. simpl.
  apply IH; [simpl in Hl; lia | simpl in Hh; lia |].
  intros i l' h' Hl' Hh'. exact (Hle (S i) l' h' Hl' Hh').
Qed.

(** [_set_arm_pose] raises unless it is given 3 or 7 components, and the
    position it commands is the one asked for clipped to the forearm
    bounds: the mocap position of the simulator it leaves passes
    [_check_range] against these bounds, on the assumption that the mocap
    position of the simulator reads back as written. *)
Theorem set_arm_pose_within_bounds (self : Env) (pose : list R)
  (l1 l2 l3 h1 h2 h3 : R) :
  (forall (v : list R) (s : Sim), mocap_pos (set_mocap_pos v s) = v) ->
  (forall (q : list R) (s : Sim), mocap_pos (set_mocap_quat q s) = mocap_pos s) ->
  forearm_bounds (config self) = ([l1; l2; l3], [h1; h2; h3]) ->
  l1 <= h1 -> l2 <= h2 -> l3 <= h3 ->
  (_set_arm_pose self pose = None <->
   length pose <> 3%nat /\ length pose <> 7%nat)
  /\ forall self' : Env,
       _set_arm_pose self pose = Some self' ->
       mocap_pos (sim self') = clip_vec (firstn 3 pose) [l1; l2; l3] [h1; h2; h3]
       /\ _check_range (mocap_pos (sim self')) [l1; l2; l3] [h1; h2; h3] true = true.
Proof.
  intros Hpos Hquat Hb H1 H2 H3. unfold _set_arm_pose. rewrite Hb.
  destruct (Nat.eqb_spec (length pose) 7) as [L7 | L7];
    [| destruct (Nat.eqb_spec (length pose) 3) as [L3 | L3]]; simpl.
  - split; [split; [discriminate | intros [_ Hn]; contradiction] |].
    intros self' Hs. apply Some_inj in Hs. subst self'. simpl.
    rewrite Hquat, Hpos. split; [reflexivity |].
    destruct (length_7 _ L7) as (p1 & p2 & p3 & p4 & p5 & p6 & p7 & ->).
    apply clip_vec_in_range; try reflexivity.
    intros [| [| [| i]]] l h Hl Hh; simpl in Hl, Hh;
      try (destruct i; discriminate); apply Some_inj in Hl, Hh; subst; assumption.
  - split; [split; [discriminate | intros [Hn _]; contradiction] |].
    intros self' Hs. apply Some_inj in Hs. subst self'. simpl.
    rewrite Hpos. split; [reflexivity |].
    destruct (length_3 _ L3) as (p1 & p2 & p3 & ->).
    apply clip_vec_in_range; try reflexivity.
    intros [| [| [| i]]] l h Hl Hh; simpl in Hl, Hh;
      try (destruct i; discriminate); apply Some_inj in Hl, Hh; subst; assumption.
  - split; [split; [intros _; now split | reflexivity] |].
    intros self' Hs. discriminate Hs.
Qed.

Lemma vadd_zero (q d r : list R) :
  vadd q (map (fun x => x * 0) d) = Some r -> r = q.
Proof.
  unfold vadd. revert d r. induction q as [| x q IH]; intros [| y d] r Hr;
    simpl in Hr; try discriminate.
  - now apply Some_inj in Hr.
  - destruct (map2 Rplus q (map (fun x => x * 0) d)) as [r' |] eqn:Hr';
      [| discriminate].
    apply Some_inj in Hr. subst r. rewrite (IH d r' Hr').
    apply (f_equal2 (@cons R)); [ring | reflexivity].
Qed.

Lemma vadd_length (a b r : list R) : vadd a b = Some r -> length r = length a.
Proof.
  unfold vadd. revert b r. induction a as [| x a IH]; intros [| y b] r Hr;
    simpl in Hr; try discriminate.
  - apply Some_inj in Hr. now subst r.
  - destruct (map2 Rplus a b) as [r' |] eqn:Hr'; [| discriminate].
    apply Some_inj in Hr. subst r. simpl. now rewrite (IH b r' Hr').
Qed.

(** Under [ignore_rotation_ctrl], [_set_action] commands the orientation
    the mocap body already has: whatever the action says, the mocap
    quaternion after the call is the one before the arm command, on the
    assumption that the mocap quaternion of the simulator reads back as
    written. *)
Theorem set_action_keeps_orientation (self self' : Env) (action : list R) :
  (forall (q : list R) (s : Sim), mocap_quat (set_mocap_quat q s) = q) ->
  ignore_rotation_ctrl (config self) = true ->
  length (mocap_pos (hand_set_action (relative_control self) (firstn 20 action)
                       (sim self))) = 3%nat ->
  length (mocap_quat (hand_set_action (relative_control self) (firstn 20 action)
                        (sim self))) = 4%nat ->
  _set_action self action = Some self' ->
  mocap_quat (sim self') =
  mocap_quat (hand_set_action (relative_control self) (firstn 20 action) (sim self)).
Proof.
  intros Hquat Hign Lp Lq. unfold _set_action.
  destruct (negb (Nat.eqb (length action) (n_actions self))); [discriminate |].
  cbn [sim with_sim config relative_control].
  set (s1 := hand_set_action (relative_control self) (firstn 20 action) (sim self))
    in *.
  destruct (negb (Nat.eqb (nmocap s1) 1)); [discriminate |].
  rewrite Hign. intros Hs.
  apply bind_Some in Hs as (new_pos & Hnp & Hs).
  apply bind_Some in Hs as (new_quat & Hnq & Hs).
  apply vadd_length in Hnp. rewrite Lp in Hnp.
  apply vadd_zero in Hnq. subst new_quat.
  destruct (length_3 _ Hnp) as (p1 & p2 & p3 & ->).
  destruct (length_4 _ Lq) as (q1 & q2 & q3 & q4 & Eq).
  rewrite Eq in Hs |- *.
  unfold _set_arm_pose in Hs. simpl in Hs.
  destruct (forearm_bounds (config self)) as [lo hi].
  apply Some_inj in Hs. subst self'. simpl. now rewrite Hquat.
Qed.

(** *** What a reset leaves alone *)

Lemma frame_fields (a b : Env) :
  episode_frame a = episode_frame b ->
  config a = config b /\ initial_state a = initial_state b
  /\ relative_control a = relative_control b /\ n_actions a = n_actions b
  /\ height_offset a = height_offset b /\ goal a = goal b.
Proof.
  unfold episode_frame. intros He.
  repeat split.
  - exact (f_equal (fun t => fst (fst (fst (fst (fst t))))) He).
  - exact (f_equal (fun t => snd (fst (fst (fst (fst t))))) He).
  - exact (f_equal (fun t => snd (fst (fst (fst t)))) He).
  - exact (f_equal (fun t => snd (fst (fst t))) He).
  - exact (f_equal (fun t => snd (fst t)) He).
  - exact (f_equal (fun t => snd t) He).
Qed.

Lemma set_arm_pose_frame (self self' : Env) (pose : list R) :
  _set_arm_pose self pose = Some self' -> episode_frame self' = episode_frame self.
Proof.
  unfold _set_arm_pose. destruct (negb _); [discriminate |].
  destruct (forearm_bounds (config self)) as [lo hi].
  intros Hs. apply Some_inj in Hs. subst self'. reflexivity.
Qed.

Lemma set_action_frame (self self' : Env) (action : list R) :
  _set_action self action = Some self' -> episode_frame self' = episode_frame self.
Proof.
  unfold _set_action. destruct (negb _); [discriminate |].
  destruct (negb _); [discriminate |].
  intros Hs.
  apply bind_Some in Hs as (new_pos & _ & Hs).
  apply bind_Some in Hs as (new_quat & _ & Hs).
  apply set_arm_pose_frame in Hs. exact Hs.
Qed.

Lemma frame_restore_relative_control (s0 self : Env) (b : bool) :
  episode_frame s0 = episode_frame (with_relative_control self b) ->
  episode_frame (with_relative_control s0 (relative_control self)) = episode_frame self.
Proof.
  intros Hf. apply frame_fields in Hf. simpl in Hf.
  destruct Hf as (F1 & F2 & _ & F4 & F5 & F6).
  unfold episode_frame. simpl. now rewrite F1, F2, F4, F5, F6.
Qed.

Lemma frame_after_placement (self s2 s3 : Env) (grasp : bool) (g : Rng) :
  episode_frame s2 = episode_frame self ->
  (if has_object (config self) && negb grasp
   then
     (let object_qpos :=
        get_joint_qpos "object:joint" (sim (with_sim s2 (sim_steps 10 (sim s2)))) in
      let '(object_xpos, self0) :=
        if randomize_initial_object_pos (config self)
        then
          let (lo, hi) := table_safe_bounds (config self) in
          let (xy, g0) :=
            uniform_vec lo hi (np_random (with_sim s2 (sim_steps 10 (sim s2)))) in
          (Some xy, with_np_random (with_sim s2 (sim_steps 10 (sim s2))) g0)
        else
          let palm :=
            firstn 2 (_get_palm_pose (with_sim s2 (sim_steps 10 (sim s2))) true) in
          let (noise, g0) :=
            uniform_size (-0.005) 0.005 2
              (np_random (with_sim s2 (sim_steps 10 (sim s2)))) in
          (vadd palm noise, with_np_random (with_sim s2 (sim_steps 10 (sim s2))) g0) in
      object_xpos0 <- object_xpos ;;
      (if negb (Nat.eqb (length object_xpos0) (length (firstn 2 object_qpos)))
       then None
       else
         Some (with_sim self0
                 (set_joint_qpos "object:joint"
                    (object_xpos0 ++ skipn 2 object_qpos) (sim self0)))))
   else Some (with_sim s2 (sim_steps 10 (sim s2)))) = Some s3 ->
  episode_frame s3 = episode_frame self.
Proof.
  intros F2 H3.
  destruct (has_object (config self) && negb grasp).
  - cbv zeta in H3.
    destruct (randomize_initial_object_pos (config self)).
    + destruct (table_safe_bounds (config self)) as [lo hi].
      destruct (uniform_vec lo hi _) as [xy' g'].
      apply bind_Some in H3 as (p & _ & H3).
      destruct (negb _); [discriminate |].
      apply Some_inj in H3. subst s3. exact F2.
    + destruct (uniform_size _ _ _ _) as [noise' g'].
      apply bind_Some in H3 as (p & _ & H3).
      destruct (negb _); [discriminate |].
      apply Some_inj in H3. subst s3. exact F2.
  - apply Some_inj in H3. subst s3. exact F2.
Qed.

Lemma reset_attempt_frame (self self' : Env) (grasp : bool) :
  reset_attempt self grasp = Some self' -> episode_frame self' = episode_frame self.
Proof.
  unfold reset_attempt. intros Hs.
  apply bind_Some in Hs as (s1 & H1 & Hs).
  assert (F1 : episode_frame s1 = episode_frame self).
  { destruct grasp.
    - destruct (negb _); [discriminate |].
      destruct (grasp_state (config self)) as [| b | st]; try discriminate.
      apply bind_Some in H1 as (s0 & H0' & H1).
      apply set_action_frame in H0'. apply Some_inj in H1. subst s1.
      apply (frame_restore_relative_control s0
               (with_sim self (sim_set_state st (sim self))) true).
      exact H0'.
    - apply Some_inj in H1. subst s1. reflexivity. }
  clear H1.
  destruct (randomize_initial_arm_pos (config self)).
  - destruct (uniform_size _ _ _ _) as [noise g].
    destruct (vadd _ noise) as [xy |]; [| discriminate].
    apply bind_Some in Hs as (pose & _ & Hs).
    apply bind_Some in Hs as (s2 & H2 & Hs).
    apply set_arm_pose_frame in H2.
    apply bind_Some in Hs as (s3 & H3 & Hs).
    apply Some_inj in Hs. subst self'.
    apply (frame_after_placement self s2 s3 grasp g) in H3; [exact H3 |].
    rewrite H2. exact F1.
  - apply bind_Some in Hs as (pose & _ & Hs).
    apply bind_Some in Hs as (s2 & H2 & Hs).
    apply set_arm_pose_frame in H2.
    apply bind_Some in Hs as (s3 & H3 & Hs).
    apply Some_inj in Hs. subst self'.
    apply (frame_after_placement self s2 s3 grasp (np_random self)) in H3;
      [exact H3 |].
    rewrite H2. exact F1.
Qed.

Lemma reset_loop_frame (fuel : nat) (grasp : bool) (self self' : Env) :
  reset_loop fuel grasp self = Returned self' ->
  episode_frame self' = episode_frame self.
Proof.
  revert self. induction fuel as [| fuel IH]; intros self Hr; [discriminate |].
  cbn [reset_loop] in Hr.
  destruct (reset_attempt self grasp) as [s1 |] eqn:Ha; [| discriminate].
  pose proof (reset_attempt_frame _ _ _ Ha) as Hf.
  destruct (negb (has_object (config s1))).
  { apply Returned_inj in Hr. now subst s1. }
  destruct grasp.
  - destruct (object_on_palm s1) as [on_palm |]; [| discriminate].
    destruct (object_still s1 && on_palm).
    + apply Returned_inj in Hr. now subst s1.
    + rewrite (IH _ Hr). exact Hf.
  - destruct (object_still s1 && object_on_table s1).
    + apply Returned_inj in Hr. now subst s1.
    + rewrite (IH _ Hr). exact Hf.
Qed.

(** Whatever number of samples it takes and whether or not it restores the
    grasp state, a [_reset_sim] that returns has written the simulator and
    the random generator and nothing else: the configuration, the goal, the
    initial state, the height offset and [relative_control], which the
    grasp branch sets for the time of one action, are as they were. *)
Theorem reset_sim_frame (fuel : nat) (self self' : Env) :
  _reset_sim fuel self = Returned self' ->
  config self' = config self
  /\ goal self' = goal self
  /\ relative_control self' = relative_control self
  /\ initial_state self' = initial_state self
  /\ height_offset self' = height_offset self
  /\ n_actions self' = n_actions self.
Proof.
  unfold _reset_sim, reset_to_grasp_draw.
  destruct (uniform 0 1 (np_random self)) as [u g].
  intros Hr. apply reset_loop_frame in Hr.
  apply frame_fields in Hr. simpl in Hr. tauto.
Qed.

End MoveCommands.

(** ** [gym.envs.yumi.yumi_env]: the constructor and the actuator commands *)

Section YumiActuatorsSpec.
Import Yumi YumiActuators.

Lemma member3_spec (x a b c : string) :
  existsb (String.eqb x) [a; b; c] = true <-> x = a \/ x = b \/ x = c.
Proof.
  cbn [existsb]. rewrite !orb_true_iff, !String.eqb_eq. intuition discriminate.
Qed.

Lemma member2_spec (x a b : string) :
  existsb (String.eqb x) [a; b] = true <-> x = a \/ x = b.
Proof.
  cbn [existsb]. rewrite !orb_true_iff, !String.eqb_eq. intuition discriminate.
Qed.

(** The constructor raises exactly for an arm other than ['right'], ['left']
    and ['both'] or a reward type other than ['sparse'] and ['dense']; the
    environment it builds has 7 actions for each arm, and one more for
    each arm when the gripper is not blocked. *)
Theorem yumi_init_accepts (arm' : string) (block_gripper' : bool)
  (reward_type' : string) (distance_threshold' : R) (has_object' : bool) :
  (init arm' block_gripper' reward_type' distance_threshold' has_object' <> None <->
   (arm' = "right" \/ arm' = "left" \/ arm' = "both")%string
   /\ (reward_type' = "sparse" \/ reward_type' = "dense")%string)
  /\ forall self : YumiEnv,
       init arm' block_gripper' reward_type' distance_threshold' has_object'
         = Some self ->
       arm self = arm' /\ block_gripper self = block_gripper'
       /\ reward_type self = reward_type' /\ has_object self = has_object'
       /\ n_actions self =
          ((if has_two_arms self then 2 else 1)
           * (if block_gripper self then 7 else 8))%nat
       /\ length (_ctrl_low self) = n_actions self.
Proof.
  pose proof (member3_spec arm' "right" "left" "both") as Ha.
  pose proof (member2_spec reward_type' "sparse" "dense") as Hr.
  unfold init.
  destruct (existsb (String.eqb arm') ["right"; "left"; "both"]%string).
  2:{ cbn [negb]. split.
      - split.
        + intros Hn. exfalso. apply Hn. reflexivity.
        + intros [Hx _]. apply Ha in Hx. discriminate Hx.
      - intros self Hs. discriminate Hs. }
  destruct (existsb (String.eqb reward_type') ["sparse"; "dense"]%string).
  2:{ cbn [negb]. split.
      - split.
        + intros Hn. exfalso. apply Hn. reflexivity.
        + intros [_ Hx]. apply Hr in Hx. discriminate Hx.
      - intros self Hs. discriminate Hs. }
  cbn [negb]. split.
  - split.
    + intros _. split; [apply Ha | apply Hr]; reflexivity.
    + intros _. discriminate.
  - intros self Hs. apply Some_inj in Hs. subst self.
    unfold n_actions, _ctrl_low, _ctrl_high, has_two_arms.
    cbn [Yumi.arm Yumi.block_gripper Yumi.reward_type Yumi.has_object].
    repeat (split; [reflexivity |]).
    rewrite length_map.
    destruct (String.eqb arm' "both"), block_gripper'; split; reflexivity.
Qed.

Lemma scaled_clip_bound (x h lim : R) :
  0 <= h -> h <= lim -> Rabs (clip x (-1) 1 * h) <= lim.
Proof.
  intros Hh Hl. pose proof (clip_bounds x (-1) 1 ltac:(lra)) as Hc.
  apply Rabs_le. split; nra.
Qed.

Lemma gripper_max_bound : Rabs _gripper_joint_max <= 0.02.
Proof. unfold _gripper_joint_max. rewrite Rabs_pos_eq; lra. Qed.

Ltac explode l H :=
  repeat (destruct l as [| ? l]; simpl in H; try lia).

Ltac limits_ok :=
  repeat first
    [ apply Forall2_nil
    | apply Forall2_cons;
      [ first [ apply gripper_max_bound
              | apply scaled_clip_bound; unfold _gripper_joint_max; lra ] | ] ].

(** For an action of the shape of the action space, [_set_action] hands
    [ctrl_set_action] nine controls for each arm: seven joint commands
    within the limits 400, 350, 300, 200, 150, 100 and 100, and two equal
    gripper commands within 0.02, which are 0.02 when the gripper is
    blocked. *)
Theorem yumi_set_action_limits (self : YumiEnv) (a : list R) :
  (arm self = "right" \/ arm self = "left" \/ arm self = "both")%string ->
  length a = n_actions self ->
  exists ctrl,
    _set_action self a = Some ctrl
    /\ Forall2 (fun u lim => Rabs u <= lim) ctrl
         (if has_two_arms self
          then [400; 350; 300; 200; 150; 100; 100; 0.02; 0.02;
                400; 350; 300; 200; 150; 100; 100; 0.02; 0.02]
          else [400; 350; 300; 200; 150; 100; 100; 0.02; 0.02])
    /\ nth 7 ctrl 0 = nth 8 ctrl 0
    /\ nth 16 ctrl 0 = nth 17 ctrl 0
    /\ (block_gripper self = true -> nth 7 ctrl 0 = 0.02).
Proof.
  intros Harm Hlen.
  unfold _set_action, clip_to_action_space, clip_box. rewrite Hlen, Nat.eqb_refl.
  unfold n_actions, _ctrl_high, has_two_arms in *.
  destruct Harm as [Ha | [Ha | Ha]]; rewrite Ha in *;
    destruct (block_gripper self); cbn [negb String.eqb Ascii.eqb Bool.eqb] in *;
    simpl in Hlen; explode a Hlen;
    (eexists; split; [simpl; reflexivity |]);
    (split; [limits_ok |]);
    repeat split; try discriminate.
Qed.

End YumiActuatorsSpec.

(** ** [gym.envs.yumi.yumi_constrained]: decoding, steps, rewards and resets *)

Section YumiConstrainedSteps.
Import Rotations Transformations YumiConstrained.
Context {Sim SimState Rng : Type}.
Context `{Simulator Sim SimState} `{RandomState Rng}.
Variable move_arms : MoveArmsArgs -> Sim -> Sim * R.
Variable reset_sim_state : Sim -> Sim.

Abbreviation YEnv := (@YumiConstrainedEnv Sim Rng).

(** [_unpack_action] cuts an action of the shape of the action space into
    consecutive pieces and loses nothing: the separation command, three
    components of displacement, four of rotation when the rotation control
    is enabled and the two finger commands when the finger control is
    enabled, in this order. Without the rotation control the rotation is
    the identity quaternion, without the finger control both finger
    commands are -1. *)
Theorem unpack_action_partition (self : YEnv) (action : list R) :
  length action = n_actions self ->
  exists u : Unpacked,
    _unpack_action self action = Some u
    /\ action =
       [dist_between_grippers u] ++ grasp_center_pos_delta u
       ++ (if rotation_ctrl_enabled self then grasp_center_quat_delta u else [])
       ++ (if fingers_ctrl_enabled self
           then [l_fingers_ctrl u; r_fingers_ctrl u] else [])
    /\ length (grasp_center_pos_delta u) = 3%nat
    /\ length (grasp_center_quat_delta u) = 4%nat
    /\ (rotation_ctrl_enabled self = false ->
        grasp_center_quat_delta u = [1; 0; 0; 0])
    /\ (fingers_ctrl_enabled self = false ->
        l_fingers_ctrl u = -1 /\ r_fingers_ctrl u = -1).
Proof.
  intros Hlen. unfold n_actions in Hlen. unfold _unpack_action.
  destruct (rotation_ctrl_enabled self), (fingers_ctrl_enabled self);
    simpl in Hlen;
    repeat (destruct action as [| ? action]; simpl in Hlen; try lia);
    (eexists; split; [reflexivity |]); simpl;
    repeat split; try discriminate.
Qed.

(** With the rotation control enabled, [step] never returns: whatever the
    action, it has raised by the time it reaches the
    [NotImplementedError] that stands for the rotation of the grasp
    centre. *)
Theorem step_rotation_ctrl_raises (self : YEnv) (action : list R) :
  rotation_ctrl_enabled self = true ->
  step_commands self action = None /\ step move_arms self action = None.
Proof.
  intros Hrot.
  assert (Hc : step_commands self action = None).
  { unfold step_commands, commands_of.
    destruct (clip_box (n_actions self) action) as [a |]; [| reflexivity].
    cbn [bind].
    destruct (_unpack_action self a) as [u |]; [| reflexivity]. cbn [bind].
    destruct (get_grasp_center_pos self) as [c |]; [| reflexivity]. cbn [bind].
    destruct (vadd _ _) as [t |]; [| reflexivity]. cbn [bind].
    destruct (negb _); [reflexivity |]. rewrite Hrot. reflexivity. }
  split; [exact Hc |]. unfold step. rewrite Hc. reflexivity.
Qed.

(** What the decoder makes of a clipped action when the rotation control is
    disabled: every command lies in the unit box. *)
Lemma clipped_unpacks_box (self : YEnv) (action clipped : list R) :
  rotation_ctrl_enabled self = false ->
  clip_box (n_actions self) action = Some clipped ->
  exists (u : Unpacked) (d1 d2 d3 : R),
    _unpack_action self clipped = Some u
    /\ grasp_center_pos_delta u = [d1; d2; d3]
    /\ in_unit_box (dist_between_grippers u)
    /\ in_unit_box d1 /\ in_unit_box d2 /\ in_unit_box d3
    /\ in_unit_box (l_fingers_ctrl u) /\ in_unit_box (r_fingers_ctrl u).
Proof.
  intros Hrot Hclip.
  destruct (clip_box_spec _ _ _ Hclip) as [Hlen Hbox].
  unfold n_actions in Hlen. rewrite Hrot in Hlen.
  destruct (fingers_ctrl_enabled self) eqn:Hf; simpl in Hlen.
  - destruct (length_6 _ Hlen) as (a0 & a1 & a2 & a3 & a4 & a5 & ->).
    eexists. exists a1, a2, a3.
    split; [apply unpack_action_6; assumption |].
    split; [reflexivity |]. cbn.
    pose proof (Forall_inv Hbox) as B0.
    pose proof (Forall_inv_tail Hbox) as T1.
    pose proof (Forall_inv T1) as B1. pose proof (Forall_inv_tail T1) as T2.
    pose proof (Forall_inv T2) as B2. pose proof (Forall_inv_tail T2) as T3.
    pose proof (Forall_inv T3) as B3. pose proof (Forall_inv_tail T3) as T4.
    pose proof (Forall_inv T4) as B4. pose proof (Forall_inv_tail T4) as T5.
    pose proof (Forall_inv T5) as B5.
    repeat split; first [apply B0 | apply B1 | apply B2 | apply B3 | apply B4 | apply B5].
  - destruct (length_4 _ Hlen) as (a0 & a1 & a2 & a3 & ->).
    eexists. exists a1, a2, a3.
    split; [apply unpack_action_4; assumption |].
    split; [reflexivity |]. cbn.
    pose proof (Forall_inv Hbox) as B0.
    pose proof (Forall_inv_tail Hbox) as T1.
    pose proof (Forall_inv T1) as B1. pose proof (Forall_inv_tail T1) as T2.
    pose proof (Forall_inv T2) as B2. pose proof (Forall_inv_tail T2) as T3.
    pose proof (Forall_inv T3) as B3.
    unfold in_unit_box in *. repeat split; lra.
Qed.

(** One [step] moves the target of the grasp centre, the midpoint of the
    two gripper targets, by at most 0.2 along each axis from the midpoint
    of the two grippers, whatever the action; the two targets differ along
    the second axis only, by between 0.05 and 0.30, and the finger
    commands handed on lie between -1 and 1. *)
Theorem step_targets_bounded (self : YEnv) (action : list R)
  (lx ly lz rx ry rz : R) :
  rotation_ctrl_enabled self = false ->
  length action = n_actions self ->
  get_gripper_pos self "l" = [lx; ly; lz] ->
  get_gripper_pos self "r" = [rx; ry; rz] ->
  exists (args : MoveArmsArgs) (l1 l2 l3 r1 r2 r3 : R),
    step_commands self action = Some args
    /\ left_target args = [l1; l2; l3]
    /\ right_target args = [r1; r2; r3]
    /\ Rabs ((l1 + r1) / 2 - (lx + rx) / 2) <= 0.2
    /\ Rabs ((l2 + r2) / 2 - (ly + ry) / 2) <= 0.2
    /\ Rabs ((l3 + r3) / 2 - (lz + rz) / 2) <= 0.2
    /\ l1 = r1 /\ l3 = r3 /\ 0.05 <= l2 - r2 <= 0.30
    /\ in_unit_box (left_grp_config args)
    /\ in_unit_box (right_grp_config args).
Proof.
  intros Hrot Hlen Hl Hr.
  assert (Hclip : exists clipped, clip_box (n_actions self) action = Some clipped).
  { unfold clip_box. rewrite Hlen, Nat.eqb_refl. eexists. reflexivity. }
  destruct Hclip as (clipped & Hclip).
  destruct (clipped_unpacks_box self action clipped Hrot Hclip)
    as (u & d1 & d2 & d3 & Hu & Hdelta & B0 & B1 & B2 & B3 & Bl & Br).
  destruct (commands_of_unpacked self clipped u lx ly lz rx ry rz d1 d2 d3
              Hrot Hu Hdelta B0 Hl Hr)
    as (args & Hc & Hlt & Hrt & _ & _ & Hlg & Hrg).
  destruct (interp_linear _ B0) as [_ Hd].
  set (d := interp (dist_between_grippers u) (-1) 1 0.05 0.30) in *.
  exists args. do 6 eexists.
  split; [unfold step_commands; rewrite Hclip; exact Hc |].
  split; [exact Hlt |]. split; [exact Hrt |].
  unfold in_unit_box in *.
  split; [apply Rabs_le; lra |].
  split; [apply Rabs_le; lra |].
  split; [apply Rabs_le; lra |].
  split; [reflexivity |]. split; [reflexivity |].
  split; [lra |].
  rewrite Hlg, Hrg. split; assumption.
Qed.

Lemma yumi_goal_distance_3 (a1 a2 a3 g1 g2 g3 : R) :
  _goal_distance [a1; a2; a3] [g1; g2; g3] = Some (norm [a1 - g1; a2 - g2; a3 - g3]).
Proof. reflexivity. Qed.

Lemma yumi_goal_distance_defined (a g : list R) :
  _goal_distance a g <> None <-> length a = 3%nat /\ length g = 3%nat.
Proof.
  unfold _goal_distance.
  destruct (Nat.eqb_spec (length a) (length g)) as [E | E]; simpl.
  - destruct (Nat.eqb_spec (length a) 3) as [E3 | E3]; simpl.
    + split; [intros _; split; congruence |]. intros _.
      destruct (length_3 _ E3) as (a1 & a2 & a3 & ->).
      rewrite E3 in E. symmetry in E.
      destruct (length_3 _ E) as (g1 & g2 & g3 & ->). discriminate.
    + split; [intros Hn; now contradiction Hn | intros [Ha _]; contradiction].
  - split; [intros Hn; now contradiction Hn | intros [Ha Hg]; congruence].
Qed.

(** [compute_reward] is defined exactly on two goals of three components.
    With the reward type ['sparse'] it is 0 when the distance of the two
    goals is below the threshold and -1 otherwise; with any other reward
    type it is minus the distance, which is 0 only between equal goals. *)
Theorem constrained_reward_values (self : YEnv) (achieved goal' : list R)
  (info : option dict) :
  (compute_reward self achieved goal' info <> None <->
   length achieved = 3%nat /\ length goal' = 3%nat)
  /\ forall r : R,
       compute_reward self achieved goal' info = Some r ->
       exists d : R,
         _goal_distance achieved goal' = Some d /\ 0 <= d
         /\ (reward_type self = "sparse"%string ->
             (r = 0 \/ r = -1) /\ (r = 0 <-> d < distance_threshold self))
         /\ (reward_type self <> "sparse"%string ->
             r = - d /\ r <= 0 /\ (r = 0 <-> achieved = goal')).
Proof.
  pose proof (yumi_goal_distance_defined achieved goal') as Hdef.
  split.
  - rewrite <- Hdef. unfold compute_reward, _is_success.
    destruct (String.eqb (reward_type self) "sparse");
      destruct (_goal_distance achieved goal') as [d |]; cbn [bind];
      split; intros Hx; try discriminate; try (now contradiction Hx).
  - intros r Hr.
    assert (Hs : _goal_distance achieved goal' <> None).
    { unfold compute_reward, _is_success in Hr.
      destruct (_goal_distance achieved goal'); [discriminate |].
      destruct (String.eqb (reward_type self) "sparse"); discriminate Hr. }
    apply Hdef in Hs. destruct Hs as [La Lg].
    destruct (length_3 _ La) as (a1 & a2 & a3 & ->).
    destruct (length_3 _ Lg) as (g1 & g2 & g3 & ->).
    exists (norm [a1 - g1; a2 - g2; a3 - g3]).
    split; [apply yumi_goal_distance_3 |].
    pose proof (norm_nonneg [a1 - g1; a2 - g2; a3 - g3]) as Hn.
    split; [exact Hn |].
    unfold compute_reward, _is_success in Hr. rewrite yumi_goal_distance_3 in Hr.
    cbn [bind] in Hr.
    split.
    + intros Hsp. rewrite Hsp in Hr. cbn in Hr. apply Some_inj in Hr. subst r.
      unfold Rltb, astype_float.
      destruct (Rlt_dec (norm [a1 - g1; a2 - g2; a3 - g3]) (distance_threshold self))
        as [Hlt | Hge].
      * split; [left; lra |]. split; [intros _; exact Hlt | intros _; lra].
      * split; [right; lra |]. split; [intros Hz; lra | intros Hlt; contradiction].
    + intros Hd. apply String.eqb_neq in Hd. rewrite Hd in Hr.
      apply Some_inj in Hr. subst r.
      split; [reflexivity |]. split; [lra |]. split.
      * intros Hz.
        assert (Hz' : norm [a1 - g1; a2 - g2; a3 - g3] = 0) by lra.
        apply norm3_zero in Hz'. destruct Hz' as (E1 & E2 & E3).
        replace a1 with g1 by lra. replace a2 with g2 by lra.
        replace a3 with g3 by lra. reflexivity.
      * intros Heq.
        assert (E1 : a1 = g1) by exact (f_equal (fun l => nth 0 l 0) Heq).
        assert (E2 : a2 = g2) by exact (f_equal (fun l => nth 1 l 0) Heq).
        assert (E3 : a3 = g3) by exact (f_equal (fun l => nth 2 l 0) Heq).
        subst a1 a2 a3. rewrite norm_same3. lra.
Qed.

(** What a [step] that returns hands back belongs together: the achieved
    goal is the position of the object in the simulator the step leaves,
    [info['is_success']] is the score of that position against the goal
    and is 0 or 1, the reward is [compute_reward] of the two, which under
    the sparse reward is the score minus one; [done] is never set, and the
    step writes nothing but the simulator. *)
Theorem step_result_consistent (self self' : YEnv) (action : list R)
  (res : StepResult) :
  step move_arms self action = Some (self', res) ->
  done res = false
  /\ achieved_goal res = get_object_pos self'
  /\ self' = with_sim self (sim self')
  /\ goal self' = goal self
  /\ _is_success self' (achieved_goal res) (goal self') = Some (is_success res)
  /\ (is_success res = 0 \/ is_success res = 1)
  /\ compute_reward self' (achieved_goal res) (goal self') None = Some (reward res)
  /\ (reward_type self = "sparse"%string -> reward res = is_success res - 1)
  /\ (reward_type self <> "sparse"%string -> reward res <= 0).
Proof.
  unfold step. intros Hs.
  apply bind_Some in Hs as (args & _ & Hs).
  set (s1 := with_sim self (fst (move_arms args (sim self)))) in *.
  apply bind_Some in Hs as (succ & Hsucc & Hs).
  apply bind_Some in Hs as (r & Hrew & Hs).
  apply Some_inj in Hs.
  pose proof (f_equal fst Hs) as E1. pose proof (f_equal snd Hs) as E2.
  cbn [fst snd] in E1, E2. subst self' res.
  cbn [done achieved_goal is_success reward].
  split; [reflexivity |]. split; [reflexivity |]. split; [reflexivity |].
  split; [reflexivity |]. split; [exact Hsucc |].
  assert (H01 : succ = 0 \/ succ = 1).
  { unfold _is_success in Hsucc.
    apply bind_Some in Hsucc as (d & _ & Hsucc). apply Some_inj in Hsucc.
    subst succ. unfold astype_float. destruct (Rltb _ _); [right | left]; reflexivity. }
  split; [exact H01 |].
  split; [rewrite <- Hrew; now apply yumi_compute_reward_fields |].
  unfold compute_reward in Hrew. change (reward_type s1) with (reward_type self) in Hrew.
  split.
  - intros Hsp. rewrite Hsp in Hrew. cbn [String.eqb Ascii.eqb Bool.eqb] in Hrew.
    rewrite Hsucc in Hrew. cbn [bind] in Hrew. apply Some_inj in Hrew. now subst r.
  - intros Hd. apply String.eqb_neq in Hd. rewrite Hd in Hrew.
    apply bind_Some in Hrew as (d & Hgd & Hrew). apply Some_inj in Hrew. subst r.
    unfold _goal_distance in Hgd.
    destruct (negb _); [discriminate |]. destruct (negb _); [discriminate |].
    apply bind_Some in Hgd as (delta & _ & Hgd). apply Some_inj in Hgd. subst d.
    pose proof (norm_nonneg delta). lra.
Qed.

Lemma uniform_vec_2 (lx ly hx hy : R) (g : Rng) :
  (forall (lo hi : R) (g : Rng), lo <= hi -> lo <= fst (uniform lo hi g) <= hi) ->
  lx <= hx -> ly <= hy ->
  exists x y g',
    uniform_vec [lx; ly] [hx; hy] g = ([x; y], g')
    /\ lx <= x <= hx /\ ly <= y <= hy.
Proof.
  intros Hrng Hx Hy. simpl.
  pose proof (Hrng lx hx g Hx) as Hgx.
  destruct (uniform lx hx g) as [x g1]. simpl in Hgx.
  pose proof (Hrng ly hy g1 Hy) as Hgy.
  destruct (uniform ly hy g1) as [y g2]. simpl in Hgy.
  exists x, y, g2. split; [reflexivity |]. split; assumption.
Qed.

(** [_reset] with a randomised object sets the object down within
    [_obj_init_bounds] and leaves the rest of its joint position (the
    height and the orientation) as the fixed joint configuration has it;
    it raises when the joint position of the object has fewer than two
    components. The generator is assumed to draw within the interval it is
    asked for, and the simulator to read a joint position back as
    written. *)
Theorem reset_object_within_bounds (self : YEnv) (lx ly hx hy : R) :
  (forall (lo hi : R) (g : Rng), lo <= hi -> lo <= fst (uniform lo hi g) <= hi) ->
  (forall (name : string) (v : list R) (s : Sim),
     get_joint_qpos name (set_joint_qpos name v s) = v) ->
  randomize_initial_object_pos self = true ->
  _obj_init_bounds self = ([lx; ly], [hx; hy]) ->
  lx <= hx -> ly <= hy ->
  let before := get_joint_qpos "object0:joint" (reset_sim_state (sim self)) in
  (_reset reset_sim_state self = None <-> (length before < 2)%nat)
  /\ forall self' : YEnv,
       _reset reset_sim_state self = Some self' ->
       exists x y : R,
         get_joint_qpos "object0:joint" (sim self') = [x; y] ++ skipn 2 before
         /\ lx <= x <= hx /\ ly <= y <= hy.
Proof.
  intros Hrng Hsim Hrand Hb Hx Hy before. unfold _reset.
  cbn [randomize_initial_object_pos with_sim _obj_init_bounds np_random sim].
  rewrite Hrand, Hb.
  destruct (uniform_vec_2 lx ly hx hy (np_random self) Hrng Hx Hy)
    as (x & y & g' & Hu & Bx & By).
  rewrite Hu. fold before. cbn [length].
  destruct before as [| b1 [| b2 before']] eqn:Eb; cbn [firstn length Nat.eqb negb].
  - split; [split; [intros _; simpl; lia | reflexivity] |].
    intros self' Hs. discriminate Hs.
  - split; [split; [intros _; simpl; lia | reflexivity] |].
    intros self' Hs. discriminate Hs.
  - split; [split; [discriminate | simpl; lia] |].
    intros self' Hs. apply Some_inj in Hs. subst self'.
    exists x, y. cbn [sim with_sim with_np_random]. rewrite Hsim.
    split; [reflexivity |]. split; assumption.
Qed.

End YumiConstrainedSteps.

(** ** [gym.envs.yumi.yumi_constrained]: the control law *)

Section ControllerSpec.
Import YumiController.

Lemma all_zero_spec (l : list R) :
  forallb (fun x => Reqb x 0) l = true <-> Forall (fun x => x = 0) l.
Proof.
  induction l as [| x l IH]; simpl.
  - split; [constructor | reflexivity].
  - unfold Reqb at 1. destruct (Req_EM_T x 0) as [E | E]; simpl.
    + rewrite IH. split; [now constructor | apply Forall_inv_tail].
    + split; [discriminate |]. intros Hf. apply Forall_inv in Hf. contradiction.
Qed.

Lemma broadcast2_scalar_r (f : R -> R -> R) (a : list R) (y : R) :
  broadcast2 f a [y] = Some (map (fun x => f x y) a).
Proof. destruct a as [| x [| x' a]]; reflexivity. Qed.

Lemma map2_maps (f : R -> R -> R) (g h : R -> R) (l : list R) :
  map2 f (map g l) (map h l) = Some (map (fun x => f (g x) (h x)) l).
Proof. induction l as [| x l IH]; simpl; [reflexivity | now rewrite IH]. Qed.

Lemma map2_diag (f : R -> R -> R) (l : list R) :
  map2 f l l = Some (map (fun x => f x x) l).
Proof. induction l as [| x l IH]; simpl; [reflexivity | now rewrite IH]. Qed.

Lemma map2_length (f : R -> R -> R) (a b : list R) :
  length a = length b ->
  exists r, map2 f a b = Some r /\ length r = length a.
Proof.
  revert b. induction a as [| x a IH]; intros [| y b] Hl; try discriminate.
  - exists []. split; reflexivity.
  - destruct (IH b ltac:(simpl in Hl; lia)) as (r & Hr & Lr).
    exists (f x y :: r). simpl. rewrite Hr, Lr. split; reflexivity.
Qed.

Lemma broadcast2_same_shape (f : R -> R -> R) (a b : list R) :
  length a = length b -> broadcast2 f a b = map2 f a b.
Proof. intros Hl. unfold broadcast2. now rewrite Hl, Nat.eqb_refl. Qed.

Lemma proportional_only (k zero : R) (error : list R) :
  zero = 0 ->
  map (fun x => - x * k)
    (map (fun x => x + 0.05 * zero) (map (fun e => 1.0 * e) error))
  = map (fun e => - e * k) error.
Proof.
  intros ->. rewrite !map_map. apply map_ext. intros e.
  replace (1.0 * e + 0.05 * 0) with e by lra. reflexivity.
Qed.

(** The control law on an error and a stored error of one shape, with a
    time step that is not zero: the call returns a command of that shape
    and stores the error. The derivative term is left out whenever the
    stored error is zero in every component, on the first call and on any
    later one alike, and it vanishes when the error is the stored one: in
    both cases the command is [- k * error]. *)
Theorem controller_proportional (dt k : R) (error prev_error : list R) :
  dt <> 0 ->
  length prev_error = length error ->
  exists u : list R,
    _controller dt error prev_error k = Some (u, error)
    /\ length u = length error
    /\ (Forall (fun x => x = 0) prev_error -> u = map (fun e => - e * k) error)
    /\ _controller dt error error k = Some (map (fun e => - e * k) error, error).
Proof.
  intros Hdt Hlen.
  assert (Hst : forall p, length p = length error -> assign_all p error = Some error).
  { intros p Hp. unfold assign_all. now rewrite Hp, Nat.eqb_refl. }
  assert (Hzero : forall p, length p = length error ->
            forallb (fun x => Reqb x 0) p = true ->
            _controller dt error p k = Some (map (fun e => - e * k) error, error)).
  { intros p Hp Hz. unfold _controller. rewrite Hz. cbn [bind].
    rewrite (Hst p Hp). cbn [bind map].
    rewrite broadcast2_scalar_r. cbn [bind].
    now rewrite proportional_only. }
  assert (Hsame : _controller dt error error k
                  = Some (map (fun e => - e * k) error, error)).
  { destruct (forallb (fun x => Reqb x 0) error) eqn:Hz.
    - apply Hzero; [reflexivity | exact Hz].
    - unfold _controller. rewrite Hz.
      rewrite broadcast2_same_shape by reflexivity.
      rewrite map2_diag. cbn [bind]. rewrite (Hst error eq_refl). cbn [bind].
      rewrite !map_map.
      rewrite broadcast2_same_shape by (now rewrite !length_map).
      rewrite map2_maps. cbn [bind]. rewrite map_map.
      f_equal. f_equal. apply map_ext. intros e.
      replace ((e - e) / dt) with 0 by (unfold Rdiv; ring).
      replace (1.0 * e + 0.05 * 0) with e by lra. reflexivity. }
  destruct (forallb (fun x => Reqb x 0) prev_error) eqn:Hz.
  - exists (map (fun e => - e * k) error).
    split; [now apply Hzero |]. split; [apply length_map |].
    split; [reflexivity | exact Hsame].
  - destruct (map2_length Rminus error prev_error (eq_sym Hlen)) as (diff & Hd & Ld).
    destruct (map2_length Rplus (map (fun e => 1.0 * e) error)
                (map (fun d => 0.05 * d) (map (fun x => x / dt) diff)))
      as (s & Hs & Ls); [now rewrite !length_map |].
    exists (map (fun x => - x * k) s).
    split.
    + unfold _controller. rewrite Hz.
      rewrite broadcast2_same_shape by (now symmetry).
      rewrite Hd. cbn [bind]. rewrite (Hst prev_error Hlen). cbn [bind].
      rewrite broadcast2_same_shape by (now rewrite !length_map).
      rewrite Hs. reflexivity.
    + split; [now rewrite length_map, Ls, length_map |].
      split; [| exact Hsame].
      intros Hall. apply all_zero_spec in Hall. rewrite Hall in Hz. discriminate.
Qed.

End ControllerSpec.

(** ** [gym.envs.robotics.hand.pick_and_place] *)

Section PickAndPlaceSpec.
Import Rotations PickAndPlace.

Lemma norm3_pos (x y z : R) :
  x <> 0 \/ y <> 0 \/ z <> 0 -> 0 < norm [x; y; z].
Proof.
  intros Hnz. unfold norm. simpl. apply sqrt_lt_R0.
  destruct Hnz as [Hx | [Hy | Hz]]; nra.
Qed.

Lemma div_by_one (x : R) : x / 1 = x.
Proof. unfold Rdiv. rewrite Rinv_1. apply Rmult_1_r. Qed.

Lemma norm_sq (v : list R) : norm v * norm v = sum_sq v.
Proof. unfold norm. apply sqrt_sqrt, sum_sq_nonneg. Qed.

Lemma normalized3_unit (x y z : R) :
  x <> 0 \/ y <> 0 \/ z <> 0 ->
  sum_sq (map (fun c => c / norm [x; y; z]) [x; y; z]) = 1.
Proof.
  intros Hnz. pose proof (norm3_pos x y z Hnz) as Hp.
  pose proof (norm_sq [x; y; z]) as Hs. simpl in Hs.
  set (n := norm [x; y; z]) in *. simpl.
  replace (x / n * (x / n) + (y / n * (y / n) + (z / n * (z / n) + 0)))
    with ((x * x + (y * y + (z * z + 0))) / (n * n)) by (field; lra).
  rewrite <- Hs. field. lra.
Qed.

(** For an axis that is not zero, [quat_from_angle_and_axis] returns the
    unit quaternion [(cos (angle / 2), sin (angle / 2) * axis / |axis|)]
    and leaves the array [axis] of its caller normalised; its second
    normalisation divides by one. *)
Theorem quat_from_angle_and_axis_unit (angle x y z : R) :
  x <> 0 \/ y <> 0 \/ z <> 0 ->
  exists quat axis' : list R,
    quat_from_angle_and_axis angle [x; y; z] = Some (quat, axis')
    /\ axis' = map (fun c => c / norm [x; y; z]) [x; y; z]
    /\ norm axis' = 1
    /\ quat = cos (angle / 2) :: map (fun c => sin (angle / 2) * c) axis'
    /\ is_unit_quat quat.
Proof.
  intros Hnz. pose proof (normalized3_unit x y z Hnz) as Hu.
  set (n := norm [x; y; z]) in *.
  set (c := cos (angle / 2)). set (s := sin (angle / 2)).
  assert (Hq : sum_sq [c; s * (x / n); s * (y / n); s * (z / n)] = 1).
  { simpl in Hu |- *.
    pose proof (sin2_cos2 (angle / 2)) as Hsc. unfold Rsqr in Hsc.
    fold c s in Hsc.
    replace (c * c + (s * (x / n) * (s * (x / n)) + (s * (y / n) * (s * (y / n))
              + (s * (z / n) * (s * (z / n)) + 0))))
      with (c * c + s * s * (x / n * (x / n) + (y / n * (y / n)
              + (z / n * (z / n) + 0)))) by ring.
    rewrite Hu. lra. }
  assert (Hn : norm [c; s * (x / n); s * (y / n); s * (z / n)] = 1)
    by (unfold norm; rewrite Hq; apply sqrt_1).
  exists [c; s * (x / n); s * (y / n); s * (z / n)], [x / n; y / n; z / n].
  split.
  - unfold quat_from_angle_and_axis. cbn [length Nat.eqb negb map].
    fold n c s. rewrite Hn. cbn [map].
    rewrite !div_by_one. reflexivity.
  - split; [reflexivity |].
    split; [unfold norm; cbn [map] in Hu; rewrite Hu; apply sqrt_1 |].
    split; [reflexivity |].
    split; [reflexivity | exact Hq].
Qed.

End PickAndPlaceSpec.

Section PickAndPlaceGoals.
Import Rotations PickAndPlace.
Context {Sim SimState Rng : Type}.
Context `{Simulator Sim SimState} `{RandomState Rng}.

Abbreviation PEnv := (@_PickAndPlaceEnv Sim SimState Rng).

Lemma uniform_size_3 (lo hi : R) (g : Rng) :
  exists n1 n2 n3 g', uniform_size lo hi 3 g = ([n1; n2; n3], g').
Proof.
  unfold uniform_size. simpl.
  destruct (uniform lo hi g) as [n1 g1].
  destruct (uniform lo hi g1) as [n2 g2].
  destruct (uniform lo hi g2) as [n3 g3].
  now exists n1, n2, n3, g3.
Qed.

(** The goal [_sample_goal] returns: a point with a zero quaternion. *)
Lemma pick_and_place_goal_shape (self : PEnv) :
  length (initial_arm_xpos self) = 3%nat ->
  exists (gx gy gz : R) (self' : PEnv),
    _sample_goal self = Some ([gx; gy; gz; 0; 0; 0; 0], self')
    /\ config self' = config self.
Proof.
  intros Hl. destruct (length_3 _ Hl) as (p1 & p2 & p3 & Hp).
  unfold _sample_goal. rewrite Hp.
  destruct (uniform_size_3 (- target_range (config self)) (target_range (config self))
              (np_random self)) as (n1 & n2 & n3 & g & ->).
  cbn [firstn broadcast2 length Nat.eqb map2 bind app].
  destruct (has_object (config self)); [| do 4 eexists; split; reflexivity].
  destruct (target_in_the_air (config self)); [| do 4 eexists; split; reflexivity].
  destruct (uniform 0 1 g) as [u g1].
  destruct (Rltb u 0.5); [| do 4 eexists; split; reflexivity].
  destruct (uniform 0 0.45 g1) as [dz g2].
  do 4 eexists; split; reflexivity.
Qed.

Lemma pick_and_place_distance_to_sampled (self : PEnv)
  (a1 a2 a3 a4 a5 a6 a7 gx gy gz : R) :
  ignore_target_rotation (config self) = false ->
  _goal_distance self [a1; a2; a3; a4; a5; a6; a7] [gx; gy; gz; 0; 0; 0; 0]
  = Some (norm [a1 - gx; a2 - gy; a3 - gz], PI).
Proof.
  intros Hign. unfold _goal_distance. rewrite Hign.
  cbn [length Nat.eqb negb firstn skipn vsub map2 bind quat_conjugate map
       quat_mul nth].
  now rewrite angle_to_zero_quaternion.
Qed.

(** An environment built by the constructor never counts a goal it has
    sampled as achieved when the rotation threshold is at most pi, as the
    default 0.1 is: the constructor fixes [ignore_target_rotation] to
    [False] and [_sample_goal] returns goals with the zero quaternion, from
    which every quaternion has the rotation distance pi. The sparse reward
    against a sampled goal is then -1 wherever the object is. *)
Theorem pick_and_place_never_succeeds (self : PEnv) (achieved : list R)
  (info : option dict) (reward_type' : string)
  (randomize_initial_position' randomize_initial_rotation' : bool)
  (distance_threshold' rotation_threshold' : R) :
  config self = init reward_type' randomize_initial_position'
                  randomize_initial_rotation' distance_threshold'
                  rotation_threshold' ->
  rotation_threshold' <= PI ->
  length (initial_arm_xpos self) = 3%nat ->
  length achieved = 7%nat ->
  exists (goal' : list R) (self' : PEnv),
    _sample_goal self = Some (goal', self')
    /\ length goal' = 7%nat
    /\ skipn 3 goal' = [0; 0; 0; 0]
    /\ _is_success self achieved goal' = Some 0
    /\ _is_success self' achieved goal' = Some 0
    /\ (reward_type' = "sparse"%string ->
        compute_reward self achieved goal' info = Some (-1)).
Proof.
  intros Hc Hthr Hl La.
  destruct (pick_and_place_goal_shape self Hl) as (gx & gy & gz & self' & Hg & Hc').
  destruct (length_7 _ La) as (a1 & a2 & a3 & a4 & a5 & a6 & a7 & ->).
  assert (Hs : forall e : PEnv, config e = config self ->
            _is_success e [a1; a2; a3; a4; a5; a6; a7] [gx; gy; gz; 0; 0; 0; 0]
            = Some 0).
  { intros e He. unfold _is_success.
    rewrite pick_and_place_distance_to_sampled by (rewrite He, Hc; reflexivity).
    cbn [bind]. rewrite He, Hc. cbn [rotation_threshold init distance_threshold].
    assert (Hfar : Rltb PI rotation_threshold' = false)
      by (apply Rltb_false; lra).
    rewrite Hfar.
    f_equal. unfold astype_float. destruct (Rltb _ _); lra. }
  exists [gx; gy; gz; 0; 0; 0; 0], self'.
  split; [exact Hg |]. split; [reflexivity |]. split; [reflexivity |].
  split; [now apply Hs |]. split; [now apply Hs |].
  intros Hsp. unfold compute_reward. rewrite Hc. cbn [reward_type init].
  rewrite Hsp. cbn [String.eqb Ascii.eqb Bool.eqb].
  rewrite (Hs self eq_refl). cbn [bind]. f_equal. lra.
Qed.

End PickAndPlaceGoals.

(** ** The further properties on the toy environments *)

Section MoveGoalExamples.
Import Rotations Move Examples.

Lemma goal_distance_antipodal_witness :
  _is_success (toy_env (pick_and_place_config "sparse" false false) [])
    [1.3; 0.7; 0.4; 1; 0; 0; 0] [1.3; 0.7; 0.4; - (1); - (0); - (0); - (0)]
  = Some 0.
Proof.
  assert (Hu : 1 * 1 + 0 * 0 + 0 * 0 + 0 * 0 = 1) by lra.
  assert (Hthr : rotation_threshold
                   (config (toy_env (pick_and_place_config "sparse" false false) []))
                 <= 2 * PI)
    by (simpl; pose proof PI2_1; lra).
  exact (proj2 (goal_distance_antipodal
                  (toy_env (pick_and_place_config "sparse" false false) [])
                  1.3 0.7 0.4 1 0 0 0 0 0 Hu eq_refl Hthr)).
Defined.

Lemma sampled_goal_never_achieved_witness :
  _is_success (toy_env (pick_and_place_config "sparse" false false) [])
    [1.3; 0.7; 0.4; 1; 0; 0; 0]
    (fst (_sample_goal (toy_env (pick_and_place_config "sparse" false false) [])))
  = Some 0.
Proof.
  assert (Hthr : rotation_threshold
                   (config (toy_env (pick_and_place_config "sparse" false false) []))
                 <= PI)
    by (simpl; pose proof PI2_1; lra).
  exact (proj1 (sampled_goal_never_achieved
                  (toy_env (pick_and_place_config "sparse" false false) [])
                  [1.3; 0.7; 0.4; 1; 0; 0; 0] None
                  eq_refl eq_refl eq_refl Hthr eq_refl)).
Defined.

Lemma sample_goal_in_range_witness :
  exists gx gy gz : R,
    fst (_sample_goal (midpoint_env (pick_and_place_config "sparse" false false)))
      = [gx; gy; gz; 0; 0; 0; 0]
    /\ 1.10 <= gx <= 1.49 /\ 0.43 <= gy <= 1.05.
Proof.
  assert (Hrng : forall (lo hi : R) (g : unit),
             lo <= hi -> lo <= fst (uniform lo hi g) <= hi)
    by (intros lo hi g Hle; simpl; lra).
  assert (Hx : 1.10 <= 1.49) by lra.
  assert (Hy : 0.43 <= 1.05) by lra.
  destruct (sample_goal_in_range
              (midpoint_env (pick_and_place_config "sparse" false false))
              1.10 0.43 1.49 1.05 Hrng eq_refl Hx Hy)
    as (gx & gy & gz & Hg & _ & Bx & By & _).
  exists gx, gy, gz. split; [exact Hg |]. split; assumption.
Defined.

Lemma reward_defined_on_own_goals_witness :
  exists (achieved : list R) (r : R),
    _get_achieved_goal (toy_env (pick_and_place_config "sparse" false false) [])
      = Some achieved
    /\ compute_reward (toy_env (pick_and_place_config "sparse" false false) [])
         achieved
         (fst (_sample_goal (toy_env (pick_and_place_config "sparse" false false) [])))
         None = Some r.
Proof.
  assert (Hinit : init default_args [1; 0; 0; 0]
                  = inr (config (toy_env (pick_and_place_config "sparse" false false) [])))
    by reflexivity.
  assert (Lp : length (get_body_xpos "object"
                 (sim (toy_env (pick_and_place_config "sparse" false false) [])))
               = 3%nat) by reflexivity.
  assert (Lq : length (get_body_xquat "object"
                 (sim (toy_env (pick_and_place_config "sparse" false false) [])))
               = 4%nat) by reflexivity.
  assert (Ls : length (get_site_xpos "robot0:palm_center"
                 (sim (toy_env (pick_and_place_config "sparse" false false) [])))
               = 3%nat) by reflexivity.
  destruct (reward_defined_on_own_goals
              (toy_env (pick_and_place_config "sparse" false false) [])
              default_args [1; 0; 0; 0] None Hinit Lp Lq Ls)
    as (achieved & r & Ha & _ & _ & Hr).
  exists achieved, r. split; assumption.
Defined.

Lemma dense_reward_nonpositive_witness :
  exists r : R,
    compute_reward (toy_env (pick_and_place_config "dense" true false) [])
      [1.25; 0.53; 0.4; 1; 0; 0; 0] [1.3; 0.7; 0.4; 0; 0; 0; 0] None = Some r
    /\ r <= 0.
Proof.
  assert (Hr : reward_type
                 (config (toy_env (pick_and_place_config "dense" true false) []))
               <> "sparse"%string) by discriminate.
  destruct (dense_reward_nonpositive
              (toy_env (pick_and_place_config "dense" true false) [])
              1.25 0.53 0.4 1 0 0 0 1.3 0.7 0.4 0 0 0 0 None Hr)
    as (d_pos & d_rot & _ & Hc & Hb & _).
  eexists. split; [exact Hc | lra].
Defined.

Lemma set_arm_pose_within_bounds_witness :
  exists self' : @MovingHandEnv ToySim ToySim (list R),
    _set_arm_pose (toy_env (pick_and_place_config "sparse" false false) [])
      [5; 0.75; 0.65] = Some self'
    /\ _check_range (mocap_pos (sim self'))
         [0.65; 0.3; 0.42] [1.75; 1.2; 1.0] true = true.
Proof.
  assert (Hpos : forall (v : list R) (s : ToySim), mocap_pos (set_mocap_pos v s) = v)
    by reflexivity.
  assert (Hquat : forall (q : list R) (s : ToySim),
             mocap_pos (set_mocap_quat q s) = mocap_pos s) by reflexivity.
  assert (H1 : 0.65 <= 1.75) by lra.
  assert (H2 : 0.3 <= 1.2) by lra.
  assert (H3 : 0.42 <= 1.0) by lra.
  destruct (set_arm_pose_within_bounds
              (toy_env (pick_and_place_config "sparse" false false) [])
              [5; 0.75; 0.65] 0.65 0.3 0.42 1.75 1.2 1.0
              Hpos Hquat eq_refl H1 H2 H3) as [_ Hok].
  assert (E : exists s,
             _set_arm_pose (toy_env (pick_and_place_config "sparse" false false) [])
               [5; 0.75; 0.65] = Some s) by (eexists; reflexivity).
  destruct E as [s E]. exists s. split; [exact E | exact (proj2 (Hok s E))].
Defined.

Lemma set_action_keeps_orientation_witness :
  exists self' : @MovingHandEnv ToySim ToySim (list R),
    _set_action (toy_env position_only_config []) push_action = Some self'
    /\ mocap_quat (sim self') = [1; 0; 0; 0].
Proof.
  assert (Hq : forall (q : list R) (s : ToySim), mocap_quat (set_mocap_quat q s) = q)
    by reflexivity.
  assert (Lp : length (mocap_pos
                 (hand_set_action (relative_control (toy_env position_only_config []))
                    (firstn 20 push_action) (sim (toy_env position_only_config []))))
               = 3%nat) by reflexivity.
  assert (Lq : length (mocap_quat
                 (hand_set_action (relative_control (toy_env position_only_config []))
                    (firstn 20 push_action) (sim (toy_env position_only_config []))))
               = 4%nat) by reflexivity.
  assert (E : exists s,
             _set_action (toy_env position_only_config []) push_action = Some s)
    by (eexists; reflexivity).
  destruct E as [s E]. exists s. split; [exact E |].
  rewrite (set_action_keeps_orientation (toy_env position_only_config []) s
             push_action Hq eq_refl Lp Lq E).
  reflexivity.
Defined.

Lemma reset_sim_frame_witness :
  goal (toy_env_at (pick_and_place_config "sparse" false false)
          (toy_placed (1 / 2) (1 / 2)) [])
  = goal (toy_env (pick_and_place_config "sparse" false false) toy_draws)
  /\ relative_control (toy_env_at (pick_and_place_config "sparse" false false)
                         (toy_placed (1 / 2) (1 / 2)) [])
     = relative_control (toy_env (pick_and_place_config "sparse" false false) toy_draws).
Proof.
  destruct (reset_sim_frame 2
              (toy_env (pick_and_place_config "sparse" false false) toy_draws)
              (toy_env_at (pick_and_place_config "sparse" false false)
                 (toy_placed (1 / 2) (1 / 2)) [])
              toy_reset_run) as (_ & Hg & Hr & _).
  split; assumption.
Defined.

End MoveGoalExamples.

Section YumiActuatorExamples.
Import Yumi YumiActuators YumiController Examples.

Lemma yumi_set_action_limits_witness :
  exists ctrl : list R,
    _set_action (reach_env "both") (repeat 2 16) = Some ctrl
    /\ length ctrl = 18%nat
    /\ nth 7 ctrl 0 = nth 8 ctrl 0.
Proof.
  assert (Harm : (arm (reach_env "both") = "right"
                  \/ arm (reach_env "both") = "left"
                  \/ arm (reach_env "both") = "both")%string)
    by (right; right; reflexivity).
  destruct (yumi_set_action_limits (reach_env "both") (repeat 2 16) Harm eq_refl)
    as (ctrl & Hc & Hlim & H78 & _).
  exists ctrl. split; [exact Hc |].
  split; [exact (Forall2_length Hlim) | exact H78].
Defined.

Lemma controller_proportional_witness :
  _controller 0.002 [1; 2] [1; 2] 2 = Some (map (fun e => - e * 2) [1; 2], [1; 2]).
Proof.
  assert (Hdt : 0.002 <> 0) by lra.
  destruct (controller_proportional 0.002 2 [1; 2] [1; 2] Hdt eq_refl)
    as (u & _ & _ & _ & Hs).
  exact Hs.
Defined.

End YumiActuatorExamples.

Section YumiStepExamples.
Import Rotations Transformations YumiConstrained Examples.

Lemma unpack_action_partition_witness :
  exists u : Unpacked,
    _unpack_action (toy_yumi "dense" true) [1 / 2; 0; 0; 1; 1; -1] = Some u
    /\ length (grasp_center_pos_delta u) = 3%nat.
Proof.
  destruct (unpack_action_partition (toy_yumi "dense" true)
              [1 / 2; 0; 0; 1; 1; -1] eq_refl) as (u & Hu & _ & L3 & _).
  exists u. split; assumption.
Defined.

Lemma step_rotation_ctrl_raises_witness :
  step toy_move_arms toy_yumi_rotating [0; 0; 0; 0; 1; 0; 0; 0] = None.
Proof.
  exact (proj2 (step_rotation_ctrl_raises toy_move_arms toy_yumi_rotating
                  [0; 0; 0; 0; 1; 0; 0; 0] eq_refl)).
Defined.

Lemma step_targets_bounded_witness :
  exists (args : MoveArmsArgs) (l2 r2 : R),
    step_commands (toy_yumi "dense" false) [2; 5; 0; 0] = Some args
    /\ nth 1 (left_target args) 0 = l2
    /\ nth 1 (right_target args) 0 = r2
    /\ 0.05 <= l2 - r2 <= 0.30.
Proof.
  assert (Hl : get_gripper_pos (toy_yumi "dense" false) "l" = [1.05; 0.75; 0.65])
    by reflexivity.
  assert (Hr : get_gripper_pos (toy_yumi "dense" false) "r" = [1.05; 0.75; 0.65])
    by reflexivity.
  destruct (step_targets_bounded (toy_yumi "dense" false) [2; 5; 0; 0]
              1.05 0.75 0.65 1.05 0.75 0.65 eq_refl eq_refl Hl Hr)
    as (args & l1 & l2 & l3 & r1 & r2 & r3 & Hs & Hlt & Hrt & _ & _ & _ & _ & _
        & Hd & _).
  exists args, l2, r2. split; [exact Hs |].
  rewrite Hlt, Hrt. split; [reflexivity |]. split; [reflexivity | exact Hd].
Defined.

(** A step of the toy dual-arm environment returns. *)
Lemma toy_step_runs :
  exists (self' : @YumiConstrainedEnv ToySim (list R)) (res : StepResult),
    step toy_move_arms (toy_yumi "sparse" false) [2; 0; 0; 0] = Some (self', res).
Proof.
  assert (Hl : get_gripper_pos (toy_yumi "sparse" false) "l" = [1.05; 0.75; 0.65])
    by reflexivity.
  assert (Hr : get_gripper_pos (toy_yumi "sparse" false) "r" = [1.05; 0.75; 0.65])
    by reflexivity.
  assert (Hclip : clip_box (n_actions (toy_yumi "sparse" false)) [2; 0; 0; 0]
                  = Some (clip_vec [2; 0; 0; 0] (repeat (-1) 4) (repeat 1 4)))
    by reflexivity.
  destruct (clipped_unpacks (toy_yumi "sparse" false) [2; 0; 0; 0] _ eq_refl Hclip)
    as (u & d1 & d2 & d3 & Hu & _ & Hdelta & Hbox).
  destruct (commands_of_unpacked (toy_yumi "sparse" false) _ u
              1.05 0.75 0.65 1.05 0.75 0.65 d1 d2 d3 eq_refl Hu Hdelta Hbox Hl Hr)
    as (args & Hc & _).
  assert (Hs : step_commands (toy_yumi "sparse" false) [2; 0; 0; 0] = Some args)
    by (unfold step_commands; rewrite Hclip; exact Hc).
  unfold step. rewrite Hs. do 2 eexists. reflexivity.
Qed.

Lemma step_result_consistent_witness :
  exists (self' : @YumiConstrainedEnv ToySim (list R)) (res : StepResult),
    step toy_move_arms (toy_yumi "sparse" false) [2; 0; 0; 0] = Some (self', res)
    /\ done res = false
    /\ reward res = is_success res - 1.
Proof.
  destruct toy_step_runs as (self' & res & Hs).
  destruct (step_result_consistent toy_move_arms (toy_yumi "sparse" false) self'
              [2; 0; 0; 0] res Hs)
    as (Hd & _ & _ & _ & _ & _ & _ & Hsp & _).
  exists self', res. split; [exact Hs |]. split; [exact Hd | exact (Hsp eq_refl)].
Defined.

Lemma reset_object_within_bounds_witness :
  exists (self' : @YumiConstrainedEnv ToySim unit) (x y : R),
    _reset toy_reset_sim_state midpoint_yumi = Some self'
    /\ get_joint_qpos "object0:joint" (sim self') = [x; y; 0.4; 1; 0; 0; 0]
    /\ -0.1 <= x <= 0.1 /\ -0.1 <= y <= 0.1.
Proof.
  assert (Hrng : forall (lo hi : R) (g : unit),
             lo <= hi -> lo <= fst (uniform lo hi g) <= hi)
    by (intros lo hi g Hle; simpl; lra).
  assert (Hsim : forall (name : string) (v : list R) (s : ToySim),
             get_joint_qpos name (set_joint_qpos name v s) = v) by reflexivity.
  assert (Hb : -0.1 <= 0.1) by lra.
  destruct (reset_object_within_bounds toy_reset_sim_state midpoint_yumi
              (-0.1) (-0.1) 0.1 0.1 Hrng Hsim eq_refl eq_refl Hb Hb) as [_ Hok].
  assert (E : exists s, _reset toy_reset_sim_state midpoint_yumi = Some s)
    by (eexists; reflexivity).
  destruct E as [s E]. destruct (Hok s E) as (x & y & Hq & Bx & By).
  exists s, x, y. split; [exact E |]. split; [exact Hq |]. split; assumption.
Defined.

End YumiStepExamples.

Section PickAndPlaceExamples.
Import Rotations PickAndPlace Examples.

Lemma quat_from_angle_and_axis_unit_witness :
  exists quat axis' : list R,
    quat_from_angle_and_axis PI [0; 0; 2] = Some (quat, axis')
    /\ is_unit_quat quat.
Proof.
  assert (Hnz : 0 <> 0 \/ 0 <> 0 \/ 2 <> 0) by (right; right; lra).
  destruct (quat_from_angle_and_axis_unit PI 0 0 2 Hnz)
    as (quat & axis' & Hq & _ & _ & _ & Hu).
  exists quat, axis'. split; assumption.
Defined.

Lemma pick_and_place_never_succeeds_witness :
  exists (goal' : list R) (self' : @_PickAndPlaceEnv ToySim ToySim (list R)),
    _sample_goal toy_pick_and_place = Some (goal', self')
    /\ compute_reward toy_pick_and_place [1.25; 0.53; 0.4; 1; 0; 0; 0] goal' None
       = Some (-1).
Proof.
  assert (Hthr : 0.1 <= PI) by (pose proof PI2_1; lra).
  destruct (pick_and_place_never_succeeds toy_pick_and_place
              [1.25; 0.53; 0.4; 1; 0; 0; 0] None "sparse" true true 0.01 0.1
              eq_refl Hthr eq_refl eq_refl)
    as (goal' & self' & Hg & _ & _ & _ & _ & Hr).
  exists goal', self'. split; [exact Hg | exact (Hr eq_refl)].
Defined.

End PickAndPlaceExamples.
